(** * Locked-resource bulk deletion workflow of az_get_del_snap

    A shallow embedding of [delete_snapshots.py] (the sequential variant)
    and of the event-loop variant [v2_az_getdelsnap.py], followed by the
    properties of the workflow: validation, lock suspension, deletion,
    lock restoration and the merge of the per-account reports.

    Text is held as [string]; a Python [str] is read as its UTF-8 bytes.
    Every subprocess invocation is answered by the [host], which sees the
    whole history of the run, so that the same command may succeed once
    and fail later. The thread-pool variant [delete_snapshot.py] runs the
    same phases in the same order; its interleavings are not modelled.
    Of [create_snapshot2.py] the client call with retries, the reader of
    the input file and the grouping by account are embedded. *)

From Stdlib Require Import ZArith Ascii String List Lia Bool.
From stdpp Require Import base gmap strings list.
Import ListNotations.

Set Warnings "-register-all".

(** ** Python text primitives *)

Module Py.

(** The double quote character, U+0022. *)
Definition dq : ascii := "034"%char.

(** [s.startswith(p)] *)
Definition startswith (p s : string) : bool := String.prefix p s.

(** [s.split(sep)] for a one-character separator: never empty. *)
Fixpoint split (sep : ascii) (s : string) : list string :=
  match s with
  | EmptyString => [EmptyString]
  | String c rest =>
      if Ascii.eqb c sep then EmptyString :: split sep rest
      else match split sep rest with
           | w :: ws => String c w :: ws
           | [] => [String c EmptyString]
           end
  end.

(** [parts[-1]] of a list known to be non-empty. *)
Definition last_part (parts : list string) : string := List.last parts EmptyString.

(** One code point of white space at the head of UTF-8 text, as
    [str.isspace] sees it: U+0009..U+000D, U+001C..U+0020, U+0085, U+00A0,
    U+1680, U+2000..U+200A, U+2028, U+2029, U+202F, U+205F, U+3000.
    The result is the text after that code point. *)
Definition drop_space (s : string) : option string :=
  match s with
  | String c r =>
      let n := N_of_ascii c in
      if ((9 <=? n) && (n <=? 13) || (28 <=? n) && (n <=? 32))%N then Some r
      else match n, r with
      | 194%N, String d r1 =>
          let m := N_of_ascii d in
          if ((m =? 133) || (m =? 160))%N then Some r1 else None
      | 225%N, String d (String e r2) =>
          if ((N_of_ascii d =? 154) && (N_of_ascii e =? 128))%N then Some r2 else None
      | 226%N, String d (String e r2) =>
          let m := N_of_ascii d in
          let k := N_of_ascii e in
          if ((m =? 128) && ((128 <=? k) && (k <=? 138) || (k =? 168) || (k =? 169) || (k =? 175))
              || (m =? 129) && (k =? 159))%N
          then Some r2 else None
      | 227%N, String d (String e r2) =>
          if ((N_of_ascii d =? 128) && (N_of_ascii e =? 128))%N then Some r2 else None
      | _, _ => None
      end
  | EmptyString => None
  end.

(** [s.lstrip()], with fuel bounded by the length of the text. *)
Fixpoint lstrip_go (fuel : nat) (s : string) : string :=
  match fuel with
  | O => s
  | S fuel' => match drop_space s with
               | Some r => lstrip_go fuel' r
               | None => s
               end
  end.

Definition lstrip (s : string) : string := lstrip_go (String.length s) s.

(** White space at the end of the text: the same code points, read off
    the reversed byte sequence. *)
Definition drop_space_rev (s : string) : option string :=
  match s with
  | String c r =>
      let n := N_of_ascii c in
      if ((9 <=? n) && (n <=? 13) || (28 <=? n) && (n <=? 32))%N then Some r
      else match r with
      | String d r1 =>
          let m := N_of_ascii d in
          if ((m =? 194) && ((n =? 133) || (n =? 160)))%N then Some r1
          else match r1 with
          | String e r2 =>
              let k := N_of_ascii e in
              if ((k =? 225) && (m =? 154) && (n =? 128)
                  || (k =? 226) && (m =? 128)
                       && ((128 <=? n) && (n <=? 138) || (n =? 168) || (n =? 169) || (n =? 175))
                  || (k =? 226) && (m =? 129) && (n =? 159)
                  || (k =? 227) && (m =? 128) && (n =? 128))%N
              then Some r2 else None
          | EmptyString => None
          end
      | EmptyString => None
      end
  | EmptyString => None
  end.

Fixpoint rstrip_go (fuel : nat) (s : string) : string :=
  match fuel with
  | O => s
  | S fuel' => match drop_space_rev s with
               | Some r => rstrip_go fuel' r
               | None => s
               end
  end.

(** [s.strip()] *)
Definition strip (s : string) : string :=
  let l := lstrip s in
  String.rev (rstrip_go (String.length l) (String.rev l)).

End Py.

(** ** JSON documents, as [json.loads] reads them *)

Inductive json : Type :=
| JNull
| JBool (b : bool)
| JNum (lexeme : string)
| JStr (s : string)
| JArr (items : list json)
| JObj (members : list (string * json)).

Module Json.

Definition is_ws (c : ascii) : bool :=
  let n := N_of_ascii c in ((n =? 32) || (n =? 9) || (n =? 10) || (n =? 13))%N.

Fixpoint skip_ws (s : string) : string :=
  match s with
  | String c r => if is_ws c then skip_ws r else s
  | EmptyString => s
  end.

Definition is_digit (c : ascii) : bool :=
  let n := N_of_ascii c in ((48 <=? n) && (n <=? 57))%N.

(** The longest run of decimal digits at the head of the text. *)
Fixpoint span_digits (s : string) : string * string :=
  match s with
  | String c r =>
      if is_digit c then let '(ds, rest) := span_digits r in (String c ds, rest)
      else (EmptyString, s)
  | EmptyString => (EmptyString, s)
  end.

(** Integer part of a number: an optional minus sign, then either a
    single zero or a non-zero digit followed by any digits. *)
Definition scan_int (s : string) : option (string * string) :=
  let '(sign, r) :=
    match s with
    | String "-"%char r => ("-", r)
    | _ => (EmptyString, s)
    end in
  match r with
  | String c r' =>
      if Ascii.eqb c "0"%char then Some (sign +:+ "0", r')
      else if is_digit c then let '(ds, rest) := span_digits r in Some (sign +:+ ds, rest)
      else None
  | EmptyString => None
  end.

(** Optional fraction: a dot followed by at least one digit. *)
Definition scan_frac (s : string) : string * string :=
  match s with
  | String "."%char r =>
      match span_digits r with
      | (EmptyString, _) => (EmptyString, s)
      | (ds, rest) => ("." +:+ ds, rest)
      end
  | _ => (EmptyString, s)
  end.

(** Optional exponent: e or E, an optional sign, at least one digit. *)
Definition scan_exp (s : string) : string * string :=
  match s with
  | String c r =>
      if Ascii.eqb c "e"%char || Ascii.eqb c "E"%char then
        let '(sign, r1) :=
          match r with
          | String "-"%char r' => ("-", r')
          | String "+"%char r' => ("+", r')
          | _ => (EmptyString, r)
          end in
        match span_digits r1 with
        | (EmptyString, _) => (EmptyString, s)
        | (ds, rest) => (String c (sign +:+ ds), rest)
        end
      else (EmptyString, s)
  | EmptyString => (EmptyString, s)
  end.

Definition scan_number (s : string) : option (string * string) :=
  match scan_int s with
  | Some (i, r) =>
      let '(f, r1) := scan_frac r in
      let '(e, r2) := scan_exp r1 in
      Some (i +:+ f +:+ e, r2)
  | None => None
  end.

Definition hex_val (c : ascii) : option N :=
  let n := N_of_ascii c in
  if ((48 <=? n) && (n <=? 57))%N then Some (n - 48)%N
  else if ((97 <=? n) && (n <=? 102))%N then Some (n - 87)%N
  else if ((65 <=? n) && (n <=? 70))%N then Some (n - 55)%N
  else None.

Definition hex4 (a b c d : ascii) : option N :=
  match hex_val a, hex_val b, hex_val c, hex_val d with
  | Some x, Some y, Some z, Some w => Some (((x * 16 + y) * 16 + z) * 16 + w)%N
  | _, _, _, _ => None
  end.

Definition byte (n : N) : ascii := ascii_of_N n.

(** UTF-8 bytes of a code point (surrogates are written as three bytes). *)
Definition utf8 (u : N) (tail : string) : string :=
  if (u <? 128)%N then String (byte u) tail
  else if (u <? 2048)%N then
    String (byte (192 + u / 64)) (String (byte (128 + u mod 64)) tail)
  else if (u <? 65536)%N then
    String (byte (224 + u / 4096))
      (String (byte (128 + (u / 64) mod 64)) (String (byte (128 + u mod 64)) tail))
  else
    String (byte (240 + u / 262144))
      (String (byte (128 + (u / 4096) mod 64))
         (String (byte (128 + (u / 64) mod 64)) (String (byte (128 + u mod 64)) tail))).

(** The body of a string literal, after its opening quote (strict mode:
    control characters are refused). The result is the decoded text and
    what follows the closing quote. *)
Fixpoint scanstring (s : string) : option (string * string) :=
  match s with
  | EmptyString => None
  | String c r =>
      if Ascii.eqb c Py.dq then Some (EmptyString, r)
      else if (N_of_ascii c <? 32)%N then None
      else if Ascii.eqb c "\"%char then
        match r with
        | String e r1 =>
            let simple (x : N) :=
              match scanstring r1 with
              | Some (t, rest) => Some (String (byte x) t, rest)
              | None => None
              end in
            if Ascii.eqb e Py.dq then simple 34%N
            else if Ascii.eqb e "\"%char then simple 92%N
            else if Ascii.eqb e "/"%char then simple 47%N
            else if Ascii.eqb e "b"%char then simple 8%N
            else if Ascii.eqb e "f"%char then simple 12%N
            else if Ascii.eqb e "n"%char then simple 10%N
            else if Ascii.eqb e "r"%char then simple 13%N
            else if Ascii.eqb e "t"%char then simple 9%N
            else if Ascii.eqb e "u"%char then
              match r1 with
              | String h1 (String h2 (String h3 (String h4 r2))) =>
                  match hex4 h1 h2 h3 h4 with
                  | Some u =>
                      let single :=
                        match scanstring r2 with
                        | Some (t, rest) => Some (utf8 u t, rest)
                        | None => None
                        end in
                      if ((55296 <=? u) && (u <=? 56319))%N then
                        match r2 with
                        | String "\"%char (String "u"%char
                            (String l1 (String l2 (String l3 (String l4 r3))))) =>
                            match hex4 l1 l2 l3 l4 with
                            | Some v =>
                                if ((56320 <=? v) && (v <=? 57343))%N then
                                  match scanstring r3 with
                                  | Some (t, rest) =>
                                      Some (utf8 (65536 + (u - 55296) * 1024 + (v - 56320))%N t,
                                            rest)
                                  | None => None
                                  end
                                else single
                            | None => single
                            end
                        | _ => single
                        end
                      else single
                  | None => None
                  end
              | _ => None
              end
            else None
        | EmptyString => None
        end
      else
        match scanstring r with
        | Some (t, rest) => Some (String c t, rest)
        | None => None
        end
  end.

(** One value at the head of the text, and the loops of arrays and
    objects. Two nested calls consume at least one character of the text,
    so fuel above twice its length is never exhausted. *)
Fixpoint scan_once (fuel : nat) (s : string) : option (json * string) :=
  match fuel with
  | O => None
  | S fuel' =>
      match s with
      | EmptyString => None
      | String c r =>
          if Ascii.eqb c Py.dq then
            match scanstring r with
            | Some (t, rest) => Some (JStr t, rest)
            | None => None
            end
          else if Ascii.eqb c "{"%char then
            match skip_ws r with
            | String "}"%char rest => Some (JObj [], rest)
            | r1 =>
                match scan_members fuel' [] r1 with
                | Some (ms, rest) => Some (JObj ms, rest)
                | None => None
                end
            end
          else if Ascii.eqb c "["%char then
            match skip_ws r with
            | String "]"%char rest => Some (JArr [], rest)
            | r1 =>
                match scan_items fuel' [] r1 with
                | Some (vs, rest) => Some (JArr vs, rest)
                | None => None
                end
            end
          else if Py.startswith "null" s then Some (JNull, String.substring 4 (String.length s - 4) s)
          else if Py.startswith "true" s then Some (JBool true, String.substring 4 (String.length s - 4) s)
          else if Py.startswith "false" s then Some (JBool false, String.substring 5 (String.length s - 5) s)
          else
            match scan_number s with
            | Some (lexeme, rest) => Some (JNum lexeme, rest)
            | None =>
                if Py.startswith "NaN" s then Some (JNum "NaN", String.substring 3 (String.length s - 3) s)
                else if Py.startswith "Infinity" s then
                  Some (JNum "Infinity", String.substring 8 (String.length s - 8) s)
                else if Py.startswith "-Infinity" s then
                  Some (JNum "-Infinity", String.substring 9 (String.length s - 9) s)
                else None
            end
      end
  end
with scan_items (fuel : nat) (acc : list json) (s : string) : option (list json * string) :=
  match fuel with
  | O => None
  | S fuel' =>
      match scan_once fuel' s with
      | Some (v, r) =>
          match skip_ws r with
          | String ","%char r1 => scan_items fuel' (v :: acc) (skip_ws r1)
          | String "]"%char rest => Some (List.rev (v :: acc), rest)
          | _ => None
          end
      | None => None
      end
  end
with scan_members (fuel : nat) (acc : list (string * json)) (s : string)
  : option (list (string * json) * string) :=
  match fuel with
  | O => None
  | S fuel' =>
      match s with
      | String c r =>
          if Ascii.eqb c Py.dq then
            match scanstring r with
            | Some (key, r1) =>
                match skip_ws r1 with
                | String ":"%char r2 =>
                    match scan_once fuel' (skip_ws r2) with
                    | Some (v, r3) =>
                        match skip_ws r3 with
                        | String ","%char r4 => scan_members fuel' ((key, v) :: acc) (skip_ws r4)
                        | String "}"%char rest => Some (List.rev ((key, v) :: acc), rest)
                        | _ => None
                        end
                    | None => None
                    end
                | _ => None
                end
            | None => None
            end
          else None
      | EmptyString => None
      end
  end.

(** [json.loads(text)]: one value between optional white space, nothing
    after it. [None] stands for [JSONDecodeError]. *)
Definition loads (text : string) : option json :=
  match scan_once (S (S (2 * String.length text))) (skip_ws text) with
  | Some (v, rest) =>
      match skip_ws rest with
      | EmptyString => Some v
      | _ => None
      end
  | None => None
  end.

(** JSON text written with apostrophes in place of double quotes. *)
Fixpoint text (s : string) : string :=
  match s with
  | String c r => String (if Ascii.eqb c "'"%char then Py.dq else c) (text r)
  | EmptyString => EmptyString
  end.

End Json.

(** ** The host: subprocesses, clock, file system *)

(** A command line handed to [subprocess]: a shell line or an argument
    vector. *)
Inductive command : Type :=
| Shell (line : string)
| Exec (argv : list string).

(** What a subprocess invocation comes to: the process ran and exited, or
    the invocation itself raised (message of the exception). *)
Inductive completed : Type :=
| Exited (returncode : Z) (stdout stderr : string)
| Broken (message : string).

Inductive exn : Type :=
| CalledProcessError (argv : list string) (returncode : Z) (stderr : string)
| JSONDecodeError (doc : string)
| TypeError (what : string)
| KeyError (key : string)
| IndexError (what : string)
| OSError (message : string).

(** A message that is either literal text or [str(e)] of an exception. *)
Inductive message : Type :=
| Text (s : string)
| StrOf (e : exn).

Inductive level : Type := INFO | WARNING | ERROR.

(** An interpolated value of a log record. *)
Inductive arg : Type :=
| AText (s : string)
| AValue (v : json)
| AExn (e : exn)
| AArgv (argv : list string)
| ACommand (c : command)
| AResult (r : option string).

(** What a run leaves behind, in order: the commands it issued and the
    log records it wrote (format string and interpolated values). *)
Inductive event : Type :=
| Ran (c : command)
| Logged (lv : level) (template : string) (args : list arg).

Record host : Type := {
  (** the answer to a command, given everything that happened before *)
  az : list event -> command -> completed;
  (** [time.time()] *)
  clock : list event -> Z;
  (** [os.getenv('USER', 'unknown')] *)
  env_user : string;
  (** [datetime.now().strftime("%Y%m%d-%H%M%S")] *)
  timestamp : list event -> string;
  (** [os.makedirs(logs_dir, exist_ok=True)]: the message when it raises *)
  makedirs : list event -> option string;
  (** opening and writing the log file: the message when it raises *)
  write_file : list event -> string -> option string;
  (** [str(v)] of a decoded value that is not itself a [str], [None] or a
      [bool] (number formatting and the [repr] of containers) *)
  str_compound : json -> string
}.

(** ** Computations with a trace and exceptions *)

Inductive outcome (A : Type) : Type :=
| Ok (a : A)
| Raise (e : exn).

Arguments Ok {A} a.
Arguments Raise {A} e.

Definition M (A : Type) : Type := list event -> outcome A * list event.

Definition ret {A : Type} (a : A) : M A := fun tr => (Ok a, tr).

Definition raise {A : Type} (e : exn) : M A := fun tr => (Raise e, tr).

Definition bind {A B : Type} (m : M A) (k : A -> M B) : M B :=
  fun tr =>
    match m tr with
    | (Ok a, tr') => k a tr'
    | (Raise e, tr') => (Raise e, tr')
    end.

(** [try: m  except Exception as e: handler e] *)
Definition try_except {A : Type} (m : M A) (handler : exn -> M A) : M A :=
  fun tr =>
    match m tr with
    | (Ok a, tr') => (Ok a, tr')
    | (Raise e, tr') => handler e tr'
    end.

Definition log (lv : level) (template : string) (args : list arg) : M unit :=
  fun tr => (Ok tt, tr ++ [Logged lv template args]).

Definition lift {A : Type} (r : exn + A) : M A :=
  match r with
  | inr a => ret a
  | inl e => raise e
  end.

Notation "'let*' x ':=' m 'in' k" := (bind m (fun x => k))
  (at level 10, x pattern, m at level 100, k at level 200).
Notation "m ';;' k" := (bind m (fun _ => k))
  (at level 100, k at level 200, right associativity).

(** ** Decoded values as Python sees them *)

Module Value.

(** [json.loads(text)] *)
Definition loads (text : string) : exn + json :=
  match Json.loads text with
  | Some v => inr v
  | None => inl (JSONDecodeError text)
  end.

Fixpoint chars (s : string) : list json :=
  match s with
  | String c r => JStr (String c EmptyString) :: chars r
  | EmptyString => []
  end.

(** Keys of a decoded object, each once, in order of first appearance. *)
Fixpoint keys (seen : list string) (ms : list (string * json)) : list json :=
  match ms with
  | (k, _) :: rest =>
      if bool_decide (k ∈ seen) then keys seen rest else JStr k :: keys (k :: seen) rest
  | [] => []
  end.

(** The sequence [for x in v] runs over. *)
Definition iter (v : json) : exn + list json :=
  match v with
  | JArr items => inr items
  | JObj ms => inr (keys [] ms)
  | JStr s => inr (chars s)
  | _ => inl (TypeError "object is not iterable")
  end.

(** The value bound to [key] in a decoded object: the last binding wins. *)
Fixpoint find (key : string) (ms : list (string * json)) (found : option json) : option json :=
  match ms with
  | (k, v) :: rest => find key rest (if String.eqb k key then Some v else found)
  | [] => found
  end.

(** [v[key]] for a text key. *)
Definition getitem (v : json) (key : string) : exn + json :=
  match v with
  | JObj ms =>
      match find key ms None with
      | Some x => inr x
      | None => inl (KeyError key)
      end
  | JArr _ => inl (TypeError "list indices must be integers or slices, not str")
  | JStr _ => inl (TypeError "string indices must be integers")
  | _ => inl (TypeError "object is not subscriptable")
  end.

(** [v == text] *)
Definition eq_text (v : json) (text : string) : bool :=
  match v with
  | JStr s => String.eqb s text
  | _ => false
  end.

End Value.

(** ** Reports *)

(** One item of a status list: a bare resource name, or a resource with
    the reason attached (a Python pair). *)
Inductive entry : Type :=
| Name (resource : string)
| Detail (resource : string) (reason : message).

(** A ledger entry: (account, resource group, lock name as decoded). *)
Definition lock_ref : Type := string * string * json.

(** What the entry point returns: the report dictionary with the keys
    results, log_file and total_runtime, or the dictionary with the single
    key error. *)
Inductive reply : Type :=
| Report (results : gmap string (gmap string (list entry)))
         (log_file : option string) (total_runtime : Z)
| Failure (error : message).

(** [results[account][status].append(data)], creating the account and
    the status list when absent. *)
Definition append_entry (account status : string) (data : entry)
    (results : gmap string (gmap string (list entry)))
  : gmap string (gmap string (list entry)) :=
  let inner := default ∅ (results !! account) in
  <[account := <[status := default [] (inner !! status) ++ [data]]> inner]> results.

(** The merge loop of the entry point, over [deletion_results.items()]:
    [update] on an account already present, plain assignment otherwise. *)
Definition merge_step (results : gmap string (gmap string (list entry)))
    (item : string * gmap string (list entry))
  : gmap string (gmap string (list entry)) :=
  match results !! item.1 with
  | Some old => <[item.1 := item.2 ∪ old]> results
  | None => <[item.1 := item.2]> results
  end.

Definition merge_results (pre_validation_results deletion_results
    : gmap string (gmap string (list entry)))
  : gmap string (gmap string (list entry)) :=
  foldl merge_step pre_validation_results (map_to_list deletion_results).

(** [str(v)] as it is interpolated into a command line. *)
Definition py_str (h : host) (v : json) : string :=
  match v with
  | JStr s => s
  | JNull => "None"
  | JBool true => "True"
  | JBool false => "False"
  | _ => str_compound h v
  end.

(** [get_resource_groups_from_snapshots] (the same text in all variants). *)
Definition get_resource_groups_from_snapshots (snapshot_ids : list string)
  : gset (string * string) :=
  foldl (fun resource_groups snapshot_id =>
           let parts := Py.split "/" snapshot_id in
           if bool_decide (5 ≤ length parts)
           then resource_groups ∪ {[ (nth 2 parts EmptyString, nth 4 parts EmptyString) ]}
           else resource_groups)
        ∅ snapshot_ids.

(** [parts[i]] *)
Definition item (parts : list string) (i : nat) : exn + string :=
  match parts !! i with
  | Some x => inr x
  | None => inl (IndexError "list index out of range")
  end.

(** [generate_log_file] (the same text in both variants); the lines
    written to the file are not part of the model. *)
Definition generate_log_file (h : host)
    (results : gmap string (gmap string (list entry))) (total_runtime : Z)
  : M (option string) :=
  fun tr =>
    let user_id := env_user h in
    let current_time := timestamp h tr in
    match makedirs h tr with
    | Some why => (Raise (OSError why), tr)
    | None =>
        let log_filename :=
          "logs/snapshot_deletion_log_" +:+ user_id +:+ "_" +:+ current_time +:+ ".txt" in
        match write_file h tr log_filename with
        | Some why =>
            (Ok None, tr ++ [Logged ERROR "Failed to write log file: {}" [AExn (OSError why)]])
        | None => (Ok (Some log_filename), tr)
        end
    end.

(** Account ids and display names are text in the model: an element of
    the account list whose id or name decodes to another type raises
    here, where Python would store the value as it is. *)
Definition as_text (v : json) : exn + string :=
  match v with
  | JStr s => inr s
  | _ => inl (TypeError "account id and name are text")
  end.

(** The comprehension [{sub['id']: sub['name'] for sub in subscriptions}]. *)
Fixpoint names_of (subscriptions : list json) (names : gmap string string)
  : M (gmap string string) :=
  match subscriptions with
  | [] => ret names
  | sub :: rest =>
      let* id := lift (Value.getitem sub "id") in
      let* name := lift (Value.getitem sub "name") in
      let* id := lift (as_text id) in
      let* name := lift (as_text name) in
      names_of rest (<[id := name]> names)
  end.

(** ** delete_snapshots.py *)

Module Sync.

Section WithHost.

Variable h : host.

Definition run_az_command (command : command) : M string :=
  fun tr =>
    let tr' := tr ++ [Ran command] in
    match command, az h tr command with
    | Exec argv, Exited rc out err =>
        if (rc =? 0)%Z then (Ok (Py.strip out), tr')
        else (Raise (CalledProcessError argv rc err),
              tr' ++ [Logged ERROR "Command failed: {}. Error: {}" [AArgv argv; AText err]])
    | Shell _, Exited rc out err =>
        if (rc =? 0)%Z then (Ok (Py.strip out), tr')
        else (Ok ("Error: " +:+ Py.strip err), tr')
    | _, Broken why =>
        (Ok ("Error: " +:+ why),
         tr' ++ [Logged ERROR "Error in run_az_command: {}" [AText why]])
    end.

Definition check_az_login : M bool :=
  try_except
    (let* result := run_az_command (Shell "az account show") in
     if Py.startswith "Error:" result
     then log WARNING "Not logged in to Azure." [] ;; ret false
     else ret true)
    (fun e => log ERROR "Error checking Azure login status: {}" [AExn e] ;; ret false).

Definition get_subscription_names : M (gmap string string) :=
  let* result := run_az_command (Shell "az account list --query '[].{id:id, name:name}' -o json") in
  if negb (String.eqb result EmptyString) && negb (Py.startswith "Error:" result)
  then
    let* subscriptions := lift (Value.loads result) in
    let* subscriptions := lift (Value.iter subscriptions) in
    names_of subscriptions ∅
  else ret ∅.

Definition switch_subscription (subscription : string) (current_subscription : option string)
  : M (option string) :=
  if bool_decide (Some subscription = current_subscription)
  then ret current_subscription
  else
    try_except
      (run_az_command (Exec ["az"; "account"; "set"; "--subscription"; subscription]) ;;
       log INFO "Switched to subscription: {}" [AText subscription] ;;
       ret (Some subscription))
      (fun e =>
         log ERROR "Failed to switch to subscription {}: {}" [AText subscription; AExn e] ;;
         raise e).

(** The inner loop of [check_and_remove_scope_locks]: [for lock in locks]. *)
Fixpoint remove_locks (subscription_id resource_group : string) (locks : list json)
    (removed_locks : list lock_ref) : M (list lock_ref) :=
  match locks with
  | [] => ret removed_locks
  | lock :: rest =>
      let* lv := lift (Value.getitem lock "level") in
      if Value.eq_text lv "CanNotDelete" then
        let* name := lift (Value.getitem lock "name") in
        let* result :=
          run_az_command
            (Shell ("az lock delete --name " +:+ py_str h name
                    +:+ " --resource-group " +:+ resource_group)) in
        if negb (Py.startswith "Error:" result) then
          log INFO "Removed lock '{}' from resource group '{}'"
              [AValue name; AText resource_group] ;;
          remove_locks subscription_id resource_group rest
            (removed_locks ++ [(subscription_id, resource_group, name)])
        else
          log ERROR "Failed to remove lock '{}' from resource group '{}': {}"
              [AValue name; AText resource_group; AText result] ;;
          remove_locks subscription_id resource_group rest removed_locks
      else remove_locks subscription_id resource_group rest removed_locks
  end.

(** The outer loop, over the pairs in iteration order. *)
Fixpoint remove_groups (resource_groups : list (string * string))
    (current_subscription : option string) (removed_locks : list lock_ref)
  : M (list lock_ref) :=
  match resource_groups with
  | [] => ret removed_locks
  | (subscription_id, resource_group) :: rest =>
      let* current_subscription := switch_subscription subscription_id current_subscription in
      let* listing :=
        run_az_command
          (Shell ("az lock list --resource-group " +:+ resource_group
                  +:+ " --query '[].{name:name, level:level}' -o json")) in
      let* locks := lift (Value.loads listing) in
      let* locks := lift (Value.iter locks) in
      let* removed_locks := remove_locks subscription_id resource_group locks removed_locks in
      remove_groups rest current_subscription removed_locks
  end.

(** [for subscription_id, resource_group in resource_groups]: the set is
    walked in the order of [elements], one order for each set, where the
    order of a Python set is not fixed. *)
Definition check_and_remove_scope_locks (resource_groups : gset (string * string))
  : M (list lock_ref) :=
  remove_groups (elements resource_groups) None [].

Definition check_snapshot_exists (snapshot_id : string) : M bool :=
  let* result := run_az_command (Shell ("az snapshot show --ids " +:+ snapshot_id)) in
  ret (negb (Py.startswith "Error:" result)).

Definition process_snapshot (snapshot_id : string) (subscription_names : gmap string string)
  : M (option string * string * entry) :=
  try_except
    (let parts := Py.split "/" snapshot_id in
     if bool_decide (length parts < 9) then
       log ERROR "Invalid snapshot ID format: {}" [AText snapshot_id] ;;
       ret (None, "invalid", Detail snapshot_id (Text "Invalid snapshot ID format"))
     else
       let* subscription_id := lift (item parts 2) in
       let subscription_name := default subscription_id (subscription_names !! subscription_id) in
       let snapshot_name := Py.last_part parts in
       let* found := check_snapshot_exists snapshot_id in
       if negb found
       then ret (Some subscription_name, "non-existent", Name snapshot_name)
       else ret (Some subscription_name, "valid", Name snapshot_name))
    (fun e =>
       log ERROR "Error processing snapshot {}: {}" [AText snapshot_id; AExn e] ;;
       ret (None, "error", Detail snapshot_id (StrOf e))).

Definition delete_snapshot (snapshot_id : string) : M bool :=
  let* result := run_az_command (Shell ("az snapshot delete --ids " +:+ snapshot_id)) in
  ret (negb (Py.startswith "Error:" result)).

(** [if subscription_name:] holds for a name that is neither [None] nor
    empty. *)
Definition truthy (subscription_name : option string) : option string :=
  match subscription_name with
  | Some EmptyString => None
  | other => other
  end.

Fixpoint validate_loop (snapshot_ids : list string) (subscription_names : gmap string string)
    (valid_snapshots : list string) (results : gmap string (gmap string (list entry)))
  : M (list string * gmap string (gmap string (list entry))) :=
  match snapshot_ids with
  | [] => ret (valid_snapshots, results)
  | snapshot_id :: rest =>
      let* (subscription_name, status, data) := process_snapshot snapshot_id subscription_names in
      match truthy subscription_name with
      | Some account =>
          validate_loop rest subscription_names
            (if String.eqb status "valid" then valid_snapshots ++ [snapshot_id]
             else valid_snapshots)
            (append_entry account status data results)
      | None =>
          validate_loop rest subscription_names valid_snapshots
            (append_entry "Unknown" status data results)
      end
  end.

Definition pre_validate_snapshots (snapshot_ids : list string)
    (subscription_names : gmap string string)
  : M (list string * gmap string (gmap string (list entry))) :=
  validate_loop snapshot_ids subscription_names [] ∅.

Fixpoint delete_loop (valid_snapshots : list string) (subscription_names : gmap string string)
    (results : gmap string (gmap string (list entry)))
  : M (gmap string (gmap string (list entry))) :=
  match valid_snapshots with
  | [] => ret results
  | snapshot_id :: rest =>
      let parts := Py.split "/" snapshot_id in
      let* subscription_id := lift (item parts 2) in
      let subscription_name := default subscription_id (subscription_names !! subscription_id) in
      let snapshot_name := Py.last_part parts in
      let* success := delete_snapshot snapshot_id in
      let results :=
        match results !! subscription_name with
        | Some _ => results
        | None => <[subscription_name := ∅]> results
        end in
      if success then
        log INFO "Deleted snapshot '{}' in subscription '{}'"
            [AText snapshot_name; AText subscription_name] ;;
        delete_loop rest subscription_names
          (append_entry subscription_name "deleted" (Name snapshot_name) results)
      else
        log ERROR "Failed to delete snapshot '{}' in subscription '{}'"
            [AText snapshot_name; AText subscription_name] ;;
        delete_loop rest subscription_names
          (append_entry subscription_name "failed"
             (Detail snapshot_name (Text "Deletion failed")) results)
  end.

Definition delete_valid_snapshots (valid_snapshots : list string)
    (subscription_names : gmap string string)
  : M (gmap string (gmap string (list entry))) :=
  delete_loop valid_snapshots subscription_names ∅.

Fixpoint restore_loop (removed_locks : list lock_ref) (current_subscription : option string)
    (restored_locks : list lock_ref) : M (list lock_ref) :=
  match removed_locks with
  | [] => ret restored_locks
  | (subscription_id, resource_group, lock_name) :: rest =>
      let* current_subscription := switch_subscription subscription_id current_subscription in
      let* result :=
        run_az_command
          (Shell ("az lock create --name " +:+ py_str h lock_name
                  +:+ " --resource-group " +:+ resource_group
                  +:+ " --lock-type CanNotDelete")) in
      if negb (Py.startswith "Error:" result) then
        log INFO "Restored lock '{}' to resource group '{}'"
            [AValue lock_name; AText resource_group] ;;
        restore_loop rest current_subscription
          (restored_locks ++ [(subscription_id, resource_group, lock_name)])
      else
        log ERROR "Failed to restore lock '{}' to resource group '{}': {}"
            [AValue lock_name; AText resource_group; AText result] ;;
        restore_loop rest current_subscription restored_locks
  end.

Definition restore_scope_locks (removed_locks : list lock_ref) : M (list lock_ref) :=
  restore_loop removed_locks None [].

Definition now : M Z := fun tr => (Ok (clock h tr), tr).

(** The body of [main] between [try:] and [except Exception]. *)
Definition main_body (snapshot_ids : list string) : M reply :=
  let* logged_in := check_az_login in
  if negb logged_in
  then ret (Failure (Text "Not logged in to Azure. Please run 'az login'."))
  else
    let* start_time := now in
    let* subscription_names := get_subscription_names in
    (if bool_decide (subscription_names = ∅)
     then log WARNING "Failed to fetch subscription names. Using IDs instead." []
     else ret tt) ;;
    let* (valid_snapshots, pre_validation_results) :=
      pre_validate_snapshots snapshot_ids subscription_names in
    let* results :=
      match valid_snapshots with
      | [] => ret pre_validation_results
      | _ :: _ =>
          let resource_groups := get_resource_groups_from_snapshots valid_snapshots in
          let* removed_locks := check_and_remove_scope_locks resource_groups in
          let* deletion_results := delete_valid_snapshots valid_snapshots subscription_names in
          let* restored_locks := restore_scope_locks removed_locks in
          ret (merge_results pre_validation_results deletion_results)
      end in
    let* end_time := now in
    let total_runtime := (end_time - start_time)%Z in
    let* log_filename := generate_log_file h results total_runtime in
    ret (Report results log_filename total_runtime).

Definition main (snapshot_ids : list string) : M reply :=
  try_except (main_body snapshot_ids)
    (fun e =>
       log ERROR "An unexpected error occurred: {}\n{}" [AExn e] ;;
       ret (Failure (StrOf e))).

End WithHost.

End Sync.

(** ** v2_az_getdelsnap.py: the workflow behind [delete_snapshots]

    Here [run_az_command] returns [None] on every failure. Console output
    and progress bars are not part of the model: the source also prints
    the failed command and its error output through [rich], whose markup
    parser raises on text that holds an unmatched closing tag and so ends
    the call with an exception. The model is the client call on a console
    that accepts what it is given; the properties of this variant are
    stated for runs that return, or leave room for that exception. The
    pairs of the suspend phase are walked in the order of [elements]; the
    source walks a Python set, whose order is not fixed. *)

Module V2.

Section WithHost.

Variable h : host.

Definition run_az_command (command : command) : M (option string) :=
  fun tr =>
    let tr0 := tr ++ [Logged INFO "Running Azure command: {}" [ACommand command]] in
    let tr' := tr0 ++ [Ran command] in
    match az h tr0 command with
    | Exited rc out err =>
        if (rc =? 0)%Z
        then (Ok (Some (Py.strip out)), tr' ++ [Logged INFO "Command executed successfully" []])
        else (Ok None,
              tr' ++ [Logged ERROR "Error running command: {}" [ACommand command];
                      Logged ERROR "Error message: {}" [AText (Py.strip err)]])
    | Broken why =>
        (Ok None,
         tr' ++ [Logged ERROR "An error occurred while running command: {}" [ACommand command]])
    end.

(** [if result:] holds for text that is neither [None] nor empty. *)
Definition truthy_text (result : option string) : bool :=
  match result with
  | Some (String _ _) => true
  | _ => false
  end.

(** [result is not None and not result.startswith("Error:")] *)
Definition succeeded (result : option string) : bool :=
  match result with
  | Some text => negb (Py.startswith "Error:" text)
  | None => false
  end.

(** [json.loads(x)] where [x] may be [None]. *)
Definition loads (result : option string) : exn + json :=
  match result with
  | Some text => Value.loads text
  | None => inl (TypeError "the JSON object must be str, bytes or bytearray, not NoneType")
  end.

Definition check_az_login : M bool :=
  log INFO "Checking Azure login status" [] ;;
  let* result := run_az_command (Shell "az account show") in
  if truthy_text result
  then log INFO "User is already logged in to Azure" [] ;; ret true
  else log WARNING "User is not logged in to Azure" [] ;; ret false.

Definition get_subscriptions : M (list json) :=
  log INFO "Fetching Azure subscriptions" [] ;;
  let* result := run_az_command (Shell "az account list --query '[].{name:name, id:id}' -o json") in
  if truthy_text result
  then
    let* subscriptions := lift (loads result) in
    let* items := lift (Value.iter subscriptions) in
    (* [len(subscriptions)] raises on exactly the values that cannot be
       iterated; the record holds the value whose length is logged *)
    log INFO "Found {} subscriptions" [AValue subscriptions] ;;
    ret items
  else log WARNING "No subscriptions found" [] ;; ret [].

Definition switch_subscription (subscription : string) (current_subscription : option string)
  : M (option string) :=
  if bool_decide (Some subscription = current_subscription)
  then ret current_subscription
  else
    try_except
      (run_az_command (Exec ["az"; "account"; "set"; "--subscription"; subscription]) ;;
       log INFO "Switched to subscription: {}" [AText subscription] ;;
       ret (Some subscription))
      (fun e =>
         log ERROR "Failed to switch to subscription {}: {}" [AText subscription; AExn e] ;;
         raise e).

Fixpoint remove_locks (subscription_id resource_group : string) (locks : list json)
    (removed_locks : list lock_ref) : M (list lock_ref) :=
  match locks with
  | [] => ret removed_locks
  | lock :: rest =>
      let* lv := lift (Value.getitem lock "level") in
      if Value.eq_text lv "CanNotDelete" then
        let* name := lift (Value.getitem lock "name") in
        let* result :=
          run_az_command
            (Shell ("az lock delete --name " +:+ py_str h name
                    +:+ " --resource-group " +:+ resource_group)) in
        if succeeded result then
          log INFO "Removed lock '{}' from resource group '{}'"
              [AValue name; AText resource_group] ;;
          remove_locks subscription_id resource_group rest
            (removed_locks ++ [(subscription_id, resource_group, name)])
        else
          log ERROR "Failed to remove lock '{}' from resource group '{}': {}"
              [AValue name; AText resource_group; AResult result] ;;
          remove_locks subscription_id resource_group rest removed_locks
      else remove_locks subscription_id resource_group rest removed_locks
  end.

Fixpoint remove_groups (resource_groups : list (string * string))
    (current_subscription : option string) (removed_locks : list lock_ref)
  : M (list lock_ref) :=
  match resource_groups with
  | [] => ret removed_locks
  | (subscription_id, resource_group) :: rest =>
      let* current_subscription := switch_subscription subscription_id current_subscription in
      let* listing :=
        run_az_command
          (Shell ("az lock list --resource-group " +:+ resource_group
                  +:+ " --query '[].{name:name, level:level}' -o json")) in
      let* locks := lift (loads listing) in
      let* locks := lift (Value.iter locks) in
      let* removed_locks := remove_locks subscription_id resource_group locks removed_locks in
      remove_groups rest current_subscription removed_locks
  end.

(** [for subscription_id, resource_group in resource_groups]: the set is
    walked in the order of [elements], one order for each set, where the
    order of a Python set is not fixed. *)
Definition check_and_remove_scope_locks (resource_groups : gset (string * string))
  : M (list lock_ref) :=
  remove_groups (elements resource_groups) None [].

Definition check_snapshot_exists (snapshot_id : string) : M bool :=
  let* result := run_az_command (Shell ("az snapshot show --ids " +:+ snapshot_id)) in
  ret (succeeded result).

Definition process_snapshot (snapshot_id : string) (subscription_names : gmap string string)
  : M (option string * string * entry) :=
  try_except
    (let parts := Py.split "/" snapshot_id in
     if bool_decide (length parts < 9) then
       log ERROR "Invalid snapshot ID format: {}" [AText snapshot_id] ;;
       ret (None, "invalid", Detail snapshot_id (Text "Invalid snapshot ID format"))
     else
       let* subscription_id := lift (item parts 2) in
       let subscription_name := default subscription_id (subscription_names !! subscription_id) in
       let snapshot_name := Py.last_part parts in
       let* found := check_snapshot_exists snapshot_id in
       if negb found
       then ret (Some subscription_name, "non-existent", Name snapshot_name)
       else ret (Some subscription_name, "valid", Name snapshot_name))
    (fun e =>
       log ERROR "Error processing snapshot {}: {}" [AText snapshot_id; AExn e] ;;
       ret (None, "error", Detail snapshot_id (StrOf e))).

Fixpoint validate_loop (snapshot_ids : list string) (subscription_names : gmap string string)
    (valid_snapshots : list string) (results : gmap string (gmap string (list entry)))
  : M (list string * gmap string (gmap string (list entry))) :=
  match snapshot_ids with
  | [] => ret (valid_snapshots, results)
  | snapshot_id :: rest =>
      let* (subscription_name, status, data) := process_snapshot snapshot_id subscription_names in
      match Sync.truthy subscription_name with
      | Some account =>
          validate_loop rest subscription_names
            (if String.eqb status "valid" then valid_snapshots ++ [snapshot_id]
             else valid_snapshots)
            (append_entry account status data results)
      | None =>
          validate_loop rest subscription_names valid_snapshots
            (append_entry "Unknown" status data results)
      end
  end.

Definition pre_validate_snapshots (snapshot_ids : list string)
    (subscription_names : gmap string string)
  : M (list string * gmap string (gmap string (list entry))) :=
  validate_loop snapshot_ids subscription_names [] ∅.

Definition delete_snapshot (snapshot_id : string) : M bool :=
  let* result := run_az_command (Shell ("az snapshot delete --ids " +:+ snapshot_id)) in
  ret (succeeded result).

Fixpoint delete_loop (valid_snapshots : list string) (subscription_names : gmap string string)
    (results : gmap string (gmap string (list entry)))
  : M (gmap string (gmap string (list entry))) :=
  match valid_snapshots with
  | [] => ret results
  | snapshot_id :: rest =>
      let parts := Py.split "/" snapshot_id in
      let* subscription_id := lift (item parts 2) in
      let subscription_name := default subscription_id (subscription_names !! subscription_id) in
      let snapshot_name := Py.last_part parts in
      let* success := delete_snapshot snapshot_id in
      let results :=
        match results !! subscription_name with
        | Some _ => results
        | None => <[subscription_name := ∅]> results
        end in
      if success then
        log INFO "Deleted snapshot '{}' in subscription '{}'"
            [AText snapshot_name; AText subscription_name] ;;
        delete_loop rest subscription_names
          (append_entry subscription_name "deleted" (Name snapshot_name) results)
      else
        log ERROR "Failed to delete snapshot '{}' in subscription '{}'"
            [AText snapshot_name; AText subscription_name] ;;
        delete_loop rest subscription_names
          (append_entry subscription_name "failed"
             (Detail snapshot_name (Text "Deletion failed")) results)
  end.

Definition delete_valid_snapshots (valid_snapshots : list string)
    (subscription_names : gmap string string)
  : M (gmap string (gmap string (list entry))) :=
  delete_loop valid_snapshots subscription_names ∅.

Fixpoint restore_loop (removed_locks : list lock_ref) (current_subscription : option string)
    (restored_locks : list lock_ref) : M (list lock_ref) :=
  match removed_locks with
  | [] => ret restored_locks
  | (subscription_id, resource_group, lock_name) :: rest =>
      let* current_subscription := switch_subscription subscription_id current_subscription in
      let* result :=
        run_az_command
          (Shell ("az lock create --name " +:+ py_str h lock_name
                  +:+ " --resource-group " +:+ resource_group
                  +:+ " --lock-type CanNotDelete")) in
      if succeeded result then
        log INFO "Restored lock '{}' to resource group '{}'"
            [AValue lock_name; AText resource_group] ;;
        restore_loop rest current_subscription
          (restored_locks ++ [(subscription_id, resource_group, lock_name)])
      else
        log ERROR "Failed to restore lock '{}' to resource group '{}': {}"
            [AValue lock_name; AText resource_group; AResult result] ;;
        restore_loop rest current_subscription restored_locks
  end.

Definition restore_scope_locks (removed_locks : list lock_ref) : M (list lock_ref) :=
  restore_loop removed_locks None [].

Definition now : M Z := fun tr => (Ok (clock h tr), tr).

(** The body of [delete_snapshots] between [try:] and [except Exception]. *)
Definition delete_snapshots_body (snapshot_ids : list string) : M reply :=
  let* logged_in := check_az_login in
  if negb logged_in
  then ret (Failure (Text "Not logged in to Azure. Please run 'az login'."))
  else
    let* start_time := now in
    let* subscriptions := get_subscriptions in
    let* subscription_names := names_of subscriptions ∅ in
    (if bool_decide (subscription_names = ∅)
     then log WARNING "Failed to fetch subscription names. Using IDs instead." []
     else ret tt) ;;
    let* (valid_snapshots, pre_validation_results) :=
      pre_validate_snapshots snapshot_ids subscription_names in
    let* results :=
      match valid_snapshots with
      | [] => ret pre_validation_results
      | _ :: _ =>
          let resource_groups := get_resource_groups_from_snapshots valid_snapshots in
          let* removed_locks := check_and_remove_scope_locks resource_groups in
          let* deletion_results := delete_valid_snapshots valid_snapshots subscription_names in
          let* restored_locks := restore_scope_locks removed_locks in
          ret (merge_results pre_validation_results deletion_results)
      end in
    let* end_time := now in
    let total_runtime := (end_time - start_time)%Z in
    let* log_filename := generate_log_file h results total_runtime in
    ret (Report results log_filename total_runtime).

Definition delete_snapshots (snapshot_ids : list string) : M reply :=
  try_except (delete_snapshots_body snapshot_ids)
    (fun e =>
       log ERROR "An unexpected error occurred: {}" [AExn e] ;;
       ret (Failure (StrOf e))).

End WithHost.

End V2.

(** ** create_snapshot2.py: the client call with retries, and the
    grouping of the virtual machines by account

    The script keeps its own log file, written by [write_log], and sleeps
    between attempts; its history is a list of [effect]s. Output is held
    as text, as in the other variants. [write_log] also prints its message
    through [rich]; what reaches the console is not recorded, that the
    printing can raise is. *)

Module Create.

(** The exceptions of the script, by their message: [LogFault] is what
    [write_log] ends with when it raises, the console's [MarkupError] or
    the [OSError] of the log file. *)
Inductive fault : Type :=
| UnboundLocalError (name : string)
| OSFault (message : string)
| LogFault (message : string).

Inductive value : Type :=
| VText (s : string)
| VInt (n : Z)
| VFault (e : fault).

(** What a run leaves behind, in order: the shell lines it spawned, the
    lines it wrote to its log (format string and interpolated values),
    the lines [write_log] raised on, and the pauses it took. *)
Inductive effect : Type :=
| Spawned (line : string)
| Wrote (template : string) (args : list value)
| Refused (template : string) (args : list value)
| Slept (seconds : Z).

Inductive result (A : Type) : Type :=
| Done (a : A)
| Fault (e : fault).

Arguments Done {A} a.
Arguments Fault {A} e.

Definition T (A : Type) : Type := list effect -> result A * list effect.

Definition unit_ {A : Type} (a : A) : T A := fun tr => (Done a, tr).

Definition fail {A : Type} (e : fault) : T A := fun tr => (Fault e, tr).

Definition then_ {A B : Type} (m : T A) (k : A -> T B) : T B :=
  fun tr =>
    match m tr with
    | (Done a, tr') => k a tr'
    | (Fault e, tr') => (Fault e, tr')
    end.

(** [try: m  except Exception as e: handler e] *)
Definition catch {A : Type} (m : T A) (handler : fault -> T A) : T A :=
  fun tr =>
    match m tr with
    | (Done a, tr') => (Done a, tr')
    | (Fault e, tr') => handler e tr'
    end.

(** [s.split()]: the maximal runs of characters that are not white
    space, with fuel bounded by the length of the text. *)
Definition flush (word : string) : list string :=
  match word with
  | EmptyString => []
  | _ => [word]
  end.

Fixpoint words_go (fuel : nat) (s : string) (word : string) : list string :=
  match fuel with
  | O => flush word
  | S fuel' =>
      match Py.drop_space s with
      | Some rest => flush word ++ words_go fuel' rest EmptyString
      | None =>
          match s with
          | String c rest => words_go fuel' rest (word +:+ String c EmptyString)
          | EmptyString => flush word
          end
      end
  end.

Definition words (s : string) : list string := words_go (S (String.length s)) s EmptyString.

(** What opening and reading the input file comes to: the file is not
    there, or it yields [lines] and then ends or raises. *)
Inductive input_file : Type :=
| Missing
| Opened (lines : list string) (failure : option string).

Section WithWorld.

(** The answer to a shell line, given everything that happened before. *)
Variable shell : list effect -> string -> completed.

(** Printing a message on the console and appending it to the log file,
    given everything that happened before: the message of the exception
    when either step raises. The console raises on markup it cannot
    parse, such as text that holds a closing tag with nothing to close;
    opening the log file raises when it cannot be written. *)
Variable log_raises : list effect -> option string.

(** [console.print(message)], then the line appended to the log file; the
    line is recorded as written when both went through. *)
Definition write_log (template : string) (args : list value) : T unit :=
  fun tr =>
    match log_raises tr with
    | Some why => (Fault (LogFault why), tr ++ [Refused template args])
    | None => (Done tt, tr ++ [Wrote template args])
    end.

(** [create_subprocess_shell] and [communicate]: exit status, output and
    error output. *)
Definition communicate (command : string) : T (Z * string * string) :=
  fun tr =>
    match shell tr command with
    | Exited rc out err => (Done (rc, out, err), tr ++ [Spawned command])
    | Broken why => (Fault (OSFault why), tr ++ [Spawned command])
    end.

(** The input file, given everything that happened before. *)
Variable read_input : list effect -> string -> input_file.

(** The loop [for line in f] of [extract_vm_info]. *)
Fixpoint scan_lines (lines : list string) (vm_list : list (string * string))
  : T (list (string * string)) :=
  match lines with
  | [] => unit_ vm_list
  | line :: rest =>
      match words (Py.strip line) with
      | resource_id :: vm_name :: _ => scan_lines rest (vm_list ++ [(resource_id, vm_name)])
      | _ =>
          then_ (write_log
                   "[bold yellow]Warning: Invalid line in input file: {}[/bold yellow]"
                   [VText (Py.strip line)])
            (fun _ => scan_lines rest vm_list)
      end
  end.

Definition extract_vm_info (file_path : string) : T (option (list (string * string))) :=
  fun tr =>
    match read_input tr file_path with
    | Missing =>
        then_ (write_log "[bold red]Error: Input file '{}' not found.[/bold red]"
                 [VText file_path])
          (fun _ => unit_ None) tr
    | Opened lines failure =>
        then_
          (catch
             (then_ (scan_lines lines []) (fun vm_list =>
              match failure with
              | Some why => fail (OSFault why)
              | None => unit_ (Some vm_list)
              end))
             (fun e =>
                then_ (write_log "[bold red]Error reading input file: {}[/bold red]" [VFault e])
                  (fun _ => unit_ None)))
          (fun read =>
             match read with
             | None => unit_ None
             | Some [] =>
                 then_ (write_log
                          "[bold red]Error: No valid VM information found in the input file.[/bold red]"
                          [])
                   (fun _ => unit_ None)
             | Some vm_list => unit_ (Some vm_list)
             end) tr
    end.

Definition sleep (delay : Z) : T unit := fun tr => (Done tt, tr ++ [Slept delay]).

(** The loop [for attempt in range(max_retries)] with [remaining]
    attempts to go, and the statement after it; [last] holds the error
    output and exit status of the attempt before, if there was one. *)
Fixpoint retry_loop (command : string) (max_retries delay : Z)
    (remaining : nat) (attempt : Z) (last : option (string * Z))
  : T (string * string * Z) :=
  match remaining with
  | O =>
      match last with
      | Some (stderr, returncode) => unit_ (EmptyString, Py.strip stderr, returncode)
      | None => fail (UnboundLocalError "stderr")
      end
  | S remaining' =>
      then_ (communicate command) (fun '(returncode, stdout, stderr) =>
      if (returncode =? 0)%Z
      then unit_ (Py.strip stdout, Py.strip stderr, returncode)
      else
        then_ (write_log "Command failed (attempt {}): {}" [VInt (attempt + 1); VText command])
          (fun _ =>
        then_ (write_log "Error: {}" [VText (Py.strip stderr)]) (fun _ =>
        then_ (if (attempt <? max_retries - 1)%Z
               then then_ (write_log "Retrying in {} seconds..." [VInt delay])
                      (fun _ => sleep delay)
               else unit_ tt) (fun _ =>
        retry_loop command max_retries delay remaining' (attempt + 1)
          (Some (stderr, returncode))))))
  end.

Definition run_az_command (command : string) (max_retries delay : Z)
  : T (string * string * Z) :=
  retry_loop command max_retries delay (Z.to_nat max_retries) 0 None.

End WithWorld.

(** [grouped_vms[subscription_id].append((resource_id, vm_name))] on a
    [defaultdict(list)]. *)
Definition add_vm (subscription_id : string) (vm : string * string)
    (grouped_vms : gmap string (list (string * string)))
  : gmap string (list (string * string)) :=
  <[subscription_id := default [] (grouped_vms !! subscription_id) ++ [vm]]> grouped_vms.

Fixpoint group_loop (vm_list : list (string * string))
    (grouped_vms : gmap string (list (string * string)))
  : exn + gmap string (list (string * string)) :=
  match vm_list with
  | [] => inr grouped_vms
  | (resource_id, vm_name) :: rest =>
      match item (Py.split "/" resource_id) 2 with
      | inl e => inl e
      | inr subscription_id =>
          group_loop rest (add_vm subscription_id (resource_id, vm_name) grouped_vms)
      end
  end.

Definition group_vms_by_subscription (vm_list : list (string * string))
  : exn + gmap string (list (string * string)) :=
  group_loop vm_list ∅.

End Create.

(** ** Reading a trace *)

(** The commands of a trace, in order. *)
Fixpoint commands (events : list event) : list command :=
  match events with
  | Ran c :: rest => c :: commands rest
  | Logged _ _ _ :: rest => commands rest
  | [] => []
  end.

(** A shell line that begins with the given words. *)
Definition shell_prefix (words : string) (c : command) : bool :=
  match c with
  | Shell line => Py.startswith words line
  | Exec _ => false
  end.

Definition is_account_show : command -> bool := shell_prefix "az account show".
Definition is_account_list : command -> bool := shell_prefix "az account list ".
Definition is_snapshot_show : command -> bool := shell_prefix "az snapshot show ".
Definition is_snapshot_delete : command -> bool := shell_prefix "az snapshot delete ".
Definition is_lock_list : command -> bool := shell_prefix "az lock list ".
Definition is_lock_delete : command -> bool := shell_prefix "az lock delete ".
Definition is_lock_create : command -> bool := shell_prefix "az lock create ".

Definition is_account_set (c : command) : bool :=
  match c with
  | Exec ("az" :: "account" :: "set" :: _) => true
  | _ => false
  end.

(** The calls that change provider-side state: lock delete, lock create,
    resource delete. *)
Definition mutating (c : command) : bool :=
  is_lock_delete c || is_lock_create c || is_snapshot_delete c.

(** The calls of the lock coordinator and of the executor. *)
Definition lock_or_delete (c : command) : bool :=
  is_lock_list c || mutating c.

(** A response that is not a success: a non-zero exit status, or an
    invocation that raised. *)
Definition failed (r : completed) : bool :=
  match r with
  | Exited rc _ _ => negb (rc =? 0)%Z
  | Broken _ => true
  end.

Definition lock_list_command (resource_group : string) : command :=
  Shell ("az lock list --resource-group " +:+ resource_group
         +:+ " --query '[].{name:name, level:level}' -o json").

Definition lock_create_command (h : host) (ref : lock_ref) : command :=
  Shell ("az lock create --name " +:+ py_str h ref.2
         +:+ " --resource-group " +:+ ref.1.2 +:+ " --lock-type CanNotDelete").

(** The format of the failure record of the restore loop. *)
Definition restore_failure : string :=
  "Failed to restore lock '{}' to resource group '{}': {}".

(** The lock a failure record of the restore loop speaks of, as
    (resource group, name). *)
Definition orphan_of (e : event) : option (string * json) :=
  match e with
  | Logged ERROR template [AValue name; AText resource_group; _] =>
      if String.eqb template restore_failure then Some (resource_group, name) else None
  | _ => None
  end.

(** The locks a trace reports as not restored. *)
Definition reported_orphans (events : list event) : list (string * json) :=
  omap orphan_of events.

(** The status list of an account in a report; absent reads as [None]. *)
Definition status_list (results : gmap string (gmap string (list entry)))
    (account status : string) : option (list entry) :=
  results !! account ≫= (fun by_status => by_status !! status).

(** * Vocabulary of the properties *)

(** An event is allowed when it is a log record or a command in [C]. *)
Definition only (C : command -> Prop) (e : event) : Prop :=
  match e with
  | Ran c => C c
  | Logged _ _ _ => True
  end.

(** [m] extends the trace, by allowed events only, whatever it returns. *)
Definition emits {A : Type} (C : command -> Prop) (m : M A) : Prop :=
  forall tr, exists ev, (m tr).2 = tr ++ ev /\ Forall (only C) ev.

(** [m] moreover returns normally, with a result in [Q]. *)
Definition returns {A : Type} (C : command -> Prop) (Q : A -> Prop) (m : M A) : Prop :=
  forall tr, exists a ev, m tr = (Ok a, tr ++ ev) /\ Forall (only C) ev /\ Q a.

(** The existence check of an identifier. *)
Definition show_command (id : string) : command := Shell ("az snapshot show --ids " +:+ id).

(** The key of an identifier in the report: the display name of its
    account, or the raw account id when the name table has none. *)
Definition account_of (names : gmap string string) (id : string) : string :=
  let sub := nth 2 (Py.split "/" id) EmptyString in default sub (names !! sub).

(** What [process_snapshot] returns for a malformed identifier. *)
Definition malformed_verdict (id : string) : option string * string * entry :=
  (None, "invalid", Detail id (Text "Invalid snapshot ID format")).

(** What the sequential client call hands back for a shell line. *)
Definition sync_reading (r : completed) : string :=
  match r with
  | Exited rc out err => if (rc =? 0)%Z then Py.strip out else "Error: " +:+ Py.strip err
  | Broken why => "Error: " +:+ why
  end.

(** What the event-loop client call hands back. *)
Definition v2_reading (r : completed) : option string :=
  match r with
  | Exited rc out err => if (rc =? 0)%Z then Some (Py.strip out) else None
  | Broken why => None
  end.

(** The history the event-loop client sees when it is asked [c]. *)
Definition v2_asked (tr : list event) (c : command) : list event :=
  tr ++ [Logged INFO "Running Azure command: {}" [ACommand c]].

(** Every verdict of the validator, in either variant: the status is
    invalid, non-existent or valid; a valid identifier has nine segments or
    more; an identifier of fewer segments gets the malformed verdict. *)
Definition verdict_ok (id : string) (v : option string * string * entry) : Prop :=
  (v.1.2 = "invalid" \/ v.1.2 = "non-existent" \/ v.1.2 = "valid")
  /\ (v.1.2 = "valid" -> 9 <= length (Py.split "/" id))
  /\ (length (Py.split "/" id) < 9 -> v = malformed_verdict id).

(** [data] is in the status list of [account]. *)
Definition recorded (account status : string) (data : entry)
    (results : gmap string (gmap string (list entry))) : Prop :=
  exists l, status_list results account status = Some l /\ data ∈ l.

(** Every status key of the report is one of [allowed]. *)
Definition statuses_within (allowed : list string)
    (results : gmap string (gmap string (list entry))) : Prop :=
  forall account status l, status_list results account status = Some l -> status ∈ allowed.

(** The status keys the validation phase writes, and those the deletion
    phase writes. *)
Definition validation_statuses : list string := ["invalid"; "non-existent"; "valid"; "error"].

Definition deletion_statuses : list string := ["deleted"; "failed"].

(** What the validation loop keeps true of its two accumulators. *)
Definition validated (ids : list string) (v0 : list string)
    (r0 : gmap string (gmap string (list entry)))
    (out : list string * gmap string (gmap string (list entry))) : Prop :=
  (exists v1, out.1 = v0 ++ v1
              /\ Forall (fun id => id ∈ ids /\ 9 <= length (Py.split "/" id)) v1)
  /\ (statuses_within validation_statuses r0 -> statuses_within validation_statuses out.2)
  /\ (forall a s d, recorded a s d r0 -> recorded a s d out.2)
  /\ (forall id, id ∈ ids -> length (Py.split "/" id) < 9 ->
        recorded "Unknown" "invalid" (Detail id (Text "Invalid snapshot ID format")) out.2).

(** The existence check of one of [ids]. *)
Definition shows (ids : list string) (c : command) : Prop :=
  exists id, id ∈ ids /\ c = show_command id.

(** The command lines of the workflow. *)
Definition account_show_command : command := Shell "az account show".

Definition account_list_command : command :=
  Shell "az account list --query '[].{id:id, name:name}' -o json".

Definition v2_account_list_command : command :=
  Shell "az account list --query '[].{name:name, id:id}' -o json".

Definition lock_delete_command (name resource_group : string) : command :=
  Shell ("az lock delete --name " +:+ name +:+ " --resource-group " +:+ resource_group).

Definition snapshot_delete_command (id : string) : command :=
  Shell ("az snapshot delete --ids " +:+ id).

(** The calls of the suspend phase, of the deletion phase and of the
    restore phase. *)
Definition suspend_shape (c : command) : Prop :=
  is_account_set c = true
  \/ (exists g, c = lock_list_command g)
  \/ (exists n g, c = lock_delete_command n g).

Definition delete_shape (c : command) : Prop :=
  exists id, c = snapshot_delete_command id.

Definition restore_shape (c : command) : Prop :=
  is_account_set c = true
  \/ (exists n g, c = Shell ("az lock create --name " +:+ n +:+ " --resource-group " +:+ g
                            +:+ " --lock-type CanNotDelete")).

(** What the deletion loop keeps true of its report. *)
Definition deleted_ok (r0 out : gmap string (gmap string (list entry))) : Prop :=
  statuses_within deletion_statuses r0 -> statuses_within deletion_statuses out.

(** The place of a mutating call in the workflow: lock removal (1),
    resource deletion (2), lock re-creation (3). *)
Definition stage (c : command) : option nat :=
  if is_lock_delete c then Some 1
  else if is_snapshot_delete c then Some 2
  else if is_lock_create c then Some 3
  else None.

(** The stages of the mutating calls of a trace, in order. *)
Definition stages (events : list event) : list nat := omap stage (commands events).

(** No element is followed by a smaller one. *)
Fixpoint nondecreasing (l : list nat) : Prop :=
  match l with
  | [] => True
  | x :: rest => Forall (fun y => x <= y) rest /\ nondecreasing rest
  end.

(** [m] extends the trace by events whose mutating calls are in workflow
    order and lie between the stages [lo] and [hi]. *)
Definition phased {A : Type} (lo hi : nat) (m : M A) : Prop :=
  forall tr, exists ev,
    (m tr).2 = tr ++ ev /\ nondecreasing (stages ev)
    /\ Forall (fun n => lo <= n <= hi) (stages ev).

(** A call that is no mutating call. *)
Definition quiet (c : command) : Prop := stage c = None.


(** The warning [main] logs when no account name is known. *)
Definition names_warning (names : gmap string string) : list event :=
  if bool_decide (names = ∅)
  then [Logged WARNING "Failed to fetch subscription names. Using IDs instead." []]
  else [].

(** The reply after a run whose results are [results]: the report, or the
    error dictionary when the log directory cannot be created. *)
Definition reports (results : gmap string (gmap string (list entry)))
    (r : outcome reply) : Prop :=
  (exists log_file total_runtime, r = Ok (Report results log_file total_runtime))
  \/ (exists why, r = Ok (Failure (StrOf (OSError why)))).

(** The calls of login, account listing and validation. *)
Definition read_only (c : command) : Prop :=
  c = account_show_command \/ c = account_list_command \/ c = v2_account_list_command
  \/ exists id, c = show_command id.

(** The reply of the entry point when the login check fails. *)
Definition not_logged_in : reply :=
  Failure (Text "Not logged in to Azure. Please run 'az login'.").

(** The lock re-creations of a trace, in order. *)
Definition creates (events : list event) : list command :=
  filter (fun c => is_lock_create c = true) (commands events).

(** How a ledger entry shows in a failure record. *)
Definition orphan_key (ref : lock_ref) : string * json := (ref.1.2, ref.2).

(** The log records the sequential client call adds after the command. *)
Definition sync_run_logs (r : completed) : list event :=
  match r with
  | Broken why => [Logged ERROR "Error in run_az_command: {}" [AText why]]
  | Exited _ _ _ => []
  end.

(** The log records the event-loop client call adds after the command. *)
Definition v2_run_logs (c : command) (r : completed) : list event :=
  match r with
  | Exited rc out err =>
      if (rc =? 0)%Z then [Logged INFO "Command executed successfully" []]
      else [Logged ERROR "Error running command: {}" [ACommand c];
            Logged ERROR "Error message: {}" [AText (Py.strip err)]]
  | Broken why => [Logged ERROR "An error occurred while running command: {}" [ACommand c]]
  end.

(** What a run of the restore loop that returns has done. *)
Definition restored_all (h : host) (ledger restored_before restored : list lock_ref)
    (ev : list event) : Prop :=
  exists restored_now orphaned,
    restored = restored_before ++ restored_now
    /\ creates ev = map (lock_create_command h) ledger
    /\ reported_orphans ev = map orphan_key orphaned
    /\ restored_now ++ orphaned ≡ₚ ledger.

(** The lock removals and the snapshot deletions of a trace, in order. *)
Definition lock_deletes (events : list event) : list command :=
  filter (fun c => is_lock_delete c = true) (commands events).

Definition snapshot_deletes (events : list event) : list command :=
  filter (fun c => is_snapshot_delete c = true) (commands events).

(** The pair an identifier contributes to lock discovery. *)
Definition pair_of (id : string) : string * string :=
  (nth 2 (Py.split "/" id) EmptyString, nth 4 (Py.split "/" id) EmptyString).

(** The lock listings of a trace, in order. *)
Definition listings (events : list event) : list command :=
  filter (fun c => is_lock_list c = true) (commands events).

(** [m] issues a prefix of the lock listings [l], and all of them when it
    returns. *)
Definition lists {A : Type} (l : list command) (m : M A) : Prop :=
  forall tr, exists ev,
    (m tr).2 = tr ++ ev /\ listings ev `prefix_of` l
    /\ (forall a, (m tr).1 = Ok a -> listings ev = l).


(** * Hosts and inputs of the worked runs *)

(** A host whose clock counts events and whose file system never fails. *)
Definition host_of (answer : list event -> command -> completed) : host :=
  {| az := answer;
     clock := fun tr => Z.of_nat (length tr);
     env_user := "ops";
     timestamp := fun _ => "20240101-000000";
     makedirs := fun _ => None;
     write_file := fun _ _ => None;
     str_compound := fun _ => EmptyString |}.

(** Two snapshots of the resource group rg1 of account 111. *)
Definition snap_a : string :=
  "/subscriptions/111/resourceGroups/rg1/providers/Microsoft.Compute/snapshots/snap-a".

Definition snap_b : string :=
  "/subscriptions/111/resourceGroups/rg1/providers/Microsoft.Compute/snapshots/snap-b".

(** The existence check is refused for lack of permission. *)
Definition az_denied (tr : list event) (c : command) : completed :=
  if is_snapshot_show c
  then Exited 1 "" "ERROR: (AuthorizationFailed) The client does not have authorization to perform action 'Microsoft.Compute/snapshots/read'."
  else Exited 0 "{}" "".

(** The existence check reports that the snapshot is absent. *)
Definition az_missing (tr : list event) (c : command) : completed :=
  if is_snapshot_show c
  then Exited 3 "" "ERROR: (ResourceNotFound) The Resource 'Microsoft.Compute/snapshots/snap-a' under resource group 'rg1' was not found."
  else Exited 0 "{}" "".



(** A ledger of two locks in two accounts. *)
Definition ledger_two : list lock_ref :=
  [("111", "rg1", JStr "keep"); ("222", "rg2", JStr "hold")].

(** Re-creating the lock hold fails; every other call succeeds. *)
Definition az_create_fails (tr : list event) (c : command) : completed :=
  if Py.startswith "az lock create --name hold"
       (match c with Shell line => line | Exec _ => EmptyString end)
  then Exited 1 "" "ERROR: (ScopeLocked) The scope is locked."
  else Exited 0 "{}" "".

(** The switch to account 222 fails; every other call succeeds. *)
Definition az_switch_fails (tr : list event) (c : command) : completed :=
  match c with
  | Exec ["az"; "account"; "set"; "--subscription"; "222"] =>
      Exited 1 "" "ERROR: The subscription of '222' doesn't exist in cloud 'AzureCloud'."
  | _ => Exited 0 "{}" ""
  end.

(** A snapshot of another account and resource group. *)
Definition snap_c : string :=
  "/subscriptions/222/resourceGroups/rg2/providers/Microsoft.Compute/snapshots/snap-c".

(** The output of a successful account listing, and of a lock listing. *)
Definition accounts_text : string :=
  Json.text "[{'id': '111', 'name': 'Prod'}, {'id': '222', 'name': 'Test'}]".

Definition locks_text : string :=
  Json.text "[{'name': 'keep', 'level': 'CanNotDelete'}, {'name': 'ro', 'level': 'ReadOnly'}]".

(** Every call succeeds; each resource group carries the cannot-delete
    lock keep and a read-only lock. *)
Definition az_locked (tr : list event) (c : command) : completed :=
  if is_account_list c then Exited 0 accounts_text ""
  else if is_lock_list c then Exited 0 locks_text ""
  else Exited 0 "{}" "".

(** As [az_locked], but only the first lock listing of a run succeeds. *)
Definition az_second_listing_fails (tr : list event) (c : command) : completed :=
  if is_lock_list c && existsb is_lock_list (commands tr)
  then Exited 1 "" "ERROR: (AuthorizationFailed) The client does not have authorization to perform action 'Microsoft.Authorization/locks/read'."
  else az_locked tr c.

(** As [az_locked], but once a snapshot has been deleted the switch to
    account 222 fails. *)
Definition az_late_switch_fails (tr : list event) (c : command) : completed :=
  match c with
  | Exec ["az"; "account"; "set"; "--subscription"; "222"] =>
      if existsb is_snapshot_delete (commands tr)
      then Exited 1 "" "ERROR: The subscription of '222' doesn't exist in cloud 'AzureCloud'."
      else Exited 0 "" ""
  | _ => az_locked tr c
  end.

(** * Vocabulary of the further properties *)

(** The number of entries of one account, over all its status lists. *)
Definition status_count (by_status : gmap string (list entry)) : nat :=
  sum_list (map (fun kv => length kv.2) (map_to_list by_status)).

(** The number of entries of a report, over all accounts and statuses. *)
Definition entry_count (results : gmap string (gmap string (list entry))) : nat :=
  sum_list (map (fun kv => status_count kv.2) (map_to_list results)).

(** An identifier the validator sends to the existence check. *)
Definition wellformed (id : string) : Prop := 9 <= length (Py.split "/" id).

(** [if subscription_name not in results: results[subscription_name] = {}] *)
Definition ensure_account (account : string)
    (results : gmap string (gmap string (list entry)))
  : gmap string (gmap string (list entry)) :=
  match results !! account with
  | Some _ => results
  | None => <[account := ∅]> results
  end.

(** The snapshot name of an identifier: its last segment. *)
Definition name_of (id : string) : string := Py.last_part (Py.split "/" id).

(** Whether the deletion of [id], asked after [tr], counts as a success:
    in the sequential variant, in the event-loop variant. *)
Definition sync_delete_ok (h : host) (tr : list event) (id : string) : bool :=
  negb (Py.startswith "Error:" (sync_reading (az h tr (snapshot_delete_command id)))).

Definition v2_delete_ok (h : host) (tr : list event) (id : string) : bool :=
  V2.succeeded (v2_reading (az h tr (snapshot_delete_command id))).

(** What the deletion loop appends for one identifier, and what it logs. *)
Definition deletion_status (ok : bool) : string := if ok then "deleted" else "failed".

Definition deletion_entry (ok : bool) (name : string) : entry :=
  if ok then Name name else Detail name (Text "Deletion failed").

Definition deletion_record (ok : bool) (name account : string) : event :=
  if ok
  then Logged INFO "Deleted snapshot '{}' in subscription '{}'" [AText name; AText account]
  else Logged ERROR "Failed to delete snapshot '{}' in subscription '{}'"
         [AText name; AText account].

(** An identifier whose account segment can be read. *)
Definition has_account (id : string) : Prop := 3 <= length (Py.split "/" id).

(** The deletion report of one account under a client that answers
    [ok]: the names deleted, and the names that failed. *)
Definition deleted_of (ok : string -> bool) (names : gmap string string)
    (account : string) (valid : list string) : list entry :=
  map (fun id => Name (name_of id))
      (filter (fun id => account_of names id = account /\ ok id = true) valid).

Definition failed_of (ok : string -> bool) (names : gmap string string)
    (account : string) (valid : list string) : list entry :=
  map (fun id => Detail (name_of id) (Text "Deletion failed"))
      (filter (fun id => account_of names id = account /\ ok id = false) valid).

(** Every deletion fails. *)
Definition az_delete_fails (tr : list event) (c : command) : completed :=
  if is_snapshot_delete c
  then Exited 1 "" "ERROR: (ScopeLocked) The scope is locked."
  else Exited 0 "{}" "".

(** The deletion of snap-b fails; every other call succeeds. *)
Definition az_b_locked (tr : list event) (c : command) : completed :=
  if is_snapshot_delete c
     && String.eqb (match c with Shell line => line | Exec _ => EmptyString end)
          ("az snapshot delete --ids " +:+ snap_b)
  then Exited 1 "" "ERROR: (ScopeLocked) The scope is locked."
  else Exited 0 "{}" "".

(** [lock[key]] of a listed lock, read as [None] where the lookup raises. *)
Definition field (key : string) (lock : json) : json :=
  match Value.getitem lock key with
  | inr v => v
  | inl _ => JNull
  end.

(** [lock['level'] == 'CanNotDelete'] *)
Definition cannot_delete (lock : json) : bool :=
  Value.eq_text (field "level" lock) "CanNotDelete".

(** A lock the suspend loop can read: it has a level, and a name when the
    level is cannot-delete. *)
Definition listed_lock (lock : json) : Prop :=
  exists lv, Value.getitem lock "level" = inr lv
             /\ (Value.eq_text lv "CanNotDelete" = true ->
                 exists n, Value.getitem lock "name" = inr n).

(** The removal of a listed lock of a resource group, and the removal a
    ledger entry stands for. *)
Definition removal_of (h : host) (resource_group : string) (lock : json) : command :=
  lock_delete_command (py_str h (field "name" lock)) resource_group.

Definition ledger_removal (h : host) (ref : lock_ref) : command :=
  lock_delete_command (py_str h ref.2) ref.1.2.

(** The locks of the listing [locks_text], decoded. *)
Definition locks_listed : list json :=
  [JObj [("name", JStr "keep"); ("level", JStr "CanNotDelete")];
   JObj [("name", JStr "ro"); ("level", JStr "ReadOnly")]].

(** The account switch. *)
Definition account_set_command (subscription : string) : command :=
  Exec ["az"; "account"; "set"; "--subscription"; subscription].

(** The account switches of a trace, in order. *)
Definition account_sets (events : list event) : list command :=
  filter (fun c => is_account_set c = true) (commands events).

(** The accounts a loop switches to when it walks [accounts] with
    [current] selected: an account equal to the one selected is passed
    over. *)
Fixpoint switches (current : option string) (accounts : list string) : list string :=
  match accounts with
  | [] => []
  | account :: rest =>
      if bool_decide (Some account = current) then switches current rest
      else account :: switches (Some account) rest
  end.

(** No account is followed by itself. *)
Fixpoint changes (accounts : list string) : bool :=
  match accounts with
  | [] => true
  | account :: rest =>
      match rest with
      | next :: _ => negb (String.eqb account next)
      | [] => true
      end && changes rest
  end.

(** A ledger of three locks, the first two in one account. *)
Definition ledger_three : list lock_ref :=
  [("111", "rg1", JStr "keep"); ("111", "rg3", JStr "guard"); ("222", "rg2", JStr "hold")].

(** Three resource groups in two accounts. *)
Definition pairs_three : gset (string * string) :=
  {[ ("111", "rg1"); ("222", "rg2"); ("111", "rg3") ]}.

Definition host_without_logs_dir (answer : list event -> command -> completed) : host :=
  {| az := answer;
     clock := fun tr => Z.of_nat (length tr);
     env_user := "ops";
     timestamp := fun _ => "20240101-000000";
     makedirs := fun _ => Some "[Errno 13] Permission denied: 'logs'";
     write_file := fun _ _ => None;
     str_compound := fun _ => EmptyString |}.

(** The history the event-loop variant asks the account listing at, and
    the account status at, when the step starts at [tr]. *)
Definition v2_listing_asked (tr : list event) : list event :=
  v2_asked (tr ++ [Logged INFO "Fetching Azure subscriptions" []]) v2_account_list_command.

Definition v2_login_asked (tr : list event) : list event :=
  v2_asked (tr ++ [Logged INFO "Checking Azure login status" []]) account_show_command.

(** The account listing answers with text that is no JSON document. *)
Definition az_garbled (tr : list event) (c : command) : completed :=
  if is_account_list c then Exited 0 "<html>502 Bad Gateway</html>" ""
  else Exited 0 "{}" "".

(** The account status answers with success and no output. *)
Definition az_mute (tr : list event) (c : command) : completed :=
  if is_account_show c then Exited 0 " " ""
  else Exited 0 "{}" "".

(** No account is signed in: every call fails. *)
Definition az_signed_out (tr : list event) (c : command) : completed :=
  Exited 1 "" "ERROR: Please run 'az login' to setup account.".

(** The number of occurrences of a character in a text. *)
Fixpoint occurrences (c : ascii) (s : string) : nat :=
  match s with
  | EmptyString => 0
  | String d rest => (if Ascii.eqb d c then 1 else 0) + occurrences c rest
  end.

(** An identifier of nine empty segments. *)
Definition snap_blank : string := "////////".

(** An element of the account listing: an object with the members id and
    name, both text. *)
Definition account_object (account : string * string) : json :=
  JObj [("id", JStr account.1); ("name", JStr account.2)].

(** The shell lines a run of the snapshot creator spawned, and the pauses
    it took, in order. *)
Definition spawns (effects : list Create.effect) : list string :=
  omap (fun e => match e with Create.Spawned line => Some line | _ => None end) effects.

Definition sleeps (effects : list Create.effect) : list Z :=
  omap (fun e => match e with Create.Slept seconds => Some seconds | _ => None end) effects.

(** A shell that refuses every command with exit status 1. *)
Definition shell_refuses (tr : list Create.effect) (line : string) : completed :=
  Exited 1 "" "ERROR: Please run 'az login' to setup account.".

(** A shell whose third answer is the first success. *)
Definition shell_third_time (tr : list Create.effect) (line : string) : completed :=
  if (length (spawns tr) <? 2)%nat
  then Exited 1 "" "ERROR: (TooManyRequests) The request is being throttled."
  else Exited 0 " {} " "".

(** A console that accepts every message, and a log file that can always
    be appended to. *)
Definition log_open (tr : list Create.effect) : option string := None.

(** The account segment of a resource id. *)
Definition account_segment (vm : string * string) : string :=
  nth 2 (Py.split "/" vm.1) EmptyString.

(** Two virtual machines of account 111 and one of account 222. *)
Definition vm_a : string * string :=
  ("/subscriptions/111/resourceGroups/rg1/providers/Microsoft.Compute/virtualMachines/vm-a",
   "vm-a").

Definition vm_b : string * string :=
  ("/subscriptions/222/resourceGroups/rg2/providers/Microsoft.Compute/virtualMachines/vm-b",
   "vm-b").

Definition vm_c : string * string :=
  ("/subscriptions/111/resourceGroups/rg3/providers/Microsoft.Compute/virtualMachines/vm-c",
   "vm-c").

(** The machine a line of the input file stands for: its first two
    fields, when it has two. *)
Definition machine_of_line (line : string) : option (string * string) :=
  match Create.words (Py.strip line) with
  | resource_id :: vm_name :: _ => Some (resource_id, vm_name)
  | _ => None
  end.

(** What the reader of the input file makes of it when nothing else goes
    wrong: the machines of the lines of a file read to its end, when
    there is one; nothing otherwise. *)
Definition machines_of (file : Create.input_file) : option (list (string * string)) :=
  match file with
  | Create.Opened lines None =>
      match omap machine_of_line lines with
      | [] => None
      | vm_list => Some vm_list
      end
  | _ => None
  end.

(** An input file of four lines, two of them without a second field. *)
Definition input_lines : list string :=
  ["/subscriptions/111/resourceGroups/rg1/providers/Microsoft.Compute/virtualMachines/vm-a   vm-a"
     +:+ String "010" EmptyString;
   String "010" EmptyString;
   "vm-without-id" +:+ String "010" EmptyString;
   String "009" "/subscriptions/222/resourceGroups/rg2/providers/Microsoft.Compute/virtualMachines/vm-b"
     +:+ String "009" "vm-b extra" +:+ String "010" EmptyString].

Definition input_ready (tr : list Create.effect) (path : string) : Create.input_file :=
  Create.Opened input_lines None.






(** * Properties *)

(** ** Text and JSON *)

Lemma loads_Error (x : string) : Json.loads ("Error: " +:+ x) = None.
Proof. reflexivity. Qed.

(** ** Traces *)

Lemma commands_app ev1 ev2 : commands (ev1 ++ ev2) = commands ev1 ++ commands ev2.
Proof.
  induction ev1 as [|[c|lv t a] ev1 IH]; simpl; [reflexivity | | assumption].
  now rewrite IH.
Qed.

Lemma only_impl (C D : command -> Prop) ev :
  (forall c, C c -> D c) -> Forall (only C) ev -> Forall (only D) ev.
Proof.
  intros HCD H. eapply Forall_impl; [exact H|]. intros [c|lv t a]; simpl; auto.
Qed.

Lemma only_commands C ev : Forall (only C) ev -> Forall C (commands ev).
Proof.
  induction 1 as [|[c|lv t a] ev H _ IH]; simpl; auto.
Qed.

Section Rules.

Context {A B : Type} (C : command -> Prop).

Lemma returns_emits (Q : A -> Prop) (m : M A) : returns C Q m -> emits C m.
Proof. intros H tr. destruct (H tr) as (a & ev & E & F & _). exists ev. now rewrite E. Qed.

Lemma returns_weaken (Q R : A -> Prop) (m : M A) :
  (forall a, Q a -> R a) -> returns C Q m -> returns C R m.
Proof. intros QR H tr. destruct (H tr) as (a & ev & E & F & q). eauto 6. Qed.

Lemma emits_ret (a : A) : emits C (ret a).
Proof. intros tr. exists []. simpl. rewrite app_nil_r. auto. Qed.

Lemma returns_ret (Q : A -> Prop) (a : A) : Q a -> returns C Q (ret a).
Proof. intros q tr. exists a, []. unfold ret. rewrite app_nil_r. auto. Qed.

Lemma emits_raise (e : exn) : emits C (raise (A:=A) e).
Proof. intros tr. exists []. simpl. rewrite app_nil_r. auto. Qed.

Lemma emits_lift (r : exn + A) : emits C (lift r).
Proof. destruct r; [apply emits_raise | apply emits_ret]. Qed.

Lemma emits_bind (m : M A) (k : A -> M B) :
  emits C m -> (forall a, emits C (k a)) -> emits C (bind m k).
Proof.
  intros Hm Hk tr. unfold bind. destruct (Hm tr) as (ev & E & F).
  destruct (m tr) as [[a|e] tr1]; simpl in E; subst tr1.
  - destruct (Hk a (tr ++ ev)) as (ev' & E' & F'). exists (ev ++ ev').
    rewrite E', app_assoc. split; [reflexivity|]. now apply Forall_app.
  - exists ev. auto.
Qed.

Lemma returns_bind (Q : A -> Prop) (R : B -> Prop) (m : M A) (k : A -> M B) :
  returns C Q m -> (forall a, Q a -> returns C R (k a)) -> returns C R (bind m k).
Proof.
  intros Hm Hk tr. unfold bind. destruct (Hm tr) as (a & ev & E & F & q). rewrite E.
  destruct (Hk a q (tr ++ ev)) as (b & ev' & E' & F' & r). exists b, (ev ++ ev').
  rewrite E', app_assoc. split; [reflexivity|]. split; [now apply Forall_app | assumption].
Qed.

Lemma emits_try (m : M A) (handler : exn -> M A) :
  emits C m -> (forall e, emits C (handler e)) -> emits C (try_except m handler).
Proof.
  intros Hm Hh tr. unfold try_except. destruct (Hm tr) as (ev & E & F).
  destruct (m tr) as [[a|e] tr1]; simpl in E; subst tr1.
  - exists ev. auto.
  - destruct (Hh e (tr ++ ev)) as (ev' & E' & F'). exists (ev ++ ev').
    rewrite E', app_assoc. split; [reflexivity|]. now apply Forall_app.
Qed.

Lemma returns_try (Q : A -> Prop) (m : M A) (handler : exn -> M A) :
  emits C m -> (forall a tr tr', m tr = (Ok a, tr') -> Q a) ->
  (forall e, returns C Q (handler e)) -> returns C Q (try_except m handler).
Proof.
  intros Hm Hq Hh tr. unfold try_except. destruct (Hm tr) as (ev & E & F).
  destruct (m tr) as [[a|e] tr1] eqn:Em; simpl in E; subst tr1.
  - exists a, ev. eauto.
  - destruct (Hh e (tr ++ ev)) as (b & ev' & E' & F' & q). exists b, (ev ++ ev').
    rewrite E', app_assoc. split; [reflexivity|]. split; [now apply Forall_app | assumption].
Qed.

End Rules.

Lemma returns_log (C : command -> Prop) lv t a : returns C (fun _ => True) (log lv t a).
Proof. intros tr. exists tt, [Logged lv t a]. unfold log. repeat split. repeat constructor. Qed.

Lemma emits_log (C : command -> Prop) lv t a : emits C (log lv t a).
Proof. eapply returns_emits, returns_log. Qed.

(** ** The client call *)

Lemma sync_run_emits h (C : command -> Prop) c : C c -> emits C (Sync.run_az_command h c).
Proof.
  intros Hc tr. unfold Sync.run_az_command.
  destruct c as [l|argv], (az h tr _) as [rc out err|why]; try destruct (rc =? 0)%Z;
    simpl; rewrite <- ?app_assoc; eexists; (split; [reflexivity|]); repeat constructor; exact Hc.
Qed.

Lemma sync_run_shell h (C : command -> Prop) l :
  C (Shell l) -> returns C (fun _ => True) (Sync.run_az_command h (Shell l)).
Proof.
  intros Hc tr. unfold Sync.run_az_command.
  destruct (az h tr _) as [rc out err|why]; try destruct (rc =? 0)%Z;
    simpl; rewrite <- ?app_assoc; do 2 eexists; (split; [reflexivity|]); split; auto;
    repeat constructor; exact Hc.
Qed.

Lemma v2_run h (C : command -> Prop) c :
  C c -> returns C (fun _ => True) (V2.run_az_command h c).
Proof.
  intros Hc tr. unfold V2.run_az_command.
  destruct (az h _ _) as [rc out err|why]; try destruct (rc =? 0)%Z;
    simpl; rewrite <- ?app_assoc; do 2 eexists; (split; [reflexivity|]); split; auto;
    repeat constructor; exact Hc.
Qed.

Lemma item_nth parts i : i < length parts -> item parts i = inr (nth i parts EmptyString).
Proof.
  intros Hi. unfold item. destruct (parts !! i) eqn:E.
  - f_equal. symmetry. now apply nth_lookup_Some.
  - apply lookup_ge_None in E. lia.
Qed.

Lemma sync_process_malformed h id names tr :
  length (Py.split "/" id) < 9 ->
  Sync.process_snapshot h id names tr =
    (Ok (malformed_verdict id), tr ++ [Logged ERROR "Invalid snapshot ID format: {}" [AText id]]).
Proof.
  intros Hlen. unfold Sync.process_snapshot, try_except, bind.
  rewrite bool_decide_eq_true_2 by assumption. reflexivity.
Qed.

Lemma v2_process_malformed h id names tr :
  length (Py.split "/" id) < 9 ->
  V2.process_snapshot h id names tr =
    (Ok (malformed_verdict id), tr ++ [Logged ERROR "Invalid snapshot ID format: {}" [AText id]]).
Proof.
  intros Hlen. unfold V2.process_snapshot, try_except, bind.
  rewrite bool_decide_eq_true_2 by assumption. reflexivity.
Qed.

Lemma sync_run_shell_eq h l tr :
  exists logs, Sync.run_az_command h (Shell l) tr =
    (Ok (sync_reading (az h tr (Shell l))), tr ++ Ran (Shell l) :: logs)
    /\ commands logs = [].
Proof.
  unfold Sync.run_az_command, sync_reading.
  destruct (az h tr _) as [rc out err|why]; try destruct (rc =? 0)%Z;
    rewrite <- ?app_assoc; simpl; eexists; split; try reflexivity.
  Unshelve. all: exact [].
Qed.

Lemma sync_reading_failed r : failed r = true -> Py.startswith "Error:" (sync_reading r) = true.
Proof.
  destruct r as [rc out err|why]; simpl; [|reflexivity].
  destruct (rc =? 0)%Z; [discriminate | reflexivity].
Qed.

(** The verdict on an identifier of nine segments or more. *)
Lemma sync_process_wellformed h id names tr :
  9 <= length (Py.split "/" id) ->
  exists logs,
    Sync.process_snapshot h id names tr =
      (Ok (Some (account_of names id),
           if Py.startswith "Error:" (sync_reading (az h tr (show_command id)))
           then "non-existent" else "valid",
           Name (Py.last_part (Py.split "/" id))),
       tr ++ Ran (show_command id) :: logs)
    /\ commands logs = [].
Proof.
  intros Hlen. unfold Sync.process_snapshot, try_except, bind.
  rewrite bool_decide_eq_false_2 by lia.
  rewrite item_nth by lia. simpl lift. unfold ret at 1.
  unfold Sync.check_snapshot_exists, bind.
  destruct (sync_run_shell_eq h ("az snapshot show --ids " +:+ id) tr) as (logs & E & Hl).
  rewrite E. exists logs. split; [|exact Hl]. unfold ret, show_command, account_of.
  destruct (Py.startswith "Error:" _); reflexivity.
Qed.

Lemma v2_run_eq h c tr :
  exists logs, V2.run_az_command h c tr =
    (Ok (v2_reading (az h (v2_asked tr c) c)), v2_asked tr c ++ Ran c :: logs)
    /\ commands logs = [].
Proof.
  unfold V2.run_az_command, v2_reading, v2_asked.
  destruct (az h _ _) as [rc out err|why]; try destruct (rc =? 0)%Z;
    eexists; (split; [rewrite <- ?app_assoc; simpl; reflexivity | reflexivity]).
Qed.

Lemma v2_reading_failed r : failed r = true -> v2_reading r = None.
Proof.
  destruct r as [rc out err|why]; simpl; [|reflexivity].
  destruct (rc =? 0)%Z; [discriminate | reflexivity].
Qed.

Lemma v2_process_wellformed h id names tr :
  9 <= length (Py.split "/" id) ->
  exists logs,
    V2.process_snapshot h id names tr =
      (Ok (Some (account_of names id),
           if V2.succeeded (v2_reading (az h (v2_asked tr (show_command id)) (show_command id)))
           then "valid" else "non-existent",
           Name (Py.last_part (Py.split "/" id))),
       v2_asked tr (show_command id) ++ Ran (show_command id) :: logs)
    /\ commands logs = [].
Proof.
  intros Hlen. unfold V2.process_snapshot, try_except, bind.
  rewrite bool_decide_eq_false_2 by lia.
  rewrite item_nth by lia. simpl lift. unfold ret at 1.
  unfold V2.check_snapshot_exists, bind.
  destruct (v2_run_eq h (show_command id) tr) as (logs & E & Hl).
  unfold show_command in *. rewrite E. exists logs. split; [|exact Hl]. unfold ret, account_of.
  destruct (V2.succeeded _); reflexivity.
Qed.

Lemma sync_process_returns h id names :
  returns (fun c => c = show_command id) (verdict_ok id) (Sync.process_snapshot h id names).
Proof.
  intros tr. destruct (decide (length (Py.split "/" id) < 9)) as [Hlt|Hge].
  - rewrite sync_process_malformed by assumption. do 2 eexists. split; [reflexivity|].
    split; [repeat constructor|]. unfold verdict_ok, malformed_verdict; simpl.
    repeat split; auto. discriminate.
  - destruct (sync_process_wellformed h id names tr) as (logs & E & Hl); [lia|].
    rewrite E. do 2 eexists. split; [reflexivity|]. split.
    + constructor; [reflexivity|]. clear E. induction logs as [|[c|? ? ?] logs IH]; simpl in *;
        [constructor | discriminate | constructor; [exact I | auto]].
    + unfold verdict_ok; simpl. destruct (Py.startswith _ _); repeat split; auto; try lia; discriminate.
Qed.

Lemma v2_process_returns h id names :
  returns (fun c => c = show_command id) (verdict_ok id) (V2.process_snapshot h id names).
Proof.
  intros tr. destruct (decide (length (Py.split "/" id) < 9)) as [Hlt|Hge].
  - rewrite v2_process_malformed by assumption. do 2 eexists. split; [reflexivity|].
    split; [repeat constructor|]. unfold verdict_ok, malformed_verdict; simpl.
    repeat split; auto. discriminate.
  - destruct (v2_process_wellformed h id names tr) as (logs & E & Hl); [lia|].
    rewrite E. unfold v2_asked. rewrite <- app_assoc. do 2 eexists. split; [reflexivity|]. split.
    + constructor; [exact I|]. constructor; [reflexivity|].
      clear E. induction logs as [|[c|? ? ?] logs IH]; simpl in *;
        [constructor | discriminate | constructor; [exact I | auto]].
    + unfold verdict_ok; simpl. destruct (V2.succeeded _); repeat split; auto; try lia; discriminate.
Qed.

Lemma returns_mono {A : Type} (C D : command -> Prop) (Q : A -> Prop) (m : M A) :
  (forall c, C c -> D c) -> returns C Q m -> returns D Q m.
Proof.
  intros HCD H tr. destruct (H tr) as (a & ev & E & F & q). exists a, ev.
  split; [exact E|]. split; [|exact q]. eapply only_impl; eauto.
Qed.

Lemma emits_mono {A : Type} (C D : command -> Prop) (m : M A) :
  (forall c, C c -> D c) -> emits C m -> emits D m.
Proof.
  intros HCD H tr. destruct (H tr) as (ev & E & F). exists ev.
  split; [exact E|]. eapply only_impl; eauto.
Qed.

Lemma status_list_append account status data results a s :
  status_list (append_entry account status data results) a s =
    if decide (a = account /\ s = status)
    then Some (default [] (status_list results account status) ++ [data])
    else status_list results a s.
Proof.
  unfold status_list, append_entry.
  destruct (decide (a = account)) as [->|Ha].
  - rewrite lookup_insert_eq. simpl.
    destruct (decide (s = status)) as [->|Hs].
    + rewrite lookup_insert_eq. rewrite decide_True by auto.
      destruct (results !! account); reflexivity.
    + rewrite lookup_insert_ne by congruence. rewrite decide_False by tauto.
      destruct (results !! account); simpl; [reflexivity | apply lookup_empty].
  - rewrite lookup_insert_ne by congruence. rewrite decide_False by tauto. reflexivity.
Qed.

Lemma recorded_append_new account status data results :
  recorded account status data (append_entry account status data results).
Proof.
  unfold recorded. rewrite status_list_append, decide_True by auto.
  eexists. split; [reflexivity|]. apply elem_of_app. right. apply list_elem_of_singleton. reflexivity.
Qed.

Lemma recorded_append_old account status data results a s d :
  recorded a s d results -> recorded a s d (append_entry account status data results).
Proof.
  intros (l & E & Hin). unfold recorded. rewrite status_list_append.
  destruct (decide _) as [[-> ->]|_].
  - rewrite E. simpl. eexists. split; [reflexivity|]. apply elem_of_app. now left.
  - eauto.
Qed.

Lemma statuses_within_append allowed account status data results :
  status ∈ allowed -> statuses_within allowed results ->
  statuses_within allowed (append_entry account status data results).
Proof.
  intros Hs H a s l. rewrite status_list_append.
  destruct (decide _) as [[-> ->]|_]; [auto | apply H].
Qed.

Lemma statuses_within_empty allowed : statuses_within allowed ∅.
Proof. intros a s l. unfold status_list. rewrite lookup_empty. discriminate. Qed.

Lemma validated_step id rest v0 r0 v r out :
  verdict_ok id v ->
  r = append_entry (default "Unknown" (Sync.truthy v.1.1)) v.1.2 v.2 r0 ->
  validated rest
    (match Sync.truthy v.1.1 with
     | Some _ => if String.eqb v.1.2 "valid" then v0 ++ [id] else v0
     | None => v0
     end) r out ->
  validated (id :: rest) v0 r0 out.
Proof.
  intros (Hst & Hvalid & Hmal) Er ((v1 & E1 & F1) & Hw & Hrec & Hbad). subst r.
  assert (Hmono : Forall (fun x => x ∈ id :: rest /\ 9 <= length (Py.split "/" x)) v1).
  { eapply Forall_impl; [exact F1|]. intros x [? ?]. split; [now right | assumption]. }
  split; [|split; [|split]].
  - destruct (Sync.truthy v.1.1); [destruct (String.eqb v.1.2 "valid") eqn:Ev|].
    + exists (id :: v1). rewrite E1, <- app_assoc. split; [reflexivity|].
      constructor; [|exact Hmono]. split; [now left|]. apply Hvalid. now apply String.eqb_eq.
    + exists v1. auto.
    + exists v1. auto.
  - intros H0. apply Hw. apply statuses_within_append; [|exact H0].
    unfold validation_statuses. destruct Hst as [-> | [-> | ->]]; set_solver.
  - intros a s d H0. apply Hrec. now apply recorded_append_old.
  - intros x Hx Hlen. apply elem_of_cons in Hx as [->|Hx]; [|now apply Hbad].
    apply Hrec. rewrite (Hmal Hlen). simpl. apply recorded_append_new.
Qed.

Lemma sync_validate_loop h names ids : forall v0 r0,
  returns (shows ids) (validated ids v0 r0) (Sync.validate_loop h ids names v0 r0).
Proof.
  induction ids as [|id rest IH]; intros v0 r0; simpl.
  - apply returns_ret. split; [|split; [|split]]; simpl; auto.
    + exists []. rewrite app_nil_r. auto.
    + intros id Hin. inversion Hin.
  - eapply returns_bind.
    + eapply returns_mono; [|apply sync_process_returns].
      intros c ->. exists id. split; [now left | reflexivity].
    + intros [[n st] d] Hv.
      assert (Hgo : forall v' r', returns (shows (id :: rest)) (validated rest v' r')
                (Sync.validate_loop h rest names v' r')).
      { intros v' r'. eapply returns_mono; [|apply IH].
        intros c (x & Hx & ->). exists x. split; [now right | reflexivity]. }
      destruct (Sync.truthy n) as [account|] eqn:Et;
        (eapply returns_weaken; [|apply Hgo]);
        intros out Hout; eapply (validated_step id rest v0 r0 (n, st, d)); eauto;
        simpl; rewrite ?Et; simpl; auto.
Qed.

Lemma v2_validate_loop h names ids : forall v0 r0,
  returns (shows ids) (validated ids v0 r0) (V2.validate_loop h ids names v0 r0).
Proof.
  induction ids as [|id rest IH]; intros v0 r0; simpl.
  - apply returns_ret. split; [|split; [|split]]; simpl; auto.
    + exists []. rewrite app_nil_r. auto.
    + intros id Hin. inversion Hin.
  - eapply returns_bind.
    + eapply returns_mono; [|apply v2_process_returns].
      intros c ->. exists id. split; [now left | reflexivity].
    + intros [[n st] d] Hv.
      assert (Hgo : forall v' r', returns (shows (id :: rest)) (validated rest v' r')
                (V2.validate_loop h rest names v' r')).
      { intros v' r'. eapply returns_mono; [|apply IH].
        intros c (x & Hx & ->). exists x. split; [now right | reflexivity]. }
      destruct (Sync.truthy n) as [account|] eqn:Et;
        (eapply returns_weaken; [|apply Hgo]);
        intros out Hout; eapply (validated_step id rest v0 r0 (n, st, d)); eauto;
        simpl; rewrite ?Et; simpl; auto.
Qed.

(** ** The validator: malformed identifiers and failed existence checks *)

(** C6. An identifier that splits into fewer than nine segments is
    classified as malformed without any client call, in both variants: the
    verdict is (None, invalid, (identifier, reason)), the trace gains one
    log record and no command, the identifier is never in the valid list
    that lock discovery and deletion receive, and it is recorded under
    the account Unknown with status invalid. *)
Theorem C6_malformed_no_client_call (h : host) (id : string)
    (names : gmap string string) (tr : list event) :
  length (Py.split "/" id) < 9 ->
  let after := tr ++ [Logged ERROR "Invalid snapshot ID format: {}" [AText id]] in
  Sync.process_snapshot h id names tr = (Ok (malformed_verdict id), after)
  /\ V2.process_snapshot h id names tr = (Ok (malformed_verdict id), after)
  /\ commands after = commands tr
  /\ (forall ids tr0, exists valid results ev,
        Sync.pre_validate_snapshots h ids names tr0 = (Ok (valid, results), tr0 ++ ev)
        /\ (id ∉ valid)
        /\ (id ∈ ids ->
            recorded "Unknown" "invalid" (Detail id (Text "Invalid snapshot ID format")) results))
  /\ (forall ids tr0, exists valid results ev,
        V2.pre_validate_snapshots h ids names tr0 = (Ok (valid, results), tr0 ++ ev)
        /\ (id ∉ valid)
        /\ (id ∈ ids ->
            recorded "Unknown" "invalid" (Detail id (Text "Invalid snapshot ID format")) results)).
Proof.
  intros Hlen after.
  split; [now apply sync_process_malformed|].
  split; [now apply v2_process_malformed|].
  split; [unfold after; rewrite commands_app; simpl; apply app_nil_r|].
  split; intros ids tr0.
  - destruct (sync_validate_loop h names ids [] ∅ tr0)
      as ([valid results] & ev & E & _ & (v1 & Ev & Fv) & _ & _ & Hbad).
    exists valid, results, ev. split; [exact E|]. simpl in *. subst valid. split; [|auto].
    intros Hin. rewrite Forall_forall in Fv. destruct (Fv _ Hin). lia.
  - destruct (v2_validate_loop h names ids [] ∅ tr0)
      as ([valid results] & ev & E & _ & (v1 & Ev & Fv) & _ & _ & Hbad).
    exists valid, results, ev. split; [exact E|]. simpl in *. subst valid. split; [|auto].
    intros Hin. rewrite Forall_forall in Fv. destruct (Fv _ Hin). lia.
Qed.

Lemma C6_witness :
  Sync.process_snapshot (host_of az_denied) "not-a-valid-id" ∅ [] =
    (Ok (malformed_verdict "not-a-valid-id"),
     [Logged ERROR "Invalid snapshot ID format: {}" [AText "not-a-valid-id"]]).
Proof.
  apply (C6_malformed_no_client_call (host_of az_denied) "not-a-valid-id" ∅ []).
  vm_compute. lia.
Defined.

(** C2, as the code has it. For an identifier of nine segments or more
    the existence check is the one command of the validation, and the
    validation returns a verdict. In the sequential variant the verdict is
    keyed by the account's display name and carries the last segment; a
    check that is not a success (whatever the reason the client gives)
    yields non-existent; a success yields valid, unless its output starts
    with Error:, which yields non-existent too; the error status never
    arises. In the event-loop variant a success is classified in the same
    way; a check that is not a success yields non-existent under the
    display name, or the error verdict under no account, and never valid. *)
Theorem C2_failed_check_is_non_existent (h : host) (id : string)
    (names : gmap string string) (tr : list event) :
  9 <= length (Py.split "/" id) ->
  (exists status ev,
     Sync.process_snapshot h id names tr =
       (Ok (Some (account_of names id), status, Name (Py.last_part (Py.split "/" id))), tr ++ ev)
     /\ commands ev = [show_command id]
     /\ (status = "non-existent" \/ status = "valid")
     /\ (failed (az h tr (show_command id)) = true -> status = "non-existent")
     /\ (forall out err,
           az h tr (show_command id) = Exited 0 out err ->
           status = if Py.startswith "Error:" (Py.strip out) then "non-existent" else "valid"))
  /\ (exists verdict ev,
     V2.process_snapshot h id names tr = (Ok verdict, tr ++ ev)
     /\ commands ev = [show_command id]
     /\ (failed (az h (v2_asked tr (show_command id)) (show_command id)) = true ->
         verdict = (Some (account_of names id), "non-existent",
                    Name (Py.last_part (Py.split "/" id)))
         \/ exists reason, verdict = (None, "error", Detail id reason))
     /\ (forall out err,
           az h (v2_asked tr (show_command id)) (show_command id) = Exited 0 out err ->
           verdict = (Some (account_of names id),
                      if Py.startswith "Error:" (Py.strip out) then "non-existent" else "valid",
                      Name (Py.last_part (Py.split "/" id))))).
Proof.
  intros Hlen. split.
  - destruct (sync_process_wellformed h id names tr Hlen) as (logs & E & Hl).
    do 2 eexists. split; [exact E|].
    split; [cbn [commands omap]; simpl; now rewrite Hl|].
    split; [destruct (Py.startswith _ _); auto|].
    split.
    + intros Hf. now rewrite sync_reading_failed.
    + intros out err Hr. rewrite Hr. reflexivity.
  - destruct (v2_process_wellformed h id names tr Hlen) as (logs & E & Hl).
    unfold v2_asked in E. rewrite <- app_assoc in E.
    do 2 eexists. split; [exact E|].
    split; [simpl; now rewrite Hl|].
    split.
    + intros Hf. left. unfold v2_asked in Hf. now rewrite v2_reading_failed.
    + intros out err Hr. unfold v2_asked in Hr. rewrite Hr. simpl.
      destruct (Py.startswith "Error:" (Py.strip out)); reflexivity.
Qed.

Lemma C2_witness :
  exists status ev,
    Sync.process_snapshot (host_of az_denied) snap_a ∅ [] =
      (Ok (Some (account_of ∅ snap_a), status, Name (Py.last_part (Py.split "/" snap_a))),
       [] ++ ev)
    /\ commands ev = [show_command snap_a]
    /\ (status = "non-existent" \/ status = "valid")
    /\ (failed (az (host_of az_denied) [] (show_command snap_a)) = true ->
        status = "non-existent")
    /\ (forall out err,
          az (host_of az_denied) [] (show_command snap_a) = Exited 0 out err ->
          status = if Py.startswith "Error:" (Py.strip out) then "non-existent" else "valid").
Proof.
  apply (C2_failed_check_is_non_existent (host_of az_denied) snap_a ∅ []).
  vm_compute. lia.
Defined.

(** C2 as stated fails: a permission-denied existence check is classified
    non-existent, exactly as a not-found one, and not as error. *)
Lemma C2_permission_denied_counterexample :
  (Sync.process_snapshot (host_of az_denied) snap_a ∅ []).1
    = Ok (Some "111", "non-existent", Name "snap-a")
  /\ (Sync.process_snapshot (host_of az_missing) snap_a ∅ []).1
    = Ok (Some "111", "non-existent", Name "snap-a")
  /\ (V2.process_snapshot (host_of az_denied) snap_a ∅ []).1
    = Ok (Some "111", "non-existent", Name "snap-a")
  /\ (V2.process_snapshot (host_of az_missing) snap_a ∅ []).1
    = Ok (Some "111", "non-existent", Name "snap-a").
Proof. repeat split; vm_compute; reflexivity. Qed.

Lemma returns_try_ok {A : Type} (C : command -> Prop) (Q : A -> Prop) (m : M A) handler :
  returns C Q m -> returns C Q (try_except m handler).
Proof.
  intros H tr. unfold try_except. destruct (H tr) as (a & ev & E & F & q).
  rewrite E. eauto.
Qed.

Lemma returns_if {A : Type} (C : command -> Prop) (Q : A -> Prop) (b : bool) (m1 m2 : M A) :
  returns C Q m1 -> returns C Q m2 -> returns C Q (if b then m1 else m2).
Proof. destruct b; auto. Qed.

Lemma emits_if {A : Type} (C : command -> Prop) (b : bool) (m1 m2 : M A) :
  emits C m1 -> emits C m2 -> emits C (if b then m1 else m2).
Proof. destruct b; auto. Qed.

Ltac emits_step :=
  first
    [ apply emits_ret | apply emits_raise | apply emits_log | apply emits_lift
    | apply emits_if
    | apply emits_bind; [|intros ?]
    | apply emits_try; [|intros ?] ].

(** *** Login and account names *)

Lemma sync_login_returns h :
  returns (fun c => c = account_show_command) (fun _ => True) (Sync.check_az_login h).
Proof.
  unfold Sync.check_az_login. apply returns_try_ok.
  eapply returns_bind; [apply sync_run_shell; reflexivity|]. intros result _.
  apply returns_if.
  - eapply returns_bind; [apply returns_log|]. intros _ _. now apply returns_ret.
  - now apply returns_ret.
Qed.

Lemma v2_login_returns h :
  returns (fun c => c = account_show_command) (fun _ => True) (V2.check_az_login h).
Proof.
  unfold V2.check_az_login.
  eapply returns_bind; [apply returns_log|]. intros _ _.
  eapply returns_bind; [apply v2_run; reflexivity|]. intros result _.
  apply returns_if; (eapply returns_bind; [apply returns_log|]); intros _ _; now apply returns_ret.
Qed.

Lemma names_of_emits (C : command -> Prop) subs : forall names, emits C (names_of subs names).
Proof.
  induction subs as [|sub rest IH]; intros names; simpl; [apply emits_ret|].
  repeat emits_step. apply IH.
Qed.

Lemma sync_names_emits h :
  emits (fun c => c = account_list_command) (Sync.get_subscription_names h).
Proof.
  unfold Sync.get_subscription_names.
  apply emits_bind; [apply sync_run_emits; reflexivity|]. intros result.
  apply emits_if; [|apply emits_ret].
  repeat emits_step. apply names_of_emits.
Qed.

Lemma v2_subscriptions_emits h :
  emits (fun c => c = v2_account_list_command) (V2.get_subscriptions h).
Proof.
  unfold V2.get_subscriptions.
  apply emits_bind; [apply emits_log|]. intros _.
  apply emits_bind; [eapply returns_emits; apply v2_run; reflexivity|]. intros result.
  repeat emits_step.
Qed.

(** *** The suspend phase *)

Lemma sync_switch_emits h s cur :
  emits (fun c => is_account_set c = true) (Sync.switch_subscription h s cur).
Proof.
  unfold Sync.switch_subscription. destruct (bool_decide _); [apply emits_ret|].
  apply emits_try; [|intros e; repeat emits_step].
  apply emits_bind; [apply sync_run_emits; reflexivity|]. intros _. repeat emits_step.
Qed.

Lemma v2_switch_returns h s cur :
  returns (fun c => is_account_set c = true) (fun r => r = Some s) (V2.switch_subscription h s cur).
Proof.
  unfold V2.switch_subscription. destruct (bool_decide _) eqn:E.
  - apply returns_ret. apply bool_decide_eq_true in E. auto.
  - apply returns_try_ok.
    eapply returns_bind; [apply v2_run; reflexivity|]. intros _ _.
    eapply returns_bind; [apply returns_log|]. intros _ _. now apply returns_ret.
Qed.

Lemma suspend_shape_set c : is_account_set c = true -> suspend_shape c.
Proof. intros H. now left. Qed.

Lemma sync_remove_locks_deletes h s g locks : forall removed,
  emits (fun c => exists n g', c = lock_delete_command n g')
    (Sync.remove_locks h s g locks removed).
Proof.
  induction locks as [|lock rest IH]; intros removed; simpl; [apply emits_ret|].
  apply emits_bind; [apply emits_lift|]. intros lv.
  apply emits_if; [|apply IH].
  apply emits_bind; [apply emits_lift|]. intros name.
  apply emits_bind; [apply sync_run_emits; do 2 eexists; reflexivity|].
  intros result.
  apply emits_if; (apply emits_bind; [apply emits_log|]); intros _; apply IH.
Qed.

Lemma sync_remove_locks_emits h s g locks removed :
  emits suspend_shape (Sync.remove_locks h s g locks removed).
Proof.
  eapply emits_mono; [|apply sync_remove_locks_deletes]. intros c H. right. now right.
Qed.

Lemma v2_remove_locks_deletes h s g locks : forall removed,
  emits (fun c => exists n g', c = lock_delete_command n g')
    (V2.remove_locks h s g locks removed).
Proof.
  induction locks as [|lock rest IH]; intros removed; simpl; [apply emits_ret|].
  apply emits_bind; [apply emits_lift|]. intros lv.
  apply emits_if; [|apply IH].
  apply emits_bind; [apply emits_lift|]. intros name.
  apply emits_bind; [eapply returns_emits; apply v2_run; do 2 eexists; reflexivity|].
  intros result.
  apply emits_if; (apply emits_bind; [apply emits_log|]); intros _; apply IH.
Qed.

Lemma v2_remove_locks_emits h s g locks removed :
  emits suspend_shape (V2.remove_locks h s g locks removed).
Proof.
  eapply emits_mono; [|apply v2_remove_locks_deletes]. intros c H. right. now right.
Qed.

Lemma sync_remove_groups_emits h groups : forall cur removed,
  emits suspend_shape (Sync.remove_groups h groups cur removed).
Proof.
  induction groups as [|[s g] rest IH]; intros cur removed; simpl; [apply emits_ret|].
  apply emits_bind.
  { eapply emits_mono; [|apply sync_switch_emits]. apply suspend_shape_set. }
  intros cur'. apply emits_bind; [apply sync_run_emits; right; left; eexists; reflexivity|].
  intros listing.
  apply emits_bind; [apply emits_lift|]. intros locks.
  apply emits_bind; [apply emits_lift|]. intros items.
  apply emits_bind; [apply sync_remove_locks_emits|]. intros removed'. apply IH.
Qed.

Lemma v2_remove_groups_emits h groups : forall cur removed,
  emits suspend_shape (V2.remove_groups h groups cur removed).
Proof.
  induction groups as [|[s g] rest IH]; intros cur removed; simpl; [apply emits_ret|].
  apply emits_bind.
  { eapply emits_mono; [|eapply returns_emits; apply v2_switch_returns]. apply suspend_shape_set. }
  intros cur'.
  apply emits_bind; [eapply returns_emits; apply v2_run; right; left; eexists; reflexivity|].
  intros listing.
  apply emits_bind; [apply emits_lift|]. intros locks.
  apply emits_bind; [apply emits_lift|]. intros items.
  apply emits_bind; [apply v2_remove_locks_emits|]. intros removed'. apply IH.
Qed.

(** *** The deletion phase on validated identifiers *)

Lemma statuses_within_ensure allowed account results :
  statuses_within allowed results ->
  statuses_within allowed
    (match results !! account with
     | Some _ => results
     | None => <[account := ∅]> results
     end).
Proof.
  intros H. destruct (results !! account) eqn:E; [exact H|].
  intros a s l. unfold status_list.
  destruct (decide (a = account)) as [->|Hne].
  - rewrite lookup_insert_eq. simpl. rewrite lookup_empty. discriminate.
  - rewrite lookup_insert_ne by congruence. apply H.
Qed.

Lemma sync_delete_loop h names valid : forall r0,
  Forall (fun id => 9 <= length (Py.split "/" id)) valid ->
  returns delete_shape (deleted_ok r0)
    (Sync.delete_loop h valid names r0).
Proof.
  induction valid as [|id rest IH]; intros r0 Hv; simpl.
  - apply returns_ret. unfold deleted_ok. auto.
  - inversion Hv as [|? ? Hid Hrest]; subst.
    rewrite item_nth by lia. simpl lift.
    eapply returns_bind; [now apply (returns_ret _ (fun _ => True))|]. intros sub _.
    eapply returns_bind.
    { unfold Sync.delete_snapshot. eapply returns_bind; [apply sync_run_shell; eexists; reflexivity|].
      intros result _. now apply (returns_ret _ (fun _ => True)). }
    intros success _.
    apply returns_if; (eapply returns_bind; [apply returns_log|]); intros _ _;
      (eapply returns_weaken; [|apply IH; exact Hrest]); intros out Hout H0; apply Hout;
      (apply statuses_within_append; [unfold deletion_statuses; set_solver|]);
      now apply statuses_within_ensure.
Qed.

Lemma v2_delete_loop h names valid : forall r0,
  Forall (fun id => 9 <= length (Py.split "/" id)) valid ->
  returns delete_shape (deleted_ok r0)
    (V2.delete_loop h valid names r0).
Proof.
  induction valid as [|id rest IH]; intros r0 Hv; simpl.
  - apply returns_ret. unfold deleted_ok. auto.
  - inversion Hv as [|? ? Hid Hrest]; subst.
    rewrite item_nth by lia. simpl lift.
    eapply returns_bind; [now apply (returns_ret _ (fun _ => True))|]. intros sub _.
    eapply returns_bind.
    { unfold V2.delete_snapshot. eapply returns_bind; [apply v2_run; eexists; reflexivity|].
      intros result _. now apply (returns_ret _ (fun _ => True)). }
    intros success _.
    apply returns_if; (eapply returns_bind; [apply returns_log|]); intros _ _;
      (eapply returns_weaken; [|apply IH; exact Hrest]); intros out Hout H0; apply Hout;
      (apply statuses_within_append; [unfold deletion_statuses; set_solver|]);
      now apply statuses_within_ensure.
Qed.

Lemma sync_delete_loop_emits h names valid : forall r0,
  emits delete_shape (Sync.delete_loop h valid names r0).
Proof.
  induction valid as [|id rest IH]; intros r0; simpl; [apply emits_ret|].
  apply emits_bind; [apply emits_lift|]. intros sub.
  apply emits_bind.
  { unfold Sync.delete_snapshot.
    apply emits_bind; [apply sync_run_emits; eexists; reflexivity|].
    intros ?. apply emits_ret. }
  intros success. apply emits_if; (apply emits_bind; [apply emits_log|]); intros _; apply IH.
Qed.

Lemma v2_delete_loop_emits h names valid : forall r0,
  emits delete_shape (V2.delete_loop h valid names r0).
Proof.
  induction valid as [|id rest IH]; intros r0; simpl; [apply emits_ret|].
  apply emits_bind; [apply emits_lift|]. intros sub.
  apply emits_bind.
  { unfold V2.delete_snapshot.
    apply emits_bind; [eapply returns_emits; apply v2_run; eexists; reflexivity|].
    intros ?. apply emits_ret. }
  intros success. apply emits_if; (apply emits_bind; [apply emits_log|]); intros _; apply IH.
Qed.

(** *** The restore phase *)

Lemma sync_restore_loop_emits h ledger : forall cur restored,
  emits restore_shape (Sync.restore_loop h ledger cur restored).
Proof.
  induction ledger as [|[[s g] n] rest IH]; intros cur restored; simpl; [apply emits_ret|].
  apply emits_bind.
  { eapply emits_mono; [|apply sync_switch_emits]. intros c Hc. now left. }
  intros cur'. apply emits_bind.
  { apply sync_run_emits. right. do 2 eexists. reflexivity. }
  intros result. apply emits_if; (apply emits_bind; [apply emits_log|]); intros _; apply IH.
Qed.

Lemma v2_restore_loop_emits h ledger : forall cur restored,
  emits restore_shape (V2.restore_loop h ledger cur restored).
Proof.
  induction ledger as [|[[s g] n] rest IH]; intros cur restored; simpl; [apply emits_ret|].
  apply emits_bind.
  { eapply emits_mono; [|eapply returns_emits; apply v2_switch_returns].
    intros c Hc. now left. }
  intros cur'. apply emits_bind.
  { eapply returns_emits. apply v2_run. right. do 2 eexists. reflexivity. }
  intros result. apply emits_if; (apply emits_bind; [apply emits_log|]); intros _; apply IH.
Qed.

Lemma generate_log_file_emits (C : command -> Prop) h results t :
  emits C (generate_log_file h results t).
Proof.
  intros tr. unfold generate_log_file.
  destruct (makedirs h tr); [exists []; simpl; rewrite app_nil_r; auto|].
  destruct (write_file h tr _); simpl.
  - eexists. split; [reflexivity|]. repeat constructor.
  - exists []. rewrite app_nil_r; auto.
Qed.

Lemma stages_app ev1 ev2 : stages (ev1 ++ ev2) = stages ev1 ++ stages ev2.
Proof. unfold stages. now rewrite commands_app, omap_app. Qed.

Lemma nondecreasing_app l1 l2 b :
  nondecreasing l1 -> Forall (fun n => n <= b) l1 ->
  nondecreasing l2 -> Forall (fun n => b <= n) l2 ->
  nondecreasing (l1 ++ l2).
Proof.
  intros H1 B1 H2 B2. induction l1 as [|x l1 IH]; simpl in *; [assumption|].
  destruct H1 as [Hx H1]. inversion B1 as [|? ? Hxb B1']; subst.
  split; [|auto]. apply Forall_app. split; [assumption|].
  eapply Forall_impl; [exact B2|]. simpl. intros; lia.
Qed.

Lemma phased_weaken {A : Type} lo hi lo' hi' (m : M A) :
  lo' <= lo -> hi <= hi' -> phased lo hi m -> phased lo' hi' m.
Proof.
  intros Hlo Hhi H tr. destruct (H tr) as (ev & E & S & B). exists ev.
  split; [exact E|]. split; [exact S|]. eapply Forall_impl; [exact B|]. simpl. intros; lia.
Qed.

Lemma nondecreasing_const k l : Forall (fun n => n = k) l -> nondecreasing l.
Proof.
  induction 1 as [|x l -> Hall IH]; simpl; [exact I|]. split; [|exact IH].
  eapply Forall_impl; [exact Hall|]. simpl. intros; lia.
Qed.

Lemma phased_of_emits {A : Type} (k : nat) (C : command -> Prop) (m : M A) :
  (forall c, C c -> stage c = None \/ stage c = Some k) -> emits C m -> phased k k m.
Proof.
  intros HC H tr. destruct (H tr) as (ev & E & F). exists ev. split; [exact E|].
  assert (Hall : Forall (fun n => n = k) (stages ev)).
  { clear E. unfold stages. induction F as [|[c|lv t a] ev Hc _ IH]; simpl; auto.
    destruct (HC c Hc) as [-> | ->]; simpl; auto. }
  split; [now apply (nondecreasing_const k)|].
  eapply Forall_impl; [exact Hall|]. simpl. intros; lia.
Qed.

Lemma phased_bind {A B : Type} a b c (m : M A) (k : A -> M B) :
  a <= b -> b <= c ->
  phased a b m -> (forall x, phased b c (k x)) -> phased a c (bind m k).
Proof.
  intros Hab Hbc Hm Hk tr. unfold bind. destruct (Hm tr) as (ev & E & S & Bd).
  destruct (m tr) as [[x|e] tr1]; simpl in E; subst tr1.
  - destruct (Hk x (tr ++ ev)) as (ev' & E' & S' & Bd'). exists (ev ++ ev').
    rewrite E', app_assoc, stages_app. split; [reflexivity|]. split.
    + apply (nondecreasing_app _ _ b); auto.
      * eapply Forall_impl; [exact Bd|]. simpl. intros; lia.
      * eapply Forall_impl; [exact Bd'|]. simpl. intros; lia.
    + apply Forall_app. split; (eapply Forall_impl; [eassumption|]); simpl; intros; lia.
  - exists ev. split; [reflexivity|]. split; [exact S|].
    eapply Forall_impl; [exact Bd|]. simpl. intros; lia.
Qed.

Lemma phased_try {A : Type} a b c (m : M A) (handler : exn -> M A) :
  a <= b -> b <= c ->
  phased a b m -> (forall e, phased b c (handler e)) -> phased a c (try_except m handler).
Proof.
  intros Hab Hbc Hm Hh tr. unfold try_except. destruct (Hm tr) as (ev & E & S & Bd).
  destruct (m tr) as [[x|e] tr1]; simpl in E; subst tr1.
  - exists ev. split; [reflexivity|]. split; [exact S|].
    eapply Forall_impl; [exact Bd|]. simpl. intros; lia.
  - destruct (Hh e (tr ++ ev)) as (ev' & E' & S' & Bd'). exists (ev ++ ev').
    rewrite E', app_assoc, stages_app. split; [reflexivity|]. split.
    + apply (nondecreasing_app _ _ b); auto.
      * eapply Forall_impl; [exact Bd|]. simpl. intros; lia.
      * eapply Forall_impl; [exact Bd'|]. simpl. intros; lia.
    + apply Forall_app. split; (eapply Forall_impl; [eassumption|]); simpl; intros; lia.
Qed.

(** A computation that issues no mutating call fits at any stage. *)
Lemma phased_quiet {A : Type} (k : nat) (C : command -> Prop) (m : M A) :
  (forall c, C c -> stage c = None) -> emits C m -> phased k k m.
Proof. intros HC. apply phased_of_emits. auto. Qed.

Lemma stage_account_set c : is_account_set c = true -> stage c = None.
Proof. destruct c; [discriminate | reflexivity]. Qed.

Lemma stage_suspend c : suspend_shape c -> stage c = None \/ stage c = Some 1.
Proof.
  intros [H | [(g & ->) | (n & g & ->)]].
  - left. now apply stage_account_set.
  - left. reflexivity.
  - right. reflexivity.
Qed.

Lemma stage_delete c : delete_shape c -> stage c = None \/ stage c = Some 2.
Proof. intros (id & ->). right. reflexivity. Qed.

Lemma stage_restore c : restore_shape c -> stage c = None \/ stage c = Some 3.
Proof.
  intros [H | (n & g & ->)].
  - left. now apply stage_account_set.
  - right. reflexivity.
Qed.

Lemma stage_show id : stage (show_command id) = None.
Proof. reflexivity. Qed.

Lemma now_sync_emits (C : command -> Prop) h : emits C (Sync.now h).
Proof. intros tr. exists []. simpl. rewrite app_nil_r. auto. Qed.

Lemma now_v2_emits (C : command -> Prop) h : emits C (V2.now h).
Proof. intros tr. exists []. simpl. rewrite app_nil_r. auto. Qed.

Lemma phased_quiet_ret {A : Type} k (a : A) : phased k k (ret a).
Proof. apply (phased_quiet k quiet); [auto | apply emits_ret]. Qed.

Lemma phased_quiet_log k lv t a : phased k k (log lv t a).
Proof. apply (phased_quiet k quiet); [auto | apply emits_log]. Qed.

Lemma sync_validate_phased h ids names k :
  phased k k (Sync.pre_validate_snapshots h ids names).
Proof.
  apply (phased_quiet k (shows ids)).
  - intros c (id & _ & ->). reflexivity.
  - eapply returns_emits. apply sync_validate_loop.
Qed.

Lemma v2_validate_phased h ids names k :
  phased k k (V2.pre_validate_snapshots h ids names).
Proof.
  apply (phased_quiet k (shows ids)).
  - intros c (id & _ & ->). reflexivity.
  - eapply returns_emits. apply v2_validate_loop.
Qed.

Lemma finish_phased h results t :
  phased 3 3 (let* log_filename := generate_log_file h results t in
              ret (Report results log_filename t)).
Proof.
  apply (phased_quiet 3 quiet); [auto|].
  apply emits_bind; [apply generate_log_file_emits | intros; apply emits_ret].
Qed.

(** The mutating calls of a whole run come in workflow order: every lock
    removal before every deletion, every deletion before every lock
    re-creation. *)
Lemma sync_main_body_phased h ids : phased 0 3 (Sync.main_body h ids).
Proof.
  unfold Sync.main_body.
  apply (phased_bind 0 0 3); [lia | lia | |].
  { apply (phased_quiet 0 (fun c => c = account_show_command)); [now intros c -> |].
    eapply returns_emits. apply sync_login_returns. }
  intros logged. destruct logged; simpl negb; cbv iota;
    [|apply (phased_weaken 0 0); [lia | lia | apply phased_quiet_ret]].
  apply (phased_bind 0 0 3); [lia | lia | apply (phased_quiet 0 quiet); auto using now_sync_emits |].
  intros start.
  apply (phased_bind 0 0 3); [lia | lia | |].
  { apply (phased_quiet 0 (fun c => c = account_list_command)); [now intros c -> |].
    apply sync_names_emits. }
  intros names.
  apply (phased_bind 0 0 3); [lia | lia | |].
  { destruct (bool_decide _); [apply phased_quiet_log | apply phased_quiet_ret]. }
  intros _.
  apply (phased_bind 0 0 3); [lia | lia | apply sync_validate_phased |].
  intros [valid pre].
  apply (phased_bind 0 3 3); [lia | lia | |].
  { destruct valid as [|v0 valid']; [apply (phased_weaken 0 0); [lia | lia | apply phased_quiet_ret]|].
    apply (phased_bind 0 1 3); [lia | lia | |].
    { apply (phased_weaken 1 1); [lia | lia |].
      apply (phased_of_emits 1 suspend_shape); [apply stage_suspend|].
      apply sync_remove_groups_emits. }
    intros removed.
    apply (phased_bind 1 2 3); [lia | lia | |].
    { apply (phased_weaken 2 2); [lia | lia |].
      apply (phased_of_emits 2 delete_shape); [apply stage_delete|].
      apply sync_delete_loop_emits. }
    intros deletion.
    apply (phased_bind 2 3 3); [lia | lia | |].
    { apply (phased_weaken 3 3); [lia | lia |].
      apply (phased_of_emits 3 restore_shape); [apply stage_restore|].
      apply sync_restore_loop_emits. }
    intros restored. apply phased_quiet_ret. }
  intros results.
  apply (phased_bind 3 3 3); [lia | lia | apply (phased_quiet 3 quiet); auto using now_sync_emits |].
  intros finish. apply finish_phased.
Qed.

Lemma sync_main_phased h ids : phased 0 3 (Sync.main h ids).
Proof.
  unfold Sync.main. apply (phased_try 0 3 3); [lia | lia | apply sync_main_body_phased |].
  intros e. apply (phased_quiet 3 quiet); [auto|].
  apply emits_bind; [apply emits_log | intros; apply emits_ret].
Qed.

Lemma v2_body_phased h ids : phased 0 3 (V2.delete_snapshots_body h ids).
Proof.
  unfold V2.delete_snapshots_body.
  apply (phased_bind 0 0 3); [lia | lia | |].
  { apply (phased_quiet 0 (fun c => c = account_show_command)); [now intros c -> |].
    eapply returns_emits. apply v2_login_returns. }
  intros logged. destruct logged; simpl negb; cbv iota;
    [|apply (phased_weaken 0 0); [lia | lia | apply phased_quiet_ret]].
  apply (phased_bind 0 0 3); [lia | lia | apply (phased_quiet 0 quiet); auto using now_v2_emits |].
  intros start.
  apply (phased_bind 0 0 3); [lia | lia | |].
  { apply (phased_quiet 0 (fun c => c = v2_account_list_command)); [now intros c -> |].
    apply v2_subscriptions_emits. }
  intros subs.
  apply (phased_bind 0 0 3); [lia | lia | |].
  { apply (phased_quiet 0 quiet); [auto | apply names_of_emits]. }
  intros names.
  apply (phased_bind 0 0 3); [lia | lia | |].
  { destruct (bool_decide _); [apply phased_quiet_log | apply phased_quiet_ret]. }
  intros _.
  apply (phased_bind 0 0 3); [lia | lia | apply v2_validate_phased |].
  intros [valid pre].
  apply (phased_bind 0 3 3); [lia | lia | |].
  { destruct valid as [|v0 valid']; [apply (phased_weaken 0 0); [lia | lia | apply phased_quiet_ret]|].
    apply (phased_bind 0 1 3); [lia | lia | |].
    { apply (phased_weaken 1 1); [lia | lia |].
      apply (phased_of_emits 1 suspend_shape); [apply stage_suspend|].
      apply v2_remove_groups_emits. }
    intros removed.
    apply (phased_bind 1 2 3); [lia | lia | |].
    { apply (phased_weaken 2 2); [lia | lia |].
      apply (phased_of_emits 2 delete_shape); [apply stage_delete|].
      apply v2_delete_loop_emits. }
    intros deletion.
    apply (phased_bind 2 3 3); [lia | lia | |].
    { apply (phased_weaken 3 3); [lia | lia |].
      apply (phased_of_emits 3 restore_shape); [apply stage_restore|].
      apply v2_restore_loop_emits. }
    intros restored. apply phased_quiet_ret. }
  intros results.
  apply (phased_bind 3 3 3); [lia | lia | apply (phased_quiet 3 quiet); auto using now_v2_emits |].
  intros finish. apply finish_phased.
Qed.

Lemma v2_main_phased h ids : phased 0 3 (V2.delete_snapshots h ids).
Proof.
  unfold V2.delete_snapshots. apply (phased_try 0 3 3); [lia | lia | apply v2_body_phased |].
  intros e. apply (phased_quiet 3 quiet); [auto|].
  apply emits_bind; [apply emits_log | intros; apply emits_ret].
Qed.

(** The handler of the entry point returns the error reply. *)
Lemma try_except_total {A : Type} (m : M A) (handler : exn -> M A) tr :
  (forall e tr', exists a tr'', handler e tr' = (Ok a, tr'')) ->
  exists a tr', try_except m handler tr = (Ok a, tr').
Proof.
  intros Hh. unfold try_except. destruct (m tr) as [[a|e] tr']; eauto.
Qed.

(** C10. For every input list, every host and every earlier history, the
    entry point of either variant returns normally: the reply is the
    report (results, log_file, total_runtime) or the error dictionary, no
    exception reaches the caller, and the trace is only extended. *)
Theorem C10_entry_point_never_raises (h : host) (ids : list string) (tr : list event) :
  (exists reply ev,
      Sync.main h ids tr = (Ok reply, tr ++ ev)
      /\ ((exists results log_file total_runtime, reply = Report results log_file total_runtime)
          \/ (exists error, reply = Failure error)))
  /\ (exists reply ev,
      V2.delete_snapshots h ids tr = (Ok reply, tr ++ ev)
      /\ ((exists results log_file total_runtime, reply = Report results log_file total_runtime)
          \/ (exists error, reply = Failure error))).
Proof.
  split.
  - destruct (sync_main_phased h ids tr) as (ev & E & _).
    destruct (try_except_total (Sync.main_body h ids)
                (fun e => log ERROR "An unexpected error occurred: {}\n{}" [AExn e] ;;
                          ret (Failure (StrOf e))) tr) as (reply & tr' & Er).
    { intros e tr'. do 2 eexists. reflexivity. }
    unfold Sync.main in *. rewrite Er in E. simpl in E. subst tr'.
    exists reply, ev. split; [exact Er|]. destruct reply; eauto.
  - destruct (v2_main_phased h ids tr) as (ev & E & _).
    destruct (try_except_total (V2.delete_snapshots_body h ids)
                (fun e => log ERROR "An unexpected error occurred: {}" [AExn e] ;;
                          ret (Failure (StrOf e))) tr) as (reply & tr' & Er).
    { intros e tr'. do 2 eexists. reflexivity. }
    unfold V2.delete_snapshots in *. rewrite Er in E. simpl in E. subst tr'.
    exists reply, ev. split; [exact Er|]. destruct reply; eauto.
Qed.

Lemma bind_ok {A B : Type} (m : M A) (k : A -> M B) tr a tr' :
  m tr = (Ok a, tr') -> bind m k tr = k a tr'.
Proof. intros E. unfold bind. now rewrite E. Qed.

Lemma bind_raise {A B : Type} (m : M A) (k : A -> M B) tr e tr' :
  m tr = (Raise e, tr') -> bind m k tr = (Raise e, tr').
Proof. intros E. unfold bind. now rewrite E. Qed.

Lemma emits_run {A : Type} (C : command -> Prop) (m : M A) tr r tr' :
  emits C m -> m tr = (r, tr') -> exists ev, tr' = tr ++ ev /\ Forall (only C) ev.
Proof. intros H E. destruct (H tr) as (ev & E' & F). rewrite E in E'. eauto. Qed.

Lemma no_commands logs : commands logs = [] -> forall C, Forall (only C) logs.
Proof.
  intros H C. induction logs as [|[c|lv t a] logs IH]; simpl in *;
    [constructor | discriminate | constructor; [exact I | auto]].
Qed.

(** ** Faults of the suspend phase *)



Lemma warning_run names tr :
  (if bool_decide (names = ∅)
   then log WARNING "Failed to fetch subscription names. Using IDs instead." []
   else ret tt) tr = (Ok tt, tr ++ names_warning names).
Proof.
  unfold names_warning. destruct (bool_decide _); [reflexivity|].
  unfold ret. now rewrite app_nil_r.
Qed.

(** The end of a run: clock, log file, reply. *)
Lemma sync_finish h results (start : Z) tr :
  exists r logs,
    try_except
      (let* end_time := Sync.now h in
       let* log_filename := generate_log_file h results (end_time - start)%Z in
       ret (Report results log_filename (end_time - start)%Z))
      (fun e =>
         log ERROR "An unexpected error occurred: {}\n{}" [AExn e] ;;
         ret (Failure (StrOf e))) tr = (r, tr ++ logs)
    /\ reports results r /\ commands logs = [].
Proof.
  unfold try_except, bind, Sync.now, generate_log_file, reports.
  destruct (makedirs h tr) as [why|]; simpl.
  - do 2 eexists. split; [reflexivity|]. split; [right; eauto | reflexivity].
  - destruct (write_file h tr _) as [why|]; simpl.
    + do 2 eexists. split; [reflexivity|]. split; [left; eauto | reflexivity].
    + exists (Ok (Report results
                (Some ("logs/snapshot_deletion_log_" +:+ env_user h +:+ "_" +:+ timestamp h tr
                       +:+ ".txt")) (clock h tr - start)%Z)), [].
      rewrite app_nil_r. split; [reflexivity|]. split; [left; eauto | reflexivity].
Qed.

Lemma v2_finish h results (start : Z) tr :
  exists r logs,
    try_except
      (let* end_time := V2.now h in
       let* log_filename := generate_log_file h results (end_time - start)%Z in
       ret (Report results log_filename (end_time - start)%Z))
      (fun e =>
         log ERROR "An unexpected error occurred: {}" [AExn e] ;;
         ret (Failure (StrOf e))) tr = (r, tr ++ logs)
    /\ reports results r /\ commands logs = [].
Proof.
  unfold try_except, bind, V2.now, generate_log_file, reports.
  destruct (makedirs h tr) as [why|]; simpl.
  - do 2 eexists. split; [reflexivity|]. split; [right; eauto | reflexivity].
  - destruct (write_file h tr _) as [why|]; simpl.
    + do 2 eexists. split; [reflexivity|]. split; [left; eauto | reflexivity].
    + exists (Ok (Report results
                (Some ("logs/snapshot_deletion_log_" +:+ env_user h +:+ "_" +:+ timestamp h tr
                       +:+ ".txt")) (clock h tr - start)%Z)), [].
      rewrite app_nil_r. split; [reflexivity|]. split; [left; eauto | reflexivity].
Qed.

Lemma try_bind_ok {A B : Type} (m : M A) (k : A -> M B) handler tr a tr' :
  m tr = (Ok a, tr') -> try_except (bind m k) handler tr = try_except (k a) handler tr'.
Proof. intros E. unfold try_except, bind. now rewrite E. Qed.

Lemma try_bind_raise {A B : Type} (m : M A) (k : A -> M B) handler tr e tr' :
  m tr = (Raise e, tr') -> try_except (bind m k) handler tr = handler e tr'.
Proof. intros E. unfold try_except, bind. now rewrite E. Qed.

Lemma read_only_quiet c : read_only c -> lock_or_delete c = false.
Proof. intros [-> | [-> | [-> | (id & ->)]]]; reflexivity. Qed.

Lemma only_read_only ev : Forall (only read_only) ev ->
  Forall (fun c => lock_or_delete c = false) (commands ev).
Proof.
  intros H. apply only_commands in H. eapply Forall_impl; [exact H|]. apply read_only_quiet.
Qed.

(** C8. When validation yields an empty valid set the run goes straight
    to reporting: beyond the login check, the account listing and the
    existence checks no command is issued (no lock list, lock delete, lock
    create or snapshot delete), and the reply carries exactly the
    validation outcomes. Both variants. *)
Theorem C8_empty_valid_set_skips_locks (h : host) (ids : list string) (tr : list event) :
  (forall tr1 names tr2 pre tr3,
      Sync.check_az_login h tr = (Ok true, tr1) ->
      Sync.get_subscription_names h tr1 = (Ok names, tr2) ->
      Sync.pre_validate_snapshots h ids names (tr2 ++ names_warning names) = (Ok ([], pre), tr3) ->
      exists ev,
        (Sync.main h ids tr).2 = tr ++ ev
        /\ Forall (fun c => lock_or_delete c = false) (commands ev)
        /\ reports pre (Sync.main h ids tr).1)
  /\ (forall tr1 subscriptions tr2 names pre tr3,
      V2.check_az_login h tr = (Ok true, tr1) ->
      V2.get_subscriptions h tr1 = (Ok subscriptions, tr2) ->
      names_of subscriptions ∅ tr2 = (Ok names, tr2) ->
      V2.pre_validate_snapshots h ids names (tr2 ++ names_warning names) = (Ok ([], pre), tr3) ->
      exists ev,
        (V2.delete_snapshots h ids tr).2 = tr ++ ev
        /\ Forall (fun c => lock_or_delete c = false) (commands ev)
        /\ reports pre (V2.delete_snapshots h ids tr).1).
Proof.
  split.
  - intros tr1 names tr2 pre tr3 H1 H2 H3.
    unfold Sync.main, Sync.main_body.
    rewrite (try_bind_ok _ _ _ _ _ _ H1). simpl negb. cbv iota.
    rewrite (try_bind_ok _ _ _ tr1 (clock h tr1) tr1) by reflexivity.
    rewrite (try_bind_ok _ _ _ _ _ _ H2).
    rewrite (try_bind_ok _ _ _ _ _ _ (warning_run names tr2)).
    rewrite (try_bind_ok _ _ _ _ _ _ H3). cbv beta iota.
    rewrite (try_bind_ok _ _ _ tr3 pre tr3) by reflexivity.
    destruct (sync_finish h pre (clock h tr1) tr3) as (r & logs & E & Hr & Hl).
    rewrite E. simpl.
    destruct (emits_run _ _ _ _ _ (returns_emits _ _ _ (sync_login_returns h)) H1) as (e1 & -> & F1).
    destruct (emits_run _ _ _ _ _ (sync_names_emits h) H2) as (e2 & -> & F2).
    destruct (emits_run _ _ _ _ _ (returns_emits _ _ _ (sync_validate_loop h names ids [] ∅)) H3)
      as (e3 & -> & F3).
    exists (e1 ++ e2 ++ names_warning names ++ e3 ++ logs).
    split; [now rewrite <- !app_assoc|]. split; [|exact Hr].
    apply only_read_only. repeat apply Forall_app_2.
    + eapply only_impl; [|exact F1]. intros c ->. now left.
    + eapply only_impl; [|exact F2]. intros c ->. right. now left.
    + unfold names_warning. destruct (bool_decide _); repeat constructor.
    + eapply only_impl; [|exact F3]. intros c (id & _ & ->). right. right. right. eauto.
    + now apply no_commands.
  - intros tr1 subs tr2 names pre tr3 H1 H2 Hn H3.
    unfold V2.delete_snapshots, V2.delete_snapshots_body.
    rewrite (try_bind_ok _ _ _ _ _ _ H1). simpl negb. cbv iota.
    rewrite (try_bind_ok _ _ _ tr1 (clock h tr1) tr1) by reflexivity.
    rewrite (try_bind_ok _ _ _ _ _ _ H2).
    rewrite (try_bind_ok _ _ _ _ _ _ Hn).
    rewrite (try_bind_ok _ _ _ _ _ _ (warning_run names tr2)).
    rewrite (try_bind_ok _ _ _ _ _ _ H3). cbv beta iota.
    rewrite (try_bind_ok _ _ _ tr3 pre tr3) by reflexivity.
    destruct (v2_finish h pre (clock h tr1) tr3) as (r & logs & E & Hr & Hl).
    rewrite E. simpl.
    destruct (emits_run _ _ _ _ _ (returns_emits _ _ _ (v2_login_returns h)) H1) as (e1 & -> & F1).
    destruct (emits_run _ _ _ _ _ (v2_subscriptions_emits h) H2) as (e2 & -> & F2).
    destruct (emits_run _ _ _ _ _ (returns_emits _ _ _ (v2_validate_loop h names ids [] ∅)) H3)
      as (e3 & -> & F3).
    exists (e1 ++ e2 ++ names_warning names ++ e3 ++ logs).
    split; [now rewrite <- !app_assoc|]. split; [|exact Hr].
    apply only_read_only. repeat apply Forall_app_2.
    + eapply only_impl; [|exact F1]. intros c ->. now left.
    + eapply only_impl; [|exact F2]. intros c ->. right. right. now left.
    + unfold names_warning. destruct (bool_decide _); repeat constructor.
    + eapply only_impl; [|exact F3]. intros c (id & _ & ->). right. right. right. eauto.
    + now apply no_commands.
Qed.

Lemma C8_witness :
  exists pre ev,
    (Sync.main (host_of az_missing) [snap_a; "not-a-valid-id"] []).2 = [] ++ ev
    /\ Forall (fun c => lock_or_delete c = false) (commands ev)
    /\ reports pre (Sync.main (host_of az_missing) [snap_a; "not-a-valid-id"] []).1.
Proof.
  eexists.
  eapply (proj1 (C8_empty_valid_set_skips_locks (host_of az_missing)
                   [snap_a; "not-a-valid-id"] [])).
  - reflexivity.
  - reflexivity.
  - reflexivity.
Defined.





(** ** The merge of the two reports *)

Lemma merge_step_lookup results item a :
  merge_step results item !! a =
    if decide (a = item.1)
    then Some (match results !! a with Some old => item.2 ∪ old | None => item.2 end)
    else results !! a.
Proof.
  unfold merge_step. destruct (decide (a = item.1)) as [->|Hne].
  - destruct (results !! item.1); now rewrite lookup_insert_eq.
  - destruct (results !! item.1); now rewrite lookup_insert_ne by congruence.
Qed.

Lemma foldl_merge_lookup (items : list (string * gmap string (list entry))) :
  forall results a,
    NoDup items.*1 ->
    foldl merge_step results items !! a =
      match (list_to_map items : gmap string (gmap string (list entry))) !! a with
      | Some d => Some (match results !! a with Some old => d ∪ old | None => d end)
      | None => results !! a
      end.
Proof.
  induction items as [|[k d] items IH]; intros results a Hnd; simpl.
  - now rewrite lookup_empty.
  - inversion Hnd as [|? ? Hk Hnd']; subst. rewrite IH by assumption.
    rewrite merge_step_lookup. simpl.
    destruct (decide (a = k)) as [->|Hne].
    + rewrite lookup_insert_eq.
      now rewrite (not_elem_of_list_to_map_1 _ _ Hk).
    + now rewrite lookup_insert_ne by congruence.
Qed.

Lemma merge_results_lookup pre deletion a :
  merge_results pre deletion !! a =
    match deletion !! a with
    | Some d => Some (match pre !! a with Some old => d ∪ old | None => d end)
    | None => pre !! a
    end.
Proof.
  unfold merge_results. rewrite foldl_merge_lookup by apply NoDup_fst_map_to_list.
  now rewrite list_to_map_to_list.
Qed.

(** On each status key the merged report reads the deletion report
    first and the validation report otherwise. *)
Lemma merge_results_status pre deletion a s :
  status_list (merge_results pre deletion) a s =
    match status_list deletion a s with
    | Some l => Some l
    | None => status_list pre a s
    end.
Proof.
  unfold status_list. rewrite merge_results_lookup.
  destruct (deletion !! a) as [d|]; simpl; [|reflexivity].
  destruct (pre !! a) as [old|]; simpl.
  - rewrite lookup_union. destruct (d !! s), (old !! s); reflexivity.
  - destruct (d !! s); reflexivity.
Qed.

Lemma statuses_disjoint s : s ∈ validation_statuses -> s ∈ deletion_statuses -> False.
Proof.
  unfold validation_statuses, deletion_statuses. intros Hv Hd.
  repeat (apply elem_of_cons in Hd as [-> | Hd]); [| |inversion Hd];
    repeat (apply elem_of_cons in Hv as [Hv | Hv]); try discriminate; inversion Hv.
Qed.

(** The merge is additive on reports whose status keys are those of the
    two phases. *)
Lemma merge_additive pre deletion a s l :
  statuses_within validation_statuses pre ->
  statuses_within deletion_statuses deletion ->
  (status_list (merge_results pre deletion) a s = Some l
   <-> status_list pre a s = Some l \/ status_list deletion a s = Some l).
Proof.
  intros Hp Hd. rewrite merge_results_status.
  destruct (status_list deletion a s) as [ld|] eqn:Ed.
  - split; [intros [= <-]; now right|]. intros [Ep | [= <-]]; [|reflexivity].
    exfalso. eapply statuses_disjoint; eauto.
  - split; [now left|]. intros [Ep | Ed']; [exact Ep | discriminate].
Qed.

(** C5. For the reports that validation and deletion produce in a run of
    either variant, the merge is additive per account: a status list is in
    the merged report exactly when it is in the validation report or in
    the deletion report, with its entries unchanged. The phases never
    write the same status key, so the overwriting [update] drops nothing. *)
Theorem C5_merge_is_additive (h : host) (ids : list string) (names names' : gmap string string)
    (tr tr1 tr2 tr3 : list event) (valid : list string)
    (pre deletion : gmap string (gmap string (list entry))) :
  (Sync.pre_validate_snapshots h ids names tr = (Ok (valid, pre), tr1)
   /\ Sync.delete_valid_snapshots h valid names' tr2 = (Ok deletion, tr3))
  \/ (V2.pre_validate_snapshots h ids names tr = (Ok (valid, pre), tr1)
      /\ V2.delete_valid_snapshots h valid names' tr2 = (Ok deletion, tr3)) ->
  forall account status l,
    status_list (merge_results pre deletion) account status = Some l
    <-> status_list pre account status = Some l \/ status_list deletion account status = Some l.
Proof.
  intros Hrun account status l. apply merge_additive.
  - destruct Hrun as [[Hv _] | [Hv _]].
    + destruct (sync_validate_loop h names ids [] ∅ tr) as (out & ev & E & _ & _ & Hw & _).
      unfold Sync.pre_validate_snapshots in Hv. rewrite Hv in E. injection E as <- _.
      apply Hw, statuses_within_empty.
    + destruct (v2_validate_loop h names ids [] ∅ tr) as (out & ev & E & _ & _ & Hw & _).
      unfold V2.pre_validate_snapshots in Hv. rewrite Hv in E. injection E as <- _.
      apply Hw, statuses_within_empty.
  - destruct Hrun as [[Hv Hd] | [Hv Hd]].
    + destruct (sync_validate_loop h names ids [] ∅ tr)
        as (out & ev & E & _ & (v1 & Ev & Fv) & _).
      unfold Sync.pre_validate_snapshots in Hv. rewrite Hv in E. injection E as <- _.
      simpl in Ev. subst v1.
      destruct (sync_delete_loop h names' valid ∅) with (tr := tr2) as (d & ev' & E' & _ & Hok).
      { eapply Forall_impl; [exact Fv|]. now intros x [_ ?]. }
      unfold Sync.delete_valid_snapshots in Hd. rewrite Hd in E'. injection E' as <- _.
      apply Hok, statuses_within_empty.
    + destruct (v2_validate_loop h names ids [] ∅ tr)
        as (out & ev & E & _ & (v1 & Ev & Fv) & _).
      unfold V2.pre_validate_snapshots in Hv. rewrite Hv in E. injection E as <- _.
      simpl in Ev. subst v1.
      destruct (v2_delete_loop h names' valid ∅) with (tr := tr2) as (d & ev' & E' & _ & Hok).
      { eapply Forall_impl; [exact Fv|]. now intros x [_ ?]. }
      unfold V2.delete_valid_snapshots in Hd. rewrite Hd in E'. injection E' as <- _.
      apply Hok, statuses_within_empty.
Qed.

(** ** The restore phase, entry by entry *)

Lemma creates_app ev1 ev2 : creates (ev1 ++ ev2) = creates ev1 ++ creates ev2.
Proof. unfold creates. now rewrite commands_app, filter_app. Qed.

Lemma reported_orphans_app ev1 ev2 :
  reported_orphans (ev1 ++ ev2) = reported_orphans ev1 ++ reported_orphans ev2.
Proof. apply omap_app. Qed.

Lemma creates_log lv t a ev : creates (Logged lv t a :: ev) = creates ev.
Proof. reflexivity. Qed.

Lemma creates_exec argv ev : creates (Ran (Exec argv) :: ev) = creates ev.
Proof. reflexivity. Qed.

Lemma orphans_ran c ev : reported_orphans (Ran c :: ev) = reported_orphans ev.
Proof. reflexivity. Qed.

Lemma orphans_info t a ev : reported_orphans (Logged INFO t a :: ev) = reported_orphans ev.
Proof. reflexivity. Qed.

Lemma sync_run_shell_exact h l tr :
  Sync.run_az_command h (Shell l) tr =
    (Ok (sync_reading (az h tr (Shell l))),
     tr ++ Ran (Shell l) :: sync_run_logs (az h tr (Shell l))).
Proof.
  unfold Sync.run_az_command, sync_reading, sync_run_logs.
  destruct (az h tr _) as [rc out err|why]; try destruct (rc =? 0)%Z;
    rewrite <- ?app_assoc; reflexivity.
Qed.

Lemma v2_run_exact h c tr :
  V2.run_az_command h c tr =
    (Ok (v2_reading (az h (v2_asked tr c) c)),
     v2_asked tr c ++ Ran c :: v2_run_logs c (az h (v2_asked tr c) c)).
Proof.
  unfold V2.run_az_command, v2_reading, v2_run_logs, v2_asked.
  destruct (az h _ _) as [rc out err|why]; try destruct (rc =? 0)%Z;
    rewrite <- ?app_assoc; reflexivity.
Qed.

Lemma sync_run_logs_silent r :
  creates (sync_run_logs r) = [] /\ reported_orphans (sync_run_logs r) = [].
Proof. destruct r; split; reflexivity. Qed.

Lemma v2_run_logs_silent c r :
  creates (v2_run_logs c r) = [] /\ reported_orphans (v2_run_logs c r) = [].
Proof. destruct r as [rc out err|why]; simpl; [destruct (rc =? 0)%Z|]; split; reflexivity. Qed.

(** An account switch that returns leaves no lock re-creation and no
    failure record of the restore loop in the trace. *)
Lemma sync_switch_silent h s cur tr c tr1 :
  Sync.switch_subscription h s cur tr = (Ok c, tr1) ->
  exists ev, tr1 = tr ++ ev /\ creates ev = [] /\ reported_orphans ev = [].
Proof.
  unfold Sync.switch_subscription. destruct (bool_decide _).
  - intros [= <- <-]. exists []. now rewrite app_nil_r.
  - unfold try_except, bind, Sync.run_az_command, log, ret, raise.
    destruct (az h tr _) as [rc out err|why]; [destruct (rc =? 0)%Z|]; simpl;
      intros [= <- <-]; rewrite <- ?app_assoc; eexists; (split; [reflexivity|]);
      split; reflexivity.
Qed.

Lemma v2_switch_silent h s cur tr :
  exists c ev, V2.switch_subscription h s cur tr = (Ok c, tr ++ ev)
               /\ creates ev = [] /\ reported_orphans ev = [].
Proof.
  unfold V2.switch_subscription. destruct (bool_decide _).
  - exists cur, []. unfold ret. now rewrite app_nil_r.
  - unfold try_except, bind. rewrite v2_run_exact. unfold log, ret, v2_asked.
    do 2 eexists. rewrite <- !app_assoc. split; [reflexivity|].
    destruct (v2_run_logs_silent
                (Exec ["az"; "account"; "set"; "--subscription"; s])
                (az h (tr ++ [Logged INFO "Running Azure command: {}"
                                [ACommand (Exec ["az"; "account"; "set"; "--subscription"; s])]])
                   (Exec ["az"; "account"; "set"; "--subscription"; s]))) as [Hc Ho].
    cbn [app].
    rewrite creates_log, creates_exec, orphans_info, orphans_ran.
    rewrite creates_app, reported_orphans_app, Hc, Ho. split; reflexivity.
Qed.

Lemma sync_restore_loop_spec h ledger : forall cur R0 tr R tr',
  Sync.restore_loop h ledger cur R0 tr = (Ok R, tr') ->
  exists ev, tr' = tr ++ ev /\ restored_all h ledger R0 R ev.
Proof.
  induction ledger as [|[[s g] n] rest IH]; intros cur R0 tr R tr'; simpl.
  - intros [= <- <-]. exists []. rewrite app_nil_r. split; [reflexivity|].
    exists [], []. rewrite app_nil_r. repeat split; reflexivity.
  - unfold bind at 1.
    destruct (Sync.switch_subscription h s cur tr) as [[c|e] tr1] eqn:Esw; [|discriminate].
    destruct (sync_switch_silent _ _ _ _ _ _ Esw) as (ev1 & -> & Hc1 & Ho1).
    unfold bind at 1. rewrite sync_run_shell_exact.
    set (cmd := Shell ("az lock create --name " +:+ py_str h n +:+ " --resource-group " +:+ g
                       +:+ " --lock-type CanNotDelete")).
    set (r := az h (tr ++ ev1) cmd).
    destruct (sync_run_logs_silent r) as [Hc2 Ho2].
    destruct (negb (Py.startswith "Error:" (sync_reading r))); unfold bind at 1, log;
      intros Hrun; apply IH in Hrun as (ev & -> & (R1 & O & -> & Hc & Ho & Hp)).
    + eexists. rewrite <- !app_assoc. split; [reflexivity|].
      exists ((s, g, n) :: R1), O. split; [reflexivity|].
      rewrite !creates_app, !reported_orphans_app, Hc1, Ho1, Hc, Ho.
      change (creates (Ran cmd :: sync_run_logs r)) with (cmd :: creates (sync_run_logs r)).
      rewrite orphans_ran, Hc2, Ho2.
      repeat split; try reflexivity. simpl. now constructor.
    + eexists. rewrite <- !app_assoc. split; [reflexivity|].
      exists R1, ((s, g, n) :: O). split; [reflexivity|].
      rewrite !creates_app, !reported_orphans_app, Hc1, Ho1, Hc, Ho.
      change (creates (Ran cmd :: sync_run_logs r)) with (cmd :: creates (sync_run_logs r)).
      rewrite orphans_ran, Hc2, Ho2.
      repeat split; try reflexivity.
      rewrite <- Permutation_middle. now constructor.
Qed.

Lemma v2_restore_loop_spec h ledger : forall cur R0 tr,
  exists R ev, V2.restore_loop h ledger cur R0 tr = (Ok R, tr ++ ev)
               /\ restored_all h ledger R0 R ev.
Proof.
  induction ledger as [|[[s g] n] rest IH]; intros cur R0 tr; simpl.
  - exists R0, []. unfold ret. rewrite app_nil_r. split; [reflexivity|].
    exists [], []. rewrite app_nil_r. repeat split; reflexivity.
  - destruct (v2_switch_silent h s cur tr) as (c & ev1 & Esw & Hc1 & Ho1).
    rewrite (bind_ok _ _ _ _ _ Esw).
    unfold bind at 1. rewrite v2_run_exact.
    set (cmd := Shell ("az lock create --name " +:+ py_str h n +:+ " --resource-group " +:+ g
                       +:+ " --lock-type CanNotDelete")).
    set (r := az h (v2_asked (tr ++ ev1) cmd) cmd).
    destruct (v2_run_logs_silent cmd r) as [Hc2 Ho2].
    destruct (V2.succeeded (v2_reading r)); unfold bind at 1, log.
    + destruct (IH c (R0 ++ [(s, g, n)])
                  ((v2_asked (tr ++ ev1) cmd ++ Ran cmd :: v2_run_logs cmd r)
                   ++ [Logged INFO "Restored lock '{}' to resource group '{}'"
                         [AValue n; AText g]]))
        as (R & ev & E & (R1 & O & -> & Hc & Ho & Hp)).
      rewrite E. unfold v2_asked. do 2 eexists. rewrite <- !app_assoc.
      split; [reflexivity|].
      exists ((s, g, n) :: R1), O. split; [reflexivity|].
      rewrite !creates_app, !reported_orphans_app, Hc1, Ho1, Hc, Ho.
      change (creates (Ran cmd :: v2_run_logs cmd r))
        with (cmd :: creates (v2_run_logs cmd r)).
      rewrite orphans_ran, Hc2, Ho2.
      repeat split; try reflexivity. simpl. now constructor.
    + destruct (IH c R0
                  ((v2_asked (tr ++ ev1) cmd ++ Ran cmd :: v2_run_logs cmd r)
                   ++ [Logged ERROR "Failed to restore lock '{}' to resource group '{}': {}"
                         [AValue n; AText g; AResult (v2_reading r)]]))
        as (R & ev & E & (R1 & O & -> & Hc & Ho & Hp)).
      rewrite E. unfold v2_asked. do 2 eexists. rewrite <- !app_assoc.
      split; [reflexivity|].
      exists R1, ((s, g, n) :: O). split; [reflexivity|].
      rewrite !creates_app, !reported_orphans_app, Hc1, Ho1, Hc, Ho.
      change (creates (Ran cmd :: v2_run_logs cmd r))
        with (cmd :: creates (v2_run_logs cmd r)).
      rewrite orphans_ran, Hc2, Ho2.
      repeat split; try reflexivity.
      rewrite <- Permutation_middle. now constructor.
Qed.

Lemma sync_restore_loop_returns h ledger :
  (forall t s rc out err,
      az h t (Exec ["az"; "account"; "set"; "--subscription"; s]) = Exited rc out err ->
      rc = 0%Z) ->
  forall cur R0 tr, exists R tr', Sync.restore_loop h ledger cur R0 tr = (Ok R, tr').
Proof.
  intros Hset. induction ledger as [|[[s g] n] rest IH]; intros cur R0 tr; simpl.
  - do 2 eexists. reflexivity.
  - assert (Hsw : exists c tr1, Sync.switch_subscription h s cur tr = (Ok c, tr1)).
    { unfold Sync.switch_subscription. destruct (bool_decide _); [do 2 eexists; reflexivity|].
      unfold try_except, bind, Sync.run_az_command, log, ret, raise.
      destruct (az h tr _) as [rc out err|why] eqn:Er.
      - rewrite (Hset _ _ _ _ _ Er). simpl. do 2 eexists. reflexivity.
      - simpl. do 2 eexists. reflexivity. }
    destruct Hsw as (c & tr1 & Esw). rewrite (bind_ok _ _ _ _ _ Esw).
    unfold bind at 1. rewrite sync_run_shell_exact.
    destruct (negb (Py.startswith "Error:" _)); unfold bind at 1, log; apply IH.
Qed.

(** C3, as the code has it. A restore phase that returns has issued
    exactly one az lock create per ledger entry, in ledger order, under the
    entry's name and with lock type CanNotDelete; a failed re-creation is
    logged and the loop goes on; the restored entries together with the
    entries named in failure records are the ledger, entry for entry. This
    holds of both variants. The sequential phase does return whenever no
    az account set exits with a status other than zero: nothing else
    raises in it. *)
Theorem C3_restore_accounts_for_ledger (h : host) (ledger : list lock_ref) (tr : list event) :
  (forall restored tr',
      Sync.restore_scope_locks h ledger tr = (Ok restored, tr') ->
      exists orphaned ev,
        tr' = tr ++ ev
        /\ creates ev = map (lock_create_command h) ledger
        /\ reported_orphans ev = map orphan_key orphaned
        /\ restored ++ orphaned ≡ₚ ledger)
  /\ (forall restored tr',
      V2.restore_scope_locks h ledger tr = (Ok restored, tr') ->
      exists orphaned ev,
        tr' = tr ++ ev
        /\ creates ev = map (lock_create_command h) ledger
        /\ reported_orphans ev = map orphan_key orphaned
        /\ restored ++ orphaned ≡ₚ ledger)
  /\ ((forall t s rc out err,
          az h t (Exec ["az"; "account"; "set"; "--subscription"; s]) = Exited rc out err ->
          rc = 0%Z) ->
      exists restored tr', Sync.restore_scope_locks h ledger tr = (Ok restored, tr')).
Proof.
  split; [|split].
  - intros restored tr' Hrun. unfold Sync.restore_scope_locks in Hrun.
    apply sync_restore_loop_spec in Hrun as (ev & -> & (R1 & O & -> & Hc & Ho & Hp)).
    exists O, ev. auto.
  - intros restored tr' Hrun. unfold V2.restore_scope_locks in Hrun.
    destruct (v2_restore_loop_spec h ledger None [] tr)
      as (R & ev & E & (R1 & O & -> & Hc & Ho & Hp)).
    rewrite E in Hrun. injection Hrun as <- <-.
    exists O, ev. auto.
  - intros Hset. apply sync_restore_loop_returns, Hset.
Qed.

Lemma C3_witness :
  exists orphaned ev,
    [Ran (Exec ["az"; "account"; "set"; "--subscription"; "111"]);
     Logged INFO "Switched to subscription: {}" [AText "111"];
     Ran (lock_create_command (host_of az_create_fails) ("111", "rg1", JStr "keep"));
     Logged INFO "Restored lock '{}' to resource group '{}'" [AValue (JStr "keep"); AText "rg1"];
     Ran (Exec ["az"; "account"; "set"; "--subscription"; "222"]);
     Logged INFO "Switched to subscription: {}" [AText "222"];
     Ran (lock_create_command (host_of az_create_fails) ("222", "rg2", JStr "hold"));
     Logged ERROR restore_failure
       [AValue (JStr "hold"); AText "rg2"; AText "Error: ERROR: (ScopeLocked) The scope is locked."]]
    = [] ++ ev
    /\ creates ev = map (lock_create_command (host_of az_create_fails)) ledger_two
    /\ reported_orphans ev = map orphan_key orphaned
    /\ [("111", "rg1", JStr "keep")] ++ orphaned ≡ₚ ledger_two
    /\ exists restored tr',
         Sync.restore_scope_locks (host_of az_create_fails) ledger_two [] = (Ok restored, tr').
Proof.
  pose proof (C3_restore_accounts_for_ledger (host_of az_create_fails) ledger_two [])
    as (Hsync & _ & Hreturns).
  destruct (Hsync [("111", "rg1", JStr "keep")] _ ltac:(vm_compute; reflexivity))
    as (orphaned & ev & E & Hc & Ho & Hp).
  exists orphaned, ev. repeat (split; [assumption|]).
  apply Hreturns. intros t s rc out err H. vm_compute in H. now injection H as <- _ _.
Defined.

(** C3 as stated fails in the sequential variant: when the switch to the
    account of the second entry raises, the restore phase stops; the
    second lock is neither re-created nor named in a failure record. *)
Lemma C3_switch_failure_counterexample :
  (Sync.restore_scope_locks (host_of az_switch_fails) ledger_two []).1
    = Raise (CalledProcessError ["az"; "account"; "set"; "--subscription"; "222"] 1
               "ERROR: The subscription of '222' doesn't exist in cloud 'AzureCloud'.")
  /\ creates (Sync.restore_scope_locks (host_of az_switch_fails) ledger_two []).2
     = [lock_create_command (host_of az_switch_fails) ("111", "rg1", JStr "keep")]
  /\ reported_orphans (Sync.restore_scope_locks (host_of az_switch_fails) ledger_two []).2 = [].
Proof. repeat split; vm_compute; reflexivity. Qed.

Lemma validated_ids h names ids tr valid pre tr' :
  Sync.pre_validate_snapshots h ids names tr = (Ok (valid, pre), tr') ->
  Forall (fun id => 9 <= length (Py.split "/" id)) valid.
Proof.
  intros Hv. destruct (sync_validate_loop h names ids [] ∅ tr)
    as (out & ev & E & _ & (v1 & Ev & Fv) & _).
  unfold Sync.pre_validate_snapshots in Hv. rewrite Hv in E. injection E as <- _.
  simpl in Ev. subst v1. eapply Forall_impl; [exact Fv|]. now intros x [_ ?].
Qed.

Lemma v2_validated_ids h names ids tr valid pre tr' :
  V2.pre_validate_snapshots h ids names tr = (Ok (valid, pre), tr') ->
  Forall (fun id => 9 <= length (Py.split "/" id)) valid.
Proof.
  intros Hv. destruct (v2_validate_loop h names ids [] ∅ tr)
    as (out & ev & E & _ & (v1 & Ev & Fv) & _).
  unfold V2.pre_validate_snapshots in Hv. rewrite Hv in E. injection E as <- _.
  simpl in Ev. subst v1. eapply Forall_impl; [exact Fv|]. now intros x [_ ?].
Qed.

(** C1, as the code has it. The restore phase is reached by normal
    sequencing only. Once the suspend phase has returned its ledger, the
    deletion phase returns normally (on validated identifiers it cannot
    raise) and the restore phase is run over that very ledger, on the
    trace the deletion left. The reply follows from how the restore phase
    ends: when it returns, the run goes on to the report of the merged
    results; when an account switch raises in it, the handler of the
    entry point logs the fault and returns the error dictionary. When the
    suspend phase raises, the run ends there with the error dictionary:
    neither the deletion phase nor the restore phase is run, whatever the
    suspend phase had removed. *)
Theorem C1_restore_follows_returned_ledger (h : host) (ids : list string) (tr : list event) :
  forall tr1 names tr2 v valid pre tr3,
    Sync.check_az_login h tr = (Ok true, tr1) ->
    Sync.get_subscription_names h tr1 = (Ok names, tr2) ->
    Sync.pre_validate_snapshots h ids names (tr2 ++ names_warning names)
      = (Ok (v :: valid, pre), tr3) ->
    (forall ledger tr4,
        Sync.check_and_remove_scope_locks h (get_resource_groups_from_snapshots (v :: valid)) tr3
          = (Ok ledger, tr4) ->
        exists deletion tr5,
          Sync.delete_valid_snapshots h (v :: valid) names tr4 = (Ok deletion, tr5)
          /\ match Sync.restore_scope_locks h ledger tr5 with
             | (Ok restored, tr6) =>
                 exists logs,
                   (Sync.main h ids tr).2 = tr6 ++ logs /\ commands logs = []
                   /\ reports (merge_results pre deletion) (Sync.main h ids tr).1
             | (Raise e, tr6) =>
                 Sync.main h ids tr =
                   (Ok (Failure (StrOf e)),
                    tr6 ++ [Logged ERROR "An unexpected error occurred: {}\n{}" [AExn e]])
             end)
    /\ (forall e tr4,
        Sync.check_and_remove_scope_locks h (get_resource_groups_from_snapshots (v :: valid)) tr3
          = (Raise e, tr4) ->
        Sync.main h ids tr =
          (Ok (Failure (StrOf e)),
           tr4 ++ [Logged ERROR "An unexpected error occurred: {}\n{}" [AExn e]])).
Proof.
  intros tr1 names tr2 v valid pre tr3 H1 H2 H3.
  assert (Hmain : forall x, Sync.main h ids tr = x <->
            try_except
              (let* results :=
                 (let* removed_locks :=
                    Sync.check_and_remove_scope_locks h
                      (get_resource_groups_from_snapshots (v :: valid)) in
                  let* deletion_results := Sync.delete_valid_snapshots h (v :: valid) names in
                  Sync.restore_scope_locks h removed_locks ;;
                  ret (merge_results pre deletion_results)) in
               let* end_time := Sync.now h in
               let* log_filename :=
                 generate_log_file h results (end_time - clock h tr1) in
               ret (Report results log_filename (end_time - clock h tr1)))
              (fun e =>
                 log ERROR "An unexpected error occurred: {}\n{}" [AExn e] ;;
                 ret (Failure (StrOf e))) tr3 = x).
  { intros x. unfold Sync.main, Sync.main_body.
    rewrite (try_bind_ok _ _ _ _ _ _ H1). simpl negb. cbv iota.
    rewrite (try_bind_ok _ _ _ tr1 (clock h tr1) tr1) by reflexivity.
    rewrite (try_bind_ok _ _ _ _ _ _ H2).
    rewrite (try_bind_ok _ _ _ _ _ _ (warning_run names tr2)).
    rewrite (try_bind_ok _ _ _ _ _ _ H3). cbv beta iota. reflexivity. }
  split.
  - intros ledger tr4 H4.
    destruct (sync_delete_loop h names (v :: valid) ∅ (validated_ids _ _ _ _ _ _ _ H3) tr4)
      as (deletion & evd & Ed & _ & _).
    exists deletion, (tr4 ++ evd). split; [exact Ed|].
    destruct (Sync.restore_scope_locks h ledger (tr4 ++ evd)) as [[restored|e] tr6] eqn:Er.
    + destruct (sync_finish h (merge_results pre deletion) (clock h tr1) tr6)
        as (r & logs & E & Hr & Hl).
      assert (Sync.main h ids tr = (r, tr6 ++ logs)) as ->.
      { apply Hmain.
        rewrite (try_bind_ok _ _ _ tr3 (merge_results pre deletion) tr6); [exact E|].
        rewrite (bind_ok _ _ _ _ _ H4).
        unfold Sync.delete_valid_snapshots in Ed. unfold Sync.delete_valid_snapshots.
        rewrite (bind_ok _ _ _ _ _ Ed). rewrite (bind_ok _ _ _ _ _ Er). reflexivity. }
      simpl. eauto.
    + apply Hmain. rewrite (try_bind_raise _ _ _ tr3 e tr6); [reflexivity|].
      rewrite (bind_ok _ _ _ _ _ H4).
      unfold Sync.delete_valid_snapshots in Ed. unfold Sync.delete_valid_snapshots.
      rewrite (bind_ok _ _ _ _ _ Ed). now rewrite (bind_raise _ _ _ _ _ Er).
  - intros e tr4 H4. apply Hmain.
    rewrite (try_bind_raise _ _ _ tr3 e tr4); [reflexivity|].
    now rewrite (bind_raise _ _ _ _ _ H4).
Qed.

(** [run_eq H m] records the value of the closed run [m] as [H]. *)
Ltac run_eq H m :=
  let r := eval vm_compute in m in
  assert (H : m = r) by (vm_compute; reflexivity).

Lemma C1_witness :
  exists names v valid ledger tr4 pre deletion tr5,
    Sync.delete_valid_snapshots (host_of az_locked) (v :: valid) names tr4 = (Ok deletion, tr5)
    /\ match Sync.restore_scope_locks (host_of az_locked) ledger tr5 with
       | (Ok restored, tr6) =>
           exists logs,
             (Sync.main (host_of az_locked) [snap_a; snap_b] []).2 = tr6 ++ logs
             /\ commands logs = []
             /\ reports (merge_results pre deletion)
                  (Sync.main (host_of az_locked) [snap_a; snap_b] []).1
       | (Raise e, tr6) =>
           Sync.main (host_of az_locked) [snap_a; snap_b] [] =
             (Ok (Failure (StrOf e)),
              tr6 ++ [Logged ERROR "An unexpected error occurred: {}\n{}" [AExn e]])
       end.
Proof.
  run_eq H1 (Sync.check_az_login (host_of az_locked) []).
  lazymatch type of H1 with
  | _ = (_, ?t1) =>
      run_eq H2 (Sync.get_subscription_names (host_of az_locked) t1);
      lazymatch type of H2 with
      | _ = (Ok ?names, ?t2) =>
          run_eq H3 (Sync.pre_validate_snapshots (host_of az_locked) [snap_a; snap_b] names
                       (t2 ++ names_warning names));
          lazymatch type of H3 with
          | _ = (Ok (?v :: ?valid, ?pre), ?t3) =>
              run_eq H4 (Sync.check_and_remove_scope_locks (host_of az_locked)
                           (get_resource_groups_from_snapshots (v :: valid)) t3);
              lazymatch type of H4 with
              | _ = (Ok ?ledger, ?t4) =>
                  exists names, v, valid, ledger, t4, pre;
                  exact (proj1 (C1_restore_follows_returned_ledger (host_of az_locked)
                                  [snap_a; snap_b] [] _ _ _ _ _ _ _ H1 H2 H3)
                           _ _ H4)
              end
          end
      end
  end.
Defined.

(** C1 as stated fails. First run: the listing of the second resource
    group fails after the lock of the first was removed; the suspend phase
    raises, no lock is re-created, no snapshot is deleted, and the entry
    point returns the error dictionary. Second run: the suspend phase
    returns a ledger of two locks and both snapshots are deleted, then the
    switch to account 222 raises in the restore phase; the lock of rg2 is
    never re-created. *)
Lemma C1_no_guaranteed_restore_counterexample :
  (exists doc,
     (Sync.main (host_of az_second_listing_fails) [snap_a; snap_c] []).1
       = Ok (Failure (StrOf (JSONDecodeError doc))))
  /\ length (lock_deletes (Sync.main (host_of az_second_listing_fails) [snap_a; snap_c] []).2) = 1
  /\ creates (Sync.main (host_of az_second_listing_fails) [snap_a; snap_c] []).2 = []
  /\ (exists argv rc err,
     (Sync.main (host_of az_late_switch_fails) [snap_a; snap_c] []).1
       = Ok (Failure (StrOf (CalledProcessError argv rc err))))
  /\ length (lock_deletes (Sync.main (host_of az_late_switch_fails) [snap_a; snap_c] []).2) = 2
  /\ length (snapshot_deletes (Sync.main (host_of az_late_switch_fails) [snap_a; snap_c] []).2) = 2
  /\ Forall (fun c => c <> lock_create_command (host_of az_late_switch_fails)
                          ("222", "rg2", JStr "keep"))
       (commands (Sync.main (host_of az_late_switch_fails) [snap_a; snap_c] []).2).
Proof.
  destruct (Sync.main (host_of az_second_listing_fails) [snap_a; snap_c] []) as [r1 t1] eqn:E1.
  vm_compute in E1. injection E1 as <- <-.
  destruct (Sync.main (host_of az_late_switch_fails) [snap_a; snap_c] []) as [r2 t2] eqn:E2.
  vm_compute in E2. injection E2 as <- <-.
  split; [eexists; reflexivity|].
  split; [vm_compute; reflexivity|].
  split; [vm_compute; reflexivity|].
  split; [do 3 eexists; reflexivity|].
  split; [vm_compute; reflexivity|].
  split; [vm_compute; reflexivity|].
  repeat constructor; discriminate.
Qed.

(** C3 as stated also fails in a whole run: the second run above ends
    with the lock of rg2 removed, not re-created and not named in any
    failure record. *)
Lemma C3_whole_run_counterexample :
  In (lock_delete_command "keep" "rg2")
    (commands (Sync.main (host_of az_late_switch_fails) [snap_a; snap_c] []).2)
  /\ Forall (fun c => c <> lock_create_command (host_of az_late_switch_fails)
                          ("222", "rg2", JStr "keep"))
       (commands (Sync.main (host_of az_late_switch_fails) [snap_a; snap_c] []).2)
  /\ reported_orphans (Sync.main (host_of az_late_switch_fails) [snap_a; snap_c] []).2 = [].
Proof.
  destruct (Sync.main (host_of az_late_switch_fails) [snap_a; snap_c] []) as [r2 t2] eqn:E2.
  vm_compute in E2. injection E2 as <- <-.
  split; [|split].
  - simpl. repeat (first [left; reflexivity | right]).
  - repeat constructor; discriminate.
  - vm_compute. reflexivity.
Qed.

(** ** Distinct pairs, one listing per pair *)

Lemma resource_groups_fold ids : forall (acc : gset (string * string)) p,
  p ∈ foldl (fun resource_groups snapshot_id =>
               let parts := Py.split "/" snapshot_id in
               if bool_decide (5 ≤ length parts)
               then resource_groups ∪ {[ (nth 2 parts EmptyString, nth 4 parts EmptyString) ]}
               else resource_groups) acc ids
  <-> p ∈ acc \/ exists id, id ∈ ids /\ 5 <= length (Py.split "/" id) /\ p = pair_of id.
Proof.
  induction ids as [|id rest IH]; intros acc p; simpl.
  - split; [now left|]. intros [H | (id & Hin & _)]; [exact H | inversion Hin].
  - rewrite IH. destruct (bool_decide (5 ≤ length (Py.split "/" id))) eqn:E.
    + apply bool_decide_eq_true in E. rewrite elem_of_union, elem_of_singleton. split.
      * intros [[H | ->] | (x & Hx & Hl & ->)]; [now left | right | right].
        -- exists id. split; [now left | auto].
        -- exists x. split; [now right | auto].
      * intros [H | (x & Hx & Hl & ->)]; [now left; left|].
        apply elem_of_cons in Hx as [-> | Hx]; [left; now right | right; eauto].
    + apply bool_decide_eq_false in E. split.
      * intros [H | (x & Hx & Hl & ->)]; [now left | right].
        exists x. split; [now right | auto].
      * intros [H | (x & Hx & Hl & ->)]; [now left|].
        apply elem_of_cons in Hx as [-> | Hx]; [lia | right; eauto].
Qed.

Lemma resource_groups_spec ids p :
  p ∈ get_resource_groups_from_snapshots ids
  <-> exists id, id ∈ ids /\ 5 <= length (Py.split "/" id) /\ p = pair_of id.
Proof.
  unfold get_resource_groups_from_snapshots. rewrite resource_groups_fold.
  split; [intros [H | H]; [set_solver | exact H] | now right].
Qed.

Lemma listings_app ev1 ev2 : listings (ev1 ++ ev2) = listings ev1 ++ listings ev2.
Proof. unfold listings. now rewrite commands_app, filter_app. Qed.

Lemma listings_quiet (C : command -> Prop) ev :
  (forall c, C c -> is_lock_list c = false) -> Forall (only C) ev -> listings ev = [].
Proof.
  intros HC. unfold listings. induction 1 as [|[c|lv t a] ev Hc _ IH]; simpl; auto.
  rewrite filter_cons_False; [exact IH|]. rewrite (HC c Hc). discriminate.
Qed.

Lemma lists_quiet {A : Type} (C : command -> Prop) (m : M A) :
  (forall c, C c -> is_lock_list c = false) -> emits C m -> lists [] m.
Proof.
  intros HC H tr. destruct (H tr) as (ev & E & F). exists ev.
  rewrite (listings_quiet C ev HC F). split; [exact E|]. split; [reflexivity | auto].
Qed.

Lemma lists_bind {A B : Type} l1 l2 (m : M A) (k : A -> M B) :
  lists l1 m -> (forall a, lists l2 (k a)) -> lists (l1 ++ l2) (bind m k).
Proof.
  intros Hm Hk tr. unfold bind. destruct (Hm tr) as (ev & E & P & Hok).
  destruct (m tr) as [[a|e] tr1]; simpl in *; subst tr1.
  - destruct (Hk a (tr ++ ev)) as (ev' & E' & P' & Hok'). exists (ev ++ ev').
    rewrite E', app_assoc, listings_app, (Hok a eq_refl). split; [reflexivity|]. split.
    + now apply prefix_app.
    + intros b Hb. now rewrite (Hok' b Hb).
  - exists ev. split; [reflexivity|]. split; [now apply prefix_app_r | discriminate].
Qed.


Lemma lists_listing_v2 h g :
  lists [lock_list_command g] (V2.run_az_command h (lock_list_command g)).
Proof.
  intros tr. rewrite v2_run_exact. unfold v2_asked. eexists. rewrite <- app_assoc.
  split; [reflexivity|].
  assert (E : listings ([Logged INFO "Running Azure command: {}"
                           [ACommand (lock_list_command g)]]
                        ++ Ran (lock_list_command g)
                          :: v2_run_logs (lock_list_command g)
                               (az h (tr ++ [Logged INFO "Running Azure command: {}"
                                               [ACommand (lock_list_command g)]])
                                  (lock_list_command g)))
              = [lock_list_command g]).
  { unfold listings. simpl. rewrite filter_cons_True by reflexivity. f_equal.
    destruct (az h _ _) as [rc out err|why]; simpl; [destruct (rc =? 0)%Z|]; reflexivity. }
  rewrite E. split; [reflexivity | auto].
Qed.

Lemma account_set_no_listing c : is_account_set c = true -> is_lock_list c = false.
Proof. destruct c; [discriminate | reflexivity]. Qed.


Lemma v2_remove_groups_lists h groups : forall cur removed,
  lists (map (fun p => lock_list_command p.2) groups) (V2.remove_groups h groups cur removed).
Proof.
  induction groups as [|[s g] rest IH]; intros cur removed; simpl.
  - apply (lists_quiet (fun _ => False)); [tauto | apply emits_ret].
  - apply (lists_bind [] (_ :: _)).
    { apply (lists_quiet _ _ account_set_no_listing).
      eapply returns_emits, v2_switch_returns. }
    intros cur'. apply (lists_bind [_] _); [apply lists_listing_v2|]. intros listing.
    apply (lists_bind [] _).
    { apply (lists_quiet (fun _ => False)); [tauto | apply emits_lift]. }
    intros locks. apply (lists_bind [] _).
    { apply (lists_quiet (fun _ => False)); [tauto | apply emits_lift]. }
    intros items. apply (lists_bind [] _); [|intros removed'; apply IH].
    apply (lists_quiet (fun c => exists n g', c = lock_delete_command n g')).
    + intros c (n & g' & ->). reflexivity.
    + apply v2_remove_locks_deletes.
Qed.

Lemma C5_witness :
  exists pre deletion,
    forall account status l,
      status_list (merge_results pre deletion) account status = Some l
      <-> status_list pre account status = Some l
          \/ status_list deletion account status = Some l.
Proof.
  run_eq H1 (Sync.pre_validate_snapshots (host_of az_locked)
               [snap_a; snap_b; "not-a-valid-id"] ∅ []).
  lazymatch type of H1 with
  | _ = (Ok (?valid, ?pre), ?t1) =>
      run_eq H2 (Sync.delete_valid_snapshots (host_of az_locked) valid ∅ t1);
      lazymatch type of H2 with
      | _ = (Ok ?deletion, ?t2) =>
          exists pre, deletion;
          exact (C5_merge_is_additive (host_of az_locked) [snap_a; snap_b; "not-a-valid-id"]
                   ∅ ∅ [] t1 t1 t2 valid pre deletion (or_introl (conj H1 H2)))
      end
  end.
Defined.

(** ** Worked examples *)

Example split_resource_id :
  Py.split "/" snap_a =
    [""; "subscriptions"; "111"; "resourceGroups"; "rg1"; "providers";
     "Microsoft.Compute"; "snapshots"; "snap-a"].
Proof. reflexivity. Qed.

Example split_plain_word : Py.split "/" "not-a-valid-id" = ["not-a-valid-id"].
Proof. reflexivity. Qed.

Example strip_padded : Py.strip (String "009" " [] " +:+ String "010" "") = "[]".
Proof. reflexivity. Qed.

Example loads_lock_list :
  Json.loads locks_text =
    Some (JArr [JObj [("name", JStr "keep"); ("level", JStr "CanNotDelete")];
                JObj [("name", JStr "ro"); ("level", JStr "ReadOnly")]]).
Proof. vm_compute. reflexivity. Qed.

Example loads_numbers :
  Json.loads "[0, -12.5e3, true, null]" =
    Some (JArr [JNum "0"; JNum "-12.5e3"; JBool true; JNull]).
Proof. vm_compute. reflexivity. Qed.

Example loads_rejects_trailing : Json.loads "[] x" = None.
Proof. vm_compute. reflexivity. Qed.

Example merge_overwrites_on_collision :
  status_list
    (merge_results {[ "Prod" := {[ "valid" := [Name "a"] ]} ]}
                   {[ "Prod" := {[ "valid" := [Name "b"] ]} ]}) "Prod" "valid"
  = Some [Name "b"].
Proof. vm_compute. reflexivity. Qed.

(** * Further properties of the workflow and of the snapshot creator *)

(** ** Counting the entries of a report *)

Lemma sum_insert {A : Type} (f : A -> nat) (m : gmap string A) k x :
  sum_list (map (fun kv => f kv.2) (map_to_list (<[k := x]> m)))
    + from_option f 0 (m !! k)
  = sum_list (map (fun kv => f kv.2) (map_to_list m)) + f x.
Proof.
  destruct (m !! k) as [y|] eqn:E; simpl.
  - rewrite <- (insert_delete_eq m k x).
    rewrite (map_to_list_insert (delete k m) k x) by apply lookup_delete_eq.
    rewrite <- (map_to_list_delete m k y E). simpl. lia.
  - rewrite (map_to_list_insert m k x E). simpl. lia.
Qed.

Lemma status_count_empty : status_count ∅ = 0.
Proof. unfold status_count. rewrite map_to_list_empty. reflexivity. Qed.

Lemma entry_count_empty : entry_count ∅ = 0.
Proof. unfold entry_count. rewrite map_to_list_empty. reflexivity. Qed.

Lemma entry_count_append account status data results :
  entry_count (append_entry account status data results) = S (entry_count results).
Proof.
  unfold append_entry, entry_count.
  set (inner := default ∅ (results !! account)).
  pose proof (sum_insert status_count results account
                (<[status := default [] (inner !! status) ++ [data]]> inner)) as H1.
  pose proof (sum_insert (@length entry) inner status
                (default [] (inner !! status) ++ [data])) as H2.
  fold (status_count (<[status := default [] (inner !! status) ++ [data]]> inner)) in H2.
  fold (status_count inner) in H2.
  rewrite length_app in H2. simpl in H2.
  assert (from_option status_count 0 (results !! account) = status_count inner) as E1.
  { unfold inner. destruct (results !! account); simpl; [reflexivity|].
    symmetry. apply status_count_empty. }
  assert (from_option length 0 (inner !! status) = length (default [] (inner !! status))) as E2.
  { destruct (inner !! status); reflexivity. }
  lia.
Qed.

Lemma entry_count_ensure account results :
  entry_count (match results !! account with
               | Some _ => results
               | None => <[account := ∅]> results
               end) = entry_count results.
Proof.
  destruct (results !! account) eqn:E; [reflexivity|].
  unfold entry_count. rewrite (map_to_list_insert results account ∅ E). simpl.
  rewrite status_count_empty. reflexivity.
Qed.

(** ** The validation loop, call by call *)

Lemma wellformed_filter_cons_yes id ids :
  wellformed id -> filter wellformed (id :: ids) = id :: filter wellformed ids.
Proof. intros H. rewrite filter_cons. destruct (decide (wellformed id)); [reflexivity|tauto]. Qed.

Lemma wellformed_filter_cons_no id ids :
  ~ wellformed id -> filter wellformed (id :: ids) = filter wellformed ids.
Proof. intros H. rewrite filter_cons. destruct (decide (wellformed id)); [tauto|reflexivity]. Qed.

Lemma commands_cons_ran c ev : commands (Ran c :: ev) = c :: commands ev.
Proof. reflexivity. Qed.

Lemma sync_validate_loop_exact h names ids : forall v0 r0 tr,
  exists v1 results ev,
    Sync.validate_loop h ids names v0 r0 tr = (Ok (v0 ++ v1, results), tr ++ ev)
    /\ commands ev = map show_command (filter wellformed ids)
    /\ v1 `sublist_of` ids
    /\ entry_count results = entry_count r0 + length ids.
Proof.
  induction ids as [|id rest IH]; intros v0 r0 tr.
  - exists [], r0, []. simpl. unfold ret. rewrite !app_nil_r.
    repeat split; [constructor | lia].
  - destruct (decide (wellformed id)) as [Hw|Hw].
    + destruct (sync_process_wellformed h id names tr Hw) as (logs & E & Hl).
      set (status := if Py.startswith "Error:" (sync_reading (az h tr (show_command id)))
                     then "non-existent" else "valid") in E.
      cbn [Sync.validate_loop]. rewrite (bind_ok _ _ _ _ _ E).
      destruct (Sync.truthy (Some (account_of names id))) as [account|].
      * destruct (IH (if String.eqb status "valid" then v0 ++ [id] else v0)
                    (append_entry account status
                       (Name (Py.last_part (Py.split "/" id))) r0)
                    (tr ++ Ran (show_command id) :: logs)) as (v1 & results & ev & E' & Hc & Hs & Hn).
        exists (if String.eqb status "valid" then id :: v1 else v1), results,
          ((Ran (show_command id) :: logs) ++ ev).
        rewrite E', app_assoc. split; [|split; [|split]].
        -- destruct (String.eqb status "valid"); [rewrite <- app_assoc|]; reflexivity.
        -- rewrite commands_app, commands_cons_ran, Hl, Hc, wellformed_filter_cons_yes by exact Hw.
           reflexivity.
        -- destruct (String.eqb status "valid");
             [apply sublist_skip | apply sublist_cons]; exact Hs.
        -- rewrite Hn, entry_count_append. simpl. lia.
      * destruct (IH v0 (append_entry "Unknown" status
                           (Name (Py.last_part (Py.split "/" id))) r0)
                    (tr ++ Ran (show_command id) :: logs)) as (v1 & results & ev & E' & Hc & Hs & Hn).
        exists v1, results, ((Ran (show_command id) :: logs) ++ ev).
        rewrite E', app_assoc. split; [reflexivity|split; [|split]].
        -- rewrite commands_app, commands_cons_ran, Hl, Hc, wellformed_filter_cons_yes by exact Hw.
           reflexivity.
        -- apply sublist_cons; exact Hs.
        -- rewrite Hn, entry_count_append. simpl. lia.
    + assert (length (Py.split "/" id) < 9) as Hlt by (unfold wellformed in Hw; lia).
      pose proof (sync_process_malformed h id names tr Hlt) as E.
      cbn [Sync.validate_loop]. rewrite (bind_ok _ _ _ _ _ E).
      unfold malformed_verdict. cbn [Sync.truthy].
      destruct (IH v0 (append_entry "Unknown" "invalid"
                         (Detail id (Text "Invalid snapshot ID format")) r0)
                  (tr ++ [Logged ERROR "Invalid snapshot ID format: {}" [AText id]]))
        as (v1 & results & ev & E' & Hc & Hs & Hn).
      exists v1, results, ([Logged ERROR "Invalid snapshot ID format: {}" [AText id]] ++ ev).
      rewrite E', app_assoc. split; [reflexivity|split; [|split]].
      * rewrite commands_app, Hc, wellformed_filter_cons_no by exact Hw. reflexivity.
      * apply sublist_cons; exact Hs.
      * rewrite Hn, entry_count_append. simpl. lia.
Qed.

Lemma v2_validate_loop_exact h names ids : forall v0 r0 tr,
  exists v1 results ev,
    V2.validate_loop h ids names v0 r0 tr = (Ok (v0 ++ v1, results), tr ++ ev)
    /\ commands ev = map show_command (filter wellformed ids)
    /\ v1 `sublist_of` ids
    /\ entry_count results = entry_count r0 + length ids.
Proof.
  induction ids as [|id rest IH]; intros v0 r0 tr.
  - exists [], r0, []. simpl. unfold ret. rewrite !app_nil_r.
    repeat split; [constructor | lia].
  - destruct (decide (wellformed id)) as [Hw|Hw].
    + destruct (v2_process_wellformed h id names tr Hw) as (logs & E & Hl).
      set (status := if V2.succeeded
                          (v2_reading (az h (v2_asked tr (show_command id)) (show_command id)))
                     then "valid" else "non-existent") in E.
      cbn [V2.validate_loop]. rewrite (bind_ok _ _ _ _ _ E).
      assert (commands (v2_asked tr (show_command id) ++ Ran (show_command id) :: logs)
              = commands tr ++ [show_command id]) as Hcmd.
      { unfold v2_asked. rewrite !commands_app, commands_cons_ran, Hl. simpl.
        rewrite app_nil_r. reflexivity. }
      assert (exists ev0, v2_asked tr (show_command id) ++ Ran (show_command id) :: logs = tr ++ ev0
                          /\ commands ev0 = [show_command id]) as (ev0 & Hev0 & Hc0).
      { eexists. split; [unfold v2_asked; rewrite <- app_assoc; reflexivity|].
        rewrite commands_app, commands_cons_ran, Hl. reflexivity. }
      rewrite Hev0.
      destruct (Sync.truthy (Some (account_of names id))) as [account|].
      * destruct (IH (if String.eqb status "valid" then v0 ++ [id] else v0)
                    (append_entry account status
                       (Name (Py.last_part (Py.split "/" id))) r0)
                    (tr ++ ev0)) as (v1 & results & ev & E' & Hc & Hs & Hn).
        exists (if String.eqb status "valid" then id :: v1 else v1), results, (ev0 ++ ev).
        rewrite E', app_assoc. split; [|split; [|split]].
        -- destruct (String.eqb status "valid"); [rewrite <- app_assoc|]; reflexivity.
        -- rewrite commands_app, Hc0, Hc, wellformed_filter_cons_yes by exact Hw.
           reflexivity.
        -- destruct (String.eqb status "valid");
             [apply sublist_skip | apply sublist_cons]; exact Hs.
        -- rewrite Hn, entry_count_append. simpl. lia.
      * destruct (IH v0 (append_entry "Unknown" status
                           (Name (Py.last_part (Py.split "/" id))) r0)
                    (tr ++ ev0)) as (v1 & results & ev & E' & Hc & Hs & Hn).
        exists v1, results, (ev0 ++ ev).
        rewrite E', app_assoc. split; [reflexivity|split; [|split]].
        -- rewrite commands_app, Hc0, Hc, wellformed_filter_cons_yes by exact Hw.
           reflexivity.
        -- apply sublist_cons; exact Hs.
        -- rewrite Hn, entry_count_append. simpl. lia.
    + assert (length (Py.split "/" id) < 9) as Hlt by (unfold wellformed in Hw; lia).
      pose proof (v2_process_malformed h id names tr Hlt) as E.
      cbn [V2.validate_loop]. rewrite (bind_ok _ _ _ _ _ E).
      unfold malformed_verdict. cbn [Sync.truthy].
      destruct (IH v0 (append_entry "Unknown" "invalid"
                         (Detail id (Text "Invalid snapshot ID format")) r0)
                  (tr ++ [Logged ERROR "Invalid snapshot ID format: {}" [AText id]]))
        as (v1 & results & ev & E' & Hc & Hs & Hn).
      exists v1, results, ([Logged ERROR "Invalid snapshot ID format: {}" [AText id]] ++ ev).
      rewrite E', app_assoc. split; [reflexivity|split; [|split]].
      * rewrite commands_app, Hc, wellformed_filter_cons_no by exact Hw. reflexivity.
      * apply sublist_cons; exact Hs.
      * rewrite Hn, entry_count_append. simpl. lia.
Qed.

(** ** Validation under a client whose answers do not depend on the history *)

Lemma sync_process_repeatable h id names tr tr' :
  (forall t t' c, az h t c = az h t' c) ->
  (Sync.process_snapshot h id names tr).1 = (Sync.process_snapshot h id names tr').1.
Proof.
  intros Hst. destruct (decide (wellformed id)) as [Hw|Hw].
  - destruct (sync_process_wellformed h id names tr Hw) as (logs & E & _).
    destruct (sync_process_wellformed h id names tr' Hw) as (logs' & E' & _).
    rewrite E, E'. simpl. rewrite (Hst tr tr'). reflexivity.
  - assert (length (Py.split "/" id) < 9) as Hlt by (unfold wellformed in Hw; lia).
    rewrite !sync_process_malformed by exact Hlt. reflexivity.
Qed.

Lemma v2_process_repeatable h id names tr tr' :
  (forall t t' c, az h t c = az h t' c) ->
  (V2.process_snapshot h id names tr).1 = (V2.process_snapshot h id names tr').1.
Proof.
  intros Hst. destruct (decide (wellformed id)) as [Hw|Hw].
  - destruct (v2_process_wellformed h id names tr Hw) as (logs & E & _).
    destruct (v2_process_wellformed h id names tr' Hw) as (logs' & E' & _).
    rewrite E, E'. simpl.
    rewrite (Hst (v2_asked tr (show_command id)) (v2_asked tr' (show_command id))).
    reflexivity.
  - assert (length (Py.split "/" id) < 9) as Hlt by (unfold wellformed in Hw; lia).
    rewrite !v2_process_malformed by exact Hlt. reflexivity.
Qed.

Lemma sync_validate_loop_repeatable h names ids :
  (forall t t' c, az h t c = az h t' c) ->
  forall v0 r0 tr tr',
    (Sync.validate_loop h ids names v0 r0 tr).1 = (Sync.validate_loop h ids names v0 r0 tr').1.
Proof.
  intros Hst. induction ids as [|id rest IH]; intros v0 r0 tr tr'; [reflexivity|].
  cbn [Sync.validate_loop]. unfold bind.
  pose proof (sync_process_repeatable h id names tr tr' Hst) as Hp.
  destruct (Sync.process_snapshot h id names tr) as [[v|e] t1];
    destruct (Sync.process_snapshot h id names tr') as [[v'|e'] t1'];
    simpl in Hp; try discriminate; injection Hp as <-; [|reflexivity].
  destruct v as [[name status] data]. destruct (Sync.truthy name); apply IH.
Qed.

Lemma v2_validate_loop_repeatable h names ids :
  (forall t t' c, az h t c = az h t' c) ->
  forall v0 r0 tr tr',
    (V2.validate_loop h ids names v0 r0 tr).1 = (V2.validate_loop h ids names v0 r0 tr').1.
Proof.
  intros Hst. induction ids as [|id rest IH]; intros v0 r0 tr tr'; [reflexivity|].
  cbn [V2.validate_loop]. unfold bind.
  pose proof (v2_process_repeatable h id names tr tr' Hst) as Hp.
  destruct (V2.process_snapshot h id names tr) as [[v|e] t1];
    destruct (V2.process_snapshot h id names tr') as [[v'|e'] t1'];
    simpl in Hp; try discriminate; injection Hp as <-; [|reflexivity].
  destruct v as [[name status] data]. destruct (Sync.truthy name); apply IH.
Qed.

(** X1 (pre_validate_snapshots, process_snapshot, check_snapshot_exists).
    In both variants the validation phase returns normally and issues
    exactly one existence check for every identifier of nine segments or
    more, in input order, and no other command: an identifier of fewer
    segments costs no client call, and a failed check does not stop the
    checks that follow. *)
Theorem X1_one_existence_check_per_wellformed_identifier
    (h : host) (ids : list string) (names : gmap string string) (tr : list event) :
  (exists valid results ev,
      Sync.pre_validate_snapshots h ids names tr = (Ok (valid, results), tr ++ ev)
      /\ commands ev = map show_command (filter wellformed ids))
  /\ (exists valid results ev,
      V2.pre_validate_snapshots h ids names tr = (Ok (valid, results), tr ++ ev)
      /\ commands ev = map show_command (filter wellformed ids)).
Proof.
  split.
  - destruct (sync_validate_loop_exact h names ids [] ∅ tr) as (v1 & results & ev & E & Hc & _).
    exists v1, results, ev. split; [exact E | exact Hc].
  - destruct (v2_validate_loop_exact h names ids [] ∅ tr) as (v1 & results & ev & E & Hc & _).
    exists v1, results, ev. split; [exact E | exact Hc].
Qed.

(** X2 (pre_validate_snapshots). In both variants the list of valid
    identifiers handed to the later phases is a sub-sequence of the input:
    the identifiers keep their input order, none is invented, and none
    occurs more often than in the input. *)
Theorem X2_valid_list_is_subsequence_of_input
    (h : host) (ids : list string) (names : gmap string string) (tr : list event) :
  (exists valid results tr',
      Sync.pre_validate_snapshots h ids names tr = (Ok (valid, results), tr')
      /\ valid `sublist_of` ids)
  /\ (exists valid results tr',
      V2.pre_validate_snapshots h ids names tr = (Ok (valid, results), tr')
      /\ valid `sublist_of` ids).
Proof.
  split.
  - destruct (sync_validate_loop_exact h names ids [] ∅ tr) as (v1 & results & ev & E & _ & Hs & _).
    exists v1, results, (tr ++ ev). split; [exact E | exact Hs].
  - destruct (v2_validate_loop_exact h names ids [] ∅ tr) as (v1 & results & ev & E & _ & Hs & _).
    exists v1, results, (tr ++ ev). split; [exact E | exact Hs].
Qed.

(** X3 (pre_validate_snapshots). In both variants the validation report
    holds exactly one entry per input identifier, counted over all
    accounts and status lists: no identifier is dropped and none is
    recorded twice, duplicates of the input included. *)
Theorem X3_validation_report_has_one_entry_per_identifier
    (h : host) (ids : list string) (names : gmap string string) (tr : list event) :
  (exists valid results tr',
      Sync.pre_validate_snapshots h ids names tr = (Ok (valid, results), tr')
      /\ entry_count results = length ids)
  /\ (exists valid results tr',
      V2.pre_validate_snapshots h ids names tr = (Ok (valid, results), tr')
      /\ entry_count results = length ids).
Proof.
  split.
  - destruct (sync_validate_loop_exact h names ids [] ∅ tr) as (v1 & results & ev & E & _ & _ & Hn).
    exists v1, results, (tr ++ ev). split; [exact E|].
    rewrite Hn, entry_count_empty. reflexivity.
  - destruct (v2_validate_loop_exact h names ids [] ∅ tr) as (v1 & results & ev & E & _ & _ & Hn).
    exists v1, results, (tr ++ ev). split; [exact E|].
    rewrite Hn, entry_count_empty. reflexivity.
Qed.

(** X4 (pre_validate_snapshots, process_snapshot). When the client's
    answer to a command does not depend on what was run before, the
    outcome of validation (the valid list and the report) is the same from
    every history: validating again gives the same verdicts. Both
    variants. *)
Theorem X4_validation_is_repeatable
    (h : host) (ids : list string) (names : gmap string string) (tr tr' : list event) :
  (forall t t' c, az h t c = az h t' c) ->
  (Sync.pre_validate_snapshots h ids names tr).1 = (Sync.pre_validate_snapshots h ids names tr').1
  /\ (V2.pre_validate_snapshots h ids names tr).1 = (V2.pre_validate_snapshots h ids names tr').1.
Proof.
  intros Hst. split.
  - apply sync_validate_loop_repeatable; exact Hst.
  - apply v2_validate_loop_repeatable; exact Hst.
Qed.

Lemma X4_witness :
  (Sync.pre_validate_snapshots (host_of az_missing) [snap_a; "not-a-valid-id"] ∅ []).1
  = (Sync.pre_validate_snapshots (host_of az_missing) [snap_a; "not-a-valid-id"] ∅
       [Ran (show_command snap_a)]).1
  /\ (V2.pre_validate_snapshots (host_of az_missing) [snap_a; "not-a-valid-id"] ∅ []).1
  = (V2.pre_validate_snapshots (host_of az_missing) [snap_a; "not-a-valid-id"] ∅
       [Ran (show_command snap_a)]).1.
Proof.
  apply (X4_validation_is_repeatable (host_of az_missing) [snap_a; "not-a-valid-id"] ∅
           [] [Ran (show_command snap_a)]).
  intros t t' c. reflexivity.
Defined.

(** ** The deletion loop, call by call *)

Lemma sync_delete_snapshot_exact h id tr :
  Sync.delete_snapshot h id tr =
    (Ok (sync_delete_ok h tr id),
     tr ++ Ran (snapshot_delete_command id)
        :: sync_run_logs (az h tr (snapshot_delete_command id))).
Proof.
  unfold Sync.delete_snapshot.
  rewrite (bind_ok _ _ _ _ _ (sync_run_shell_exact h _ tr)). reflexivity.
Qed.

Lemma v2_delete_snapshot_exact h id tr :
  V2.delete_snapshot h id tr =
    (Ok (v2_delete_ok h (v2_asked tr (snapshot_delete_command id)) id),
     v2_asked tr (snapshot_delete_command id) ++ Ran (snapshot_delete_command id)
        :: v2_run_logs (snapshot_delete_command id)
             (az h (v2_asked tr (snapshot_delete_command id)) (snapshot_delete_command id))).
Proof.
  unfold V2.delete_snapshot.
  rewrite (bind_ok _ _ _ _ _ (v2_run_exact h _ tr)). reflexivity.
Qed.

Lemma sync_delete_loop_step h names id rest r0 tr :
  has_account id ->
  Sync.delete_loop h (id :: rest) names r0 tr =
    Sync.delete_loop h rest names
      (append_entry (account_of names id) (deletion_status (sync_delete_ok h tr id))
         (deletion_entry (sync_delete_ok h tr id) (name_of id))
         (ensure_account (account_of names id) r0))
      ((tr ++ Ran (snapshot_delete_command id)
           :: sync_run_logs (az h tr (snapshot_delete_command id)))
       ++ [deletion_record (sync_delete_ok h tr id) (name_of id) (account_of names id)]).
Proof.
  intros Hlen. cbn [Sync.delete_loop].
  rewrite (item_nth _ 2) by (unfold has_account in Hlen; lia).
  cbn [lift]. unfold bind at 1. unfold ret at 1.
  rewrite (bind_ok _ _ _ _ _ (sync_delete_snapshot_exact h id tr)).
  unfold account_of, name_of, ensure_account.
  destruct (sync_delete_ok h tr id); reflexivity.
Qed.

Lemma v2_delete_loop_step h names id rest r0 tr :
  has_account id ->
  V2.delete_loop h (id :: rest) names r0 tr =
    V2.delete_loop h rest names
      (append_entry (account_of names id)
         (deletion_status (v2_delete_ok h (v2_asked tr (snapshot_delete_command id)) id))
         (deletion_entry (v2_delete_ok h (v2_asked tr (snapshot_delete_command id)) id)
            (name_of id))
         (ensure_account (account_of names id) r0))
      ((v2_asked tr (snapshot_delete_command id) ++ Ran (snapshot_delete_command id)
           :: v2_run_logs (snapshot_delete_command id)
                (az h (v2_asked tr (snapshot_delete_command id)) (snapshot_delete_command id)))
       ++ [deletion_record (v2_delete_ok h (v2_asked tr (snapshot_delete_command id)) id)
             (name_of id) (account_of names id)]).
Proof.
  intros Hlen. cbn [V2.delete_loop].
  rewrite (item_nth _ 2) by (unfold has_account in Hlen; lia).
  cbn [lift]. unfold bind at 1. unfold ret at 1.
  rewrite (bind_ok _ _ _ _ _ (v2_delete_snapshot_exact h id tr)).
  unfold account_of, name_of, ensure_account.
  destruct (v2_delete_ok h (v2_asked tr (snapshot_delete_command id)) id); reflexivity.
Qed.

Lemma sync_run_logs_commands r : commands (sync_run_logs r) = [].
Proof. destruct r; reflexivity. Qed.

Lemma v2_run_logs_commands c r : commands (v2_run_logs c r) = [].
Proof. destruct r as [rc out err|why]; simpl; [destruct (rc =? 0)%Z|]; reflexivity. Qed.

Lemma deletion_record_commands ok name account :
  commands [deletion_record ok name account] = [].
Proof. destruct ok; reflexivity. Qed.

Lemma sync_delete_loop_exact h names valid : forall r0 tr,
  Forall has_account valid ->
  exists out ev,
    Sync.delete_loop h valid names r0 tr = (Ok out, tr ++ ev)
    /\ commands ev = map snapshot_delete_command valid
    /\ entry_count out = entry_count r0 + length valid.
Proof.
  induction valid as [|id rest IH]; intros r0 tr Hall.
  - exists r0, []. rewrite app_nil_r. simpl. repeat split. lia.
  - inversion Hall as [|? ? Hid Hrest]; subst.
    rewrite (sync_delete_loop_step h names id rest r0 tr Hid).
    edestruct IH as (out & ev & E & Hc & Hn); [exact Hrest|].
    rewrite E. exists out. eexists. split; [rewrite <- !app_assoc; reflexivity|]. split.
    + rewrite !commands_app, Hc, deletion_record_commands.
      cbn [app commands]. rewrite sync_run_logs_commands. reflexivity.
    + rewrite Hn, entry_count_append. unfold ensure_account.
      rewrite entry_count_ensure. simpl. lia.
Qed.

Lemma v2_delete_loop_exact h names valid : forall r0 tr,
  Forall has_account valid ->
  exists out ev,
    V2.delete_loop h valid names r0 tr = (Ok out, tr ++ ev)
    /\ commands ev = map snapshot_delete_command valid
    /\ entry_count out = entry_count r0 + length valid.
Proof.
  induction valid as [|id rest IH]; intros r0 tr Hall.
  - exists r0, []. rewrite app_nil_r. simpl. repeat split. lia.
  - inversion Hall as [|? ? Hid Hrest]; subst.
    rewrite (v2_delete_loop_step h names id rest r0 tr Hid).
    edestruct IH as (out & ev & E & Hc & Hn); [exact Hrest|].
    rewrite E. exists out. eexists. split.
    { unfold v2_asked. rewrite <- !app_assoc. reflexivity. }
    split.
    + rewrite !commands_app, Hc, deletion_record_commands.
      cbn [app commands]. rewrite v2_run_logs_commands. reflexivity.
    + rewrite Hn, entry_count_append. unfold ensure_account.
      rewrite entry_count_ensure. simpl. lia.
Qed.

Lemma item_short parts i :
  length parts <= i -> item parts i = inl (IndexError "list index out of range").
Proof.
  intros H. unfold item. rewrite (lookup_ge_None_2 parts i) by exact H. reflexivity.
Qed.

Lemma sync_delete_loop_short h names good bad rest : forall r0 tr,
  Forall has_account good -> ~ has_account bad ->
  exists ev,
    Sync.delete_loop h (good ++ bad :: rest) names r0 tr
      = (Raise (IndexError "list index out of range"), tr ++ ev)
    /\ commands ev = map snapshot_delete_command good.
Proof.
  induction good as [|id good IH]; intros r0 tr Hall Hbad.
  - exists []. rewrite app_nil_r. split; [|reflexivity].
    cbn [app Sync.delete_loop].
    rewrite (item_short _ 2) by (unfold has_account in Hbad; lia). reflexivity.
  - inversion Hall as [|? ? Hid Hrest]; subst.
    rewrite <- app_comm_cons, (sync_delete_loop_step h names id _ r0 tr Hid).
    edestruct IH as (ev & E & Hc); [exact Hrest|exact Hbad|].
    rewrite E. eexists. split; [rewrite <- !app_assoc; reflexivity|].
    rewrite !commands_app, Hc, deletion_record_commands.
    cbn [app commands]. rewrite sync_run_logs_commands. reflexivity.
Qed.

Lemma v2_delete_loop_short h names good bad rest : forall r0 tr,
  Forall has_account good -> ~ has_account bad ->
  exists ev,
    V2.delete_loop h (good ++ bad :: rest) names r0 tr
      = (Raise (IndexError "list index out of range"), tr ++ ev)
    /\ commands ev = map snapshot_delete_command good.
Proof.
  induction good as [|id good IH]; intros r0 tr Hall Hbad.
  - exists []. rewrite app_nil_r. split; [|reflexivity].
    cbn [app V2.delete_loop].
    rewrite (item_short _ 2) by (unfold has_account in Hbad; lia). reflexivity.
  - inversion Hall as [|? ? Hid Hrest]; subst.
    rewrite <- app_comm_cons, (v2_delete_loop_step h names id _ r0 tr Hid).
    edestruct IH as (ev & E & Hc); [exact Hrest|exact Hbad|].
    rewrite E. eexists. split.
    { unfold v2_asked. rewrite <- !app_assoc. reflexivity. }
    rewrite !commands_app, Hc, deletion_record_commands.
    cbn [app commands]. rewrite v2_run_logs_commands. reflexivity.
Qed.

(** ** The deletion report, list by list *)

Lemma status_list_ensure account results a s :
  status_list (ensure_account account results) a s = 
    match status_list results a s with
    | Some l => Some l
    | None => None
    end.
Proof.
  unfold ensure_account. destruct (results !! account) eqn:E.
  - destruct (status_list results a s); reflexivity.
  - unfold status_list. destruct (decide (a = account)) as [->|Hne].
    + rewrite lookup_insert_eq, E. simpl. apply lookup_empty.
    + rewrite lookup_insert_ne by congruence.
      destruct (results !! a ≫= _); reflexivity.
Qed.

Lemma listed_step (ok : string -> bool) names id rest a
    (r1 r0 : gmap string (gmap string (list entry))) (want_ok : bool) :
  (forall wanted,
      status_list r1 a wanted =
        if decide (a = account_of names id /\ wanted = deletion_status (ok id))
        then Some (default [] (status_list r0 (account_of names id) (deletion_status (ok id)))
                   ++ [deletion_entry (ok id) (name_of id)])
        else status_list r0 a wanted) ->
  default [] (status_list r1 a (deletion_status want_ok))
    ++ map (fun id => deletion_entry want_ok (name_of id))
         (filter (fun id => account_of names id = a /\ ok id = want_ok) rest)
  = default [] (status_list r0 a (deletion_status want_ok))
    ++ map (fun id => deletion_entry want_ok (name_of id))
         (filter (fun id => account_of names id = a /\ ok id = want_ok) (id :: rest)).
Proof.
  intros E. rewrite E, filter_cons.
  destruct (decide (a = account_of names id /\ deletion_status want_ok = deletion_status (ok id)))
    as [[-> Hs]|Hn].
  - assert (ok id = want_ok) as Hok by (destruct (ok id), want_ok; simpl in Hs; congruence).
    destruct (decide (account_of names id = account_of names id /\ ok id = want_ok)); [|tauto].
    simpl. rewrite Hok, <- app_assoc. reflexivity.
  - destruct (decide (account_of names id = a /\ ok id = want_ok)) as [[<- <-]|]; [|reflexivity].
    tauto.
Qed.

Lemma sync_delete_loop_listed h names valid :
  (forall t t' c, az h t c = az h t' c) ->
  forall r0 tr out tr',
    Forall has_account valid ->
    Sync.delete_loop h valid names r0 tr = (Ok out, tr') ->
    forall a,
      default [] (status_list out a "deleted")
        = default [] (status_list r0 a "deleted") ++ deleted_of (sync_delete_ok h []) names a valid
      /\ default [] (status_list out a "failed")
        = default [] (status_list r0 a "failed") ++ failed_of (sync_delete_ok h []) names a valid.
Proof.
  intros Hst. induction valid as [|id rest IH]; intros r0 tr out tr' Hall E a.
  - injection E as <- <-. unfold deleted_of, failed_of. simpl. rewrite !app_nil_r. tauto.
  - inversion Hall as [|? ? Hid Hrest]; subst.
    rewrite (sync_delete_loop_step h names id rest r0 tr Hid) in E.
    assert (sync_delete_ok h tr id = sync_delete_ok h [] id) as Hok.
    { unfold sync_delete_ok. rewrite (Hst tr []). reflexivity. }
    rewrite Hok in E.
    destruct (IH _ _ _ _ Hrest E a) as [Hd Hf]. rewrite Hd, Hf. clear Hd Hf E IH.
    set (okb := sync_delete_ok h [] id).
    set (r1 := append_entry _ _ _ _).
    assert (forall wanted, status_list r1 a wanted =
              if decide (a = account_of names id /\ wanted = deletion_status okb)
              then Some (default [] (status_list r0 (account_of names id) (deletion_status okb))
                         ++ [deletion_entry okb (name_of id)])
              else status_list r0 a wanted) as Hr1.
    { intros wanted. unfold r1. rewrite status_list_append, !status_list_ensure.
      destruct (decide _); [|destruct (status_list r0 a wanted); reflexivity].
      destruct (status_list r0 _ _); reflexivity. }
    split.
    + unfold deleted_of.
      exact (listed_step (sync_delete_ok h []) names id rest a r1 r0 true Hr1).
    + unfold failed_of.
      exact (listed_step (sync_delete_ok h []) names id rest a r1 r0 false Hr1).
Qed.

Lemma v2_delete_loop_listed h names valid :
  (forall t t' c, az h t c = az h t' c) ->
  forall r0 tr out tr',
    Forall has_account valid ->
    V2.delete_loop h valid names r0 tr = (Ok out, tr') ->
    forall a,
      default [] (status_list out a "deleted")
        = default [] (status_list r0 a "deleted") ++ deleted_of (v2_delete_ok h []) names a valid
      /\ default [] (status_list out a "failed")
        = default [] (status_list r0 a "failed") ++ failed_of (v2_delete_ok h []) names a valid.
Proof.
  intros Hst. induction valid as [|id rest IH]; intros r0 tr out tr' Hall E a.
  - injection E as <- <-. unfold deleted_of, failed_of. simpl. rewrite !app_nil_r. tauto.
  - inversion Hall as [|? ? Hid Hrest]; subst.
    rewrite (v2_delete_loop_step h names id rest r0 tr Hid) in E.
    assert (v2_delete_ok h (v2_asked tr (snapshot_delete_command id)) id
            = v2_delete_ok h [] id) as Hok.
    { unfold v2_delete_ok. rewrite (Hst (v2_asked tr (snapshot_delete_command id)) []).
      reflexivity. }
    rewrite Hok in E.
    destruct (IH _ _ _ _ Hrest E a) as [Hd Hf]. rewrite Hd, Hf. clear Hd Hf E IH.
    set (okb := v2_delete_ok h [] id).
    set (r1 := append_entry _ _ _ _).
    assert (forall wanted, status_list r1 a wanted =
              if decide (a = account_of names id /\ wanted = deletion_status okb)
              then Some (default [] (status_list r0 (account_of names id) (deletion_status okb))
                         ++ [deletion_entry okb (name_of id)])
              else status_list r0 a wanted) as Hr1.
    { intros wanted. unfold r1. rewrite status_list_append, !status_list_ensure.
      destruct (decide _); [|destruct (status_list r0 a wanted); reflexivity].
      destruct (status_list r0 _ _); reflexivity. }
    split.
    + unfold deleted_of.
      exact (listed_step (v2_delete_ok h []) names id rest a r1 r0 true Hr1).
    + unfold failed_of.
      exact (listed_step (v2_delete_ok h []) names id rest a r1 r0 false Hr1).
Qed.

Ltac accounts_ok :=
  repeat (apply Forall_cons_2; [unfold has_account; vm_compute; lia|]); apply Forall_nil_2.

(** X5 (delete_valid_snapshots, delete_snapshot). For identifiers whose
    account segment exists (three segments or more, which validation
    guarantees), the sequential deletion phase returns normally, issues
    exactly one deletion per identifier in list order and nothing else,
    and its report holds exactly one entry per identifier: a failed
    deletion does not stop the deletions after it. The event-loop phase
    issues a prefix of the same deletions and no other command; whenever
    it returns it has issued them all and its report holds one entry per
    identifier. *)
Theorem X5_one_deletion_per_valid_identifier
    (h : host) (valid : list string) (names : gmap string string) (tr : list event) :
  Forall has_account valid ->
  (exists out ev,
      Sync.delete_valid_snapshots h valid names tr = (Ok out, tr ++ ev)
      /\ commands ev = map snapshot_delete_command valid
      /\ entry_count out = length valid)
  /\ (exists ev,
      (V2.delete_valid_snapshots h valid names tr).2 = tr ++ ev
      /\ commands ev `prefix_of` map snapshot_delete_command valid)
  /\ (forall out tr',
      V2.delete_valid_snapshots h valid names tr = (Ok out, tr') ->
      exists ev,
        tr' = tr ++ ev
        /\ commands ev = map snapshot_delete_command valid
        /\ entry_count out = length valid).
Proof.
  intros Hall. split; [|split].
  - destruct (sync_delete_loop_exact h names valid ∅ tr Hall) as (out & ev & E & Hc & Hn).
    exists out, ev. rewrite Hn, entry_count_empty. auto.
  - destruct (v2_delete_loop_exact h names valid ∅ tr Hall) as (out & ev & E & Hc & Hn).
    exists ev. unfold V2.delete_valid_snapshots. rewrite E, Hc. split; reflexivity.
  - intros out' tr' Hrun.
    destruct (v2_delete_loop_exact h names valid ∅ tr Hall) as (out & ev & E & Hc & Hn).
    unfold V2.delete_valid_snapshots in Hrun. rewrite E in Hrun. injection Hrun as <- <-.
    exists ev. rewrite Hn, entry_count_empty. auto.
Qed.

Lemma X5_witness :
  (exists out ev,
      Sync.delete_valid_snapshots (host_of az_delete_fails) [snap_a; snap_b] ∅ []
        = (Ok out, [] ++ ev)
      /\ commands ev = map snapshot_delete_command [snap_a; snap_b]
      /\ entry_count out = length [snap_a; snap_b])
  /\ (exists out ev,
      V2.delete_valid_snapshots (host_of az_delete_fails) [snap_a; snap_b] ∅ []
        = (Ok out, [] ++ ev)
      /\ commands ev = map snapshot_delete_command [snap_a; snap_b]
      /\ entry_count out = length [snap_a; snap_b]).
Proof.
  assert (Hall : Forall has_account [snap_a; snap_b]) by accounts_ok.
  pose proof (X5_one_deletion_per_valid_identifier (host_of az_delete_fails)
                [snap_a; snap_b] ∅ [] Hall) as (Hsync & _ & Hv2).
  split; [exact Hsync|].
  run_eq H (V2.delete_valid_snapshots (host_of az_delete_fails) [snap_a; snap_b] ∅ []).
  destruct (Hv2 _ _ H) as (ev & E & Hc & Hn).
  eexists. exists ev. rewrite H, E. auto.
Defined.

(** X6 (delete_valid_snapshots). An identifier of fewer than three
    segments ends the deletion phase with an exception. In the sequential
    variant it is IndexError, raised when the identifier's turn comes: the
    identifiers before it have been sent to deletion, the identifier
    itself and those after it have not. The event-loop phase does not
    return either; it has sent to deletion some of the first identifiers
    before the short one, and all of them when it ends with that
    IndexError. *)
Theorem X6_deletion_raises_at_identifier_without_account
    (h : host) (good : list string) (bad : string) (rest : list string)
    (names : gmap string string) (tr : list event) :
  Forall has_account good -> ~ has_account bad ->
  (exists ev,
      Sync.delete_valid_snapshots h (good ++ bad :: rest) names tr
        = (Raise (IndexError "list index out of range"), tr ++ ev)
      /\ commands ev = map snapshot_delete_command good)
  /\ (exists ev,
      (V2.delete_valid_snapshots h (good ++ bad :: rest) names tr).2 = tr ++ ev
      /\ commands ev `prefix_of` map snapshot_delete_command good
      /\ (forall out,
            (V2.delete_valid_snapshots h (good ++ bad :: rest) names tr).1 <> Ok out)
      /\ ((V2.delete_valid_snapshots h (good ++ bad :: rest) names tr).1
            = Raise (IndexError "list index out of range") ->
          commands ev = map snapshot_delete_command good)).
Proof.
  intros Hall Hbad. split.
  - apply sync_delete_loop_short; assumption.
  - destruct (v2_delete_loop_short h names good bad rest ∅ tr Hall Hbad) as (ev & E & Hc).
    exists ev. unfold V2.delete_valid_snapshots. rewrite E, Hc. cbn [fst snd].
    split; [reflexivity|]. split; [reflexivity|]. split; [discriminate | auto].
Qed.

Lemma X6_witness :
  (exists ev,
      Sync.delete_valid_snapshots (host_of az_locked) ([snap_a] ++ "snap-b" :: [snap_c]) ∅ []
        = (Raise (IndexError "list index out of range"), [] ++ ev)
      /\ commands ev = map snapshot_delete_command [snap_a])
  /\ (exists ev,
      (V2.delete_valid_snapshots (host_of az_locked) ([snap_a] ++ "snap-b" :: [snap_c]) ∅ []).2
        = [] ++ ev
      /\ commands ev `prefix_of` map snapshot_delete_command [snap_a]
      /\ (forall out,
            (V2.delete_valid_snapshots (host_of az_locked)
               ([snap_a] ++ "snap-b" :: [snap_c]) ∅ []).1 <> Ok out)
      /\ ((V2.delete_valid_snapshots (host_of az_locked)
             ([snap_a] ++ "snap-b" :: [snap_c]) ∅ []).1
            = Raise (IndexError "list index out of range") ->
          commands ev = map snapshot_delete_command [snap_a])).
Proof.
  apply (X6_deletion_raises_at_identifier_without_account
           (host_of az_locked) [snap_a] "snap-b" [snap_c] ∅ []).
  - accounts_ok.
  - unfold has_account; vm_compute; lia.
Defined.

(** X7 (delete_valid_snapshots, delete_snapshot). When the client's
    answer to a command does not depend on what was run before, the
    deletion report is determined list by list: under each account key
    the deleted list holds, in input order, the names of that account's
    identifiers whose deletion succeeded, and the failed list holds the
    others, each with the reason Deletion failed. The sequential phase
    returns such a report; so does the event-loop phase whenever it
    returns. *)
Theorem X7_deletion_report_lists_each_outcome
    (h : host) (valid : list string) (names : gmap string string) (tr : list event) :
  (forall t t' c, az h t c = az h t' c) ->
  Forall has_account valid ->
  (exists out tr',
      Sync.delete_valid_snapshots h valid names tr = (Ok out, tr')
      /\ forall account,
           default [] (status_list out account "deleted")
             = deleted_of (sync_delete_ok h []) names account valid
           /\ default [] (status_list out account "failed")
             = failed_of (sync_delete_ok h []) names account valid)
  /\ (forall out tr',
      V2.delete_valid_snapshots h valid names tr = (Ok out, tr') ->
      forall account,
        default [] (status_list out account "deleted")
          = deleted_of (v2_delete_ok h []) names account valid
        /\ default [] (status_list out account "failed")
          = failed_of (v2_delete_ok h []) names account valid).
Proof.
  intros Hst Hall. split.
  - destruct (sync_delete_loop_exact h names valid ∅ tr Hall) as (out & ev & E & _).
    exists out, (tr ++ ev). split; [exact E|]. intros account.
    exact (sync_delete_loop_listed h names valid Hst ∅ tr out _ Hall E account).
  - intros out tr' E account.
    exact (v2_delete_loop_listed h names valid Hst ∅ tr out _ Hall E account).
Qed.

Lemma X7_witness :
  (exists out tr',
      Sync.delete_valid_snapshots (host_of az_b_locked) [snap_a; snap_b; snap_c] ∅ []
        = (Ok out, tr')
      /\ forall account,
           default [] (status_list out account "deleted")
             = deleted_of (sync_delete_ok (host_of az_b_locked) []) ∅ account
                 [snap_a; snap_b; snap_c]
           /\ default [] (status_list out account "failed")
             = failed_of (sync_delete_ok (host_of az_b_locked) []) ∅ account
                 [snap_a; snap_b; snap_c])
  /\ (exists out tr',
      V2.delete_valid_snapshots (host_of az_b_locked) [snap_a; snap_b; snap_c] ∅ []
        = (Ok out, tr')
      /\ forall account,
           default [] (status_list out account "deleted")
             = deleted_of (v2_delete_ok (host_of az_b_locked) []) ∅ account
                 [snap_a; snap_b; snap_c]
           /\ default [] (status_list out account "failed")
             = failed_of (v2_delete_ok (host_of az_b_locked) []) ∅ account
                 [snap_a; snap_b; snap_c]).
Proof.
  assert (Hall : Forall has_account [snap_a; snap_b; snap_c]) by accounts_ok.
  pose proof (X7_deletion_report_lists_each_outcome (host_of az_b_locked)
                [snap_a; snap_b; snap_c] ∅ [] (fun t t' c => eq_refl) Hall) as (Hsync & Hv2).
  split; [exact Hsync|].
  run_eq H (V2.delete_valid_snapshots (host_of az_b_locked) [snap_a; snap_b; snap_c] ∅ []).
  do 2 eexists. split; [exact H|]. exact (Hv2 _ _ H).
Defined.

Example deleted_of_b_locked :
  deleted_of (sync_delete_ok (host_of az_b_locked) []) ∅ "111" [snap_a; snap_b; snap_c]
    = [Name "snap-a"]
  /\ failed_of (sync_delete_ok (host_of az_b_locked) []) ∅ "111" [snap_a; snap_b; snap_c]
    = [Detail "snap-b" (Text "Deletion failed")]
  /\ deleted_of (sync_delete_ok (host_of az_b_locked) []) ∅ "222" [snap_a; snap_b; snap_c]
    = [Name "snap-c"].
Proof. repeat split; vm_compute; reflexivity. Qed.

(** ** The lock loop of one resource group *)

Lemma bind_Ok_inv {A B : Type} (m : M A) (k : A -> M B) tr b tr' :
  bind m k tr = (Ok b, tr') -> exists a tr1, m tr = (Ok a, tr1) /\ k a tr1 = (Ok b, tr').
Proof.
  unfold bind. destruct (m tr) as [[a|e] tr1]; intros E; [|discriminate].
  exists a, tr1. split; [reflexivity | exact E].
Qed.

Lemma lift_Ok_inv {A : Type} (r : exn + A) tr a tr' :
  lift r tr = (Ok a, tr') -> r = inr a /\ tr' = tr.
Proof.
  destruct r as [e|x]; simpl; unfold raise, ret; intros E; [discriminate|].
  injection E as <- <-. split; reflexivity.
Qed.

Lemma lock_deletes_app ev1 ev2 : lock_deletes (ev1 ++ ev2) = lock_deletes ev1 ++ lock_deletes ev2.
Proof. unfold lock_deletes. rewrite commands_app. apply filter_app. Qed.

Lemma lock_deletes_quiet ev :
  Forall (fun c => is_lock_delete c = false) (commands ev) -> lock_deletes ev = [].
Proof.
  unfold lock_deletes. induction (commands ev) as [|c l IH]; intros H; [reflexivity|].
  inversion H as [|? ? Hc Hl]; subst. rewrite filter_cons.
  destruct (decide (is_lock_delete c = true)) as [Ht|_]; [congruence|]. apply IH, Hl.
Qed.

Lemma lock_deletes_command n g ev :
  lock_deletes (Ran (lock_delete_command n g) :: ev) = lock_delete_command n g :: lock_deletes ev.
Proof. reflexivity. Qed.

Lemma lock_deletes_log lv t a ev : lock_deletes (Logged lv t a :: ev) = lock_deletes ev.
Proof. reflexivity. Qed.

Lemma lock_deletes_ran c ev :
  is_lock_delete c = true -> lock_deletes (Ran c :: ev) = c :: lock_deletes ev.
Proof. intros H. unfold lock_deletes. cbn [commands]. rewrite filter_cons.
  destruct (decide (is_lock_delete c = true)); [reflexivity | contradiction]. Qed.

Lemma lock_deletes_ran_other c ev :
  is_lock_delete c = false -> lock_deletes (Ran c :: ev) = lock_deletes ev.
Proof. intros H. unfold lock_deletes. cbn [commands]. rewrite filter_cons.
  destruct (decide (is_lock_delete c = true)); [congruence | reflexivity]. Qed.

Lemma sync_remove_locks_exact h s g locks : forall removed tr,
  Forall listed_lock locks ->
  exists kept ev,
    Sync.remove_locks h s g locks removed tr = (Ok (removed ++ kept), tr ++ ev)
    /\ commands ev = map (removal_of h g) (filter (fun l => cannot_delete l = true) locks)
    /\ kept `sublist_of`
         map (fun l => (s, g, field "name" l)) (filter (fun l => cannot_delete l = true) locks).
Proof.
  induction locks as [|lock rest IH]; intros removed tr Hall.
  - exists [], []. rewrite !app_nil_r. repeat split. constructor.
  - inversion Hall as [|? ? (lv & Hlv & Hname) Hrest]; subst.
    cbn [Sync.remove_locks]. rewrite Hlv. cbn [lift].
    unfold bind at 1. unfold ret at 1.
    assert (cannot_delete lock = Value.eq_text lv "CanNotDelete") as Hcd.
    { unfold cannot_delete, field. rewrite Hlv. reflexivity. }
    rewrite filter_cons.
    destruct (Value.eq_text lv "CanNotDelete") eqn:Elv.
    + destruct (Hname eq_refl) as (n & Hn). rewrite Hn. cbn [lift].
      unfold bind at 1. unfold ret at 1.
      assert (field "name" lock = n) as Hf by (unfold field; rewrite Hn; reflexivity).
      destruct (decide (cannot_delete lock = true)) as [_|Hno]; [|congruence].
      rewrite (bind_ok _ _ _ _ _ (sync_run_shell_exact h _ tr)).
      fold (lock_delete_command (py_str h n) g).
      set (r := az h tr (lock_delete_command (py_str h n) g)).
      destruct (negb (Py.startswith "Error:" (sync_reading r))).
      * unfold bind at 1. cbn [log].
        edestruct (IH (removed ++ [(s, g, n)])) as (kept & ev & E & Hc & Hs); [exact Hrest|].
        rewrite E. exists ((s, g, n) :: kept). eexists.
        split; [rewrite <- !app_assoc; reflexivity|]. split.
        -- rewrite !commands_app, Hc. cbn [app commands map]. rewrite sync_run_logs_commands.
           unfold removal_of at 2. rewrite Hf. reflexivity.
        -- cbn [map]. rewrite Hf. apply sublist_skip, Hs.
      * unfold bind at 1. cbn [log].
        edestruct (IH removed) as (kept & ev & E & Hc & Hs); [exact Hrest|].
        rewrite E. exists kept. eexists.
        split; [rewrite <- !app_assoc; reflexivity|]. split.
        -- rewrite !commands_app, Hc. cbn [app commands map]. rewrite sync_run_logs_commands.
           unfold removal_of at 2. rewrite Hf. reflexivity.
        -- cbn [map]. apply sublist_cons, Hs.
    + destruct (decide (cannot_delete lock = true)) as [Hyes|_]; [congruence|].
      apply IH, Hrest.
Qed.

Lemma v2_remove_locks_exact h s g locks : forall removed tr,
  Forall listed_lock locks ->
  exists kept ev,
    V2.remove_locks h s g locks removed tr = (Ok (removed ++ kept), tr ++ ev)
    /\ commands ev = map (removal_of h g) (filter (fun l => cannot_delete l = true) locks)
    /\ kept `sublist_of`
         map (fun l => (s, g, field "name" l)) (filter (fun l => cannot_delete l = true) locks).
Proof.
  induction locks as [|lock rest IH]; intros removed tr Hall.
  - exists [], []. rewrite !app_nil_r. repeat split. constructor.
  - inversion Hall as [|? ? (lv & Hlv & Hname) Hrest]; subst.
    cbn [V2.remove_locks]. rewrite Hlv. cbn [lift].
    unfold bind at 1. unfold ret at 1.
    assert (cannot_delete lock = Value.eq_text lv "CanNotDelete") as Hcd.
    { unfold cannot_delete, field. rewrite Hlv. reflexivity. }
    rewrite filter_cons.
    destruct (Value.eq_text lv "CanNotDelete") eqn:Elv.
    + destruct (Hname eq_refl) as (n & Hn). rewrite Hn. cbn [lift].
      unfold bind at 1. unfold ret at 1.
      assert (field "name" lock = n) as Hf by (unfold field; rewrite Hn; reflexivity).
      destruct (decide (cannot_delete lock = true)) as [_|Hno]; [|congruence].
      rewrite (bind_ok _ _ _ _ _ (v2_run_exact h _ tr)).
      fold (lock_delete_command (py_str h n) g).
      set (c := lock_delete_command (py_str h n) g).
      set (r := az h (v2_asked tr c) c).
      destruct (V2.succeeded (v2_reading r)).
      * unfold bind at 1. cbn [log].
        edestruct (IH (removed ++ [(s, g, n)])) as (kept & ev & E & Hc & Hs); [exact Hrest|].
        rewrite E. exists ((s, g, n) :: kept). eexists.
        split; [unfold v2_asked; rewrite <- !app_assoc; reflexivity|]. split.
        -- rewrite !commands_app, Hc. cbn [app commands map]. rewrite v2_run_logs_commands.
           unfold removal_of at 2. rewrite Hf. reflexivity.
        -- cbn [map]. rewrite Hf. apply sublist_skip, Hs.
      * unfold bind at 1. cbn [log].
        edestruct (IH removed) as (kept & ev & E & Hc & Hs); [exact Hrest|].
        rewrite E. exists kept. eexists.
        split; [unfold v2_asked; rewrite <- !app_assoc; reflexivity|]. split.
        -- rewrite !commands_app, Hc. cbn [app commands map]. rewrite v2_run_logs_commands.
           unfold removal_of at 2. rewrite Hf. reflexivity.
        -- cbn [map]. apply sublist_cons, Hs.
    + destruct (decide (cannot_delete lock = true)) as [Hyes|_]; [congruence|].
      apply IH, Hrest.
Qed.

(** ** The ledger of the suspend phase *)

Lemma log_Ok_inv lv t a tr (u : unit) tr' :
  log lv t a tr = (Ok u, tr') -> tr' = tr ++ [Logged lv t a].
Proof. unfold log. intros E. injection E as _ <-. reflexivity. Qed.

Lemma sync_remove_locks_ledger h s g locks : forall removed tr out tr',
  Sync.remove_locks h s g locks removed tr = (Ok out, tr') ->
  exists kept ev,
    out = removed ++ kept /\ tr' = tr ++ ev
    /\ Forall (fun ref : lock_ref => ref.1 = (s, g)) kept
    /\ map (ledger_removal h) kept `sublist_of` lock_deletes ev.
Proof.
  induction locks as [|lock rest IH]; intros removed tr out tr' E.
  - injection E as <- <-. exists [], []. rewrite !app_nil_r.
    repeat split; constructor.
  - cbn [Sync.remove_locks] in E.
    apply bind_Ok_inv in E as (lv & t1 & E1 & E).
    apply lift_Ok_inv in E1 as [_ ->].
    destruct (Value.eq_text lv "CanNotDelete"); [|apply IH, E].
    apply bind_Ok_inv in E as (n & t2 & E2 & E).
    apply lift_Ok_inv in E2 as [_ ->].
    apply bind_Ok_inv in E as (result & t3 & E3 & E).
    rewrite sync_run_shell_exact in E3. injection E3 as <- <-.
    fold (lock_delete_command (py_str h n) g) in E.
    set (r := az h tr (lock_delete_command (py_str h n) g)) in E.
    destruct (negb (Py.startswith "Error:" (sync_reading r)));
      apply bind_Ok_inv in E as (u & t4 & E4 & E);
      apply log_Ok_inv in E4 as ->;
      apply IH in E as (kept & ev & -> & -> & Hk & Hs).
    + exists ((s, g, n) :: kept). eexists.
      split; [rewrite <- app_assoc; reflexivity|].
      split; [rewrite <- !app_assoc; reflexivity|]. split.
      * constructor; [reflexivity | exact Hk].
      * cbn [app map]. rewrite lock_deletes_command, !lock_deletes_app.
        rewrite (lock_deletes_quiet (sync_run_logs r))
          by (rewrite sync_run_logs_commands; constructor).
        cbn [app]. unfold ledger_removal at 1. cbn [fst snd].
        apply sublist_skip. exact Hs.
    + exists kept. eexists. split; [reflexivity|].
      split; [rewrite <- !app_assoc; reflexivity|]. split; [exact Hk|].
      cbn [app]. rewrite lock_deletes_command, !lock_deletes_app.
      rewrite (lock_deletes_quiet (sync_run_logs r))
        by (rewrite sync_run_logs_commands; constructor).
      cbn [app]. apply sublist_cons. exact Hs.
Qed.

Lemma v2_remove_locks_ledger h s g locks : forall removed tr out tr',
  V2.remove_locks h s g locks removed tr = (Ok out, tr') ->
  exists kept ev,
    out = removed ++ kept /\ tr' = tr ++ ev
    /\ Forall (fun ref : lock_ref => ref.1 = (s, g)) kept
    /\ map (ledger_removal h) kept `sublist_of` lock_deletes ev.
Proof.
  induction locks as [|lock rest IH]; intros removed tr out tr' E.
  - injection E as <- <-. exists [], []. rewrite !app_nil_r.
    repeat split; constructor.
  - cbn [V2.remove_locks] in E.
    apply bind_Ok_inv in E as (lv & t1 & E1 & E).
    apply lift_Ok_inv in E1 as [_ ->].
    destruct (Value.eq_text lv "CanNotDelete"); [|apply IH, E].
    apply bind_Ok_inv in E as (n & t2 & E2 & E).
    apply lift_Ok_inv in E2 as [_ ->].
    apply bind_Ok_inv in E as (result & t3 & E3 & E).
    rewrite v2_run_exact in E3. injection E3 as <- <-.
    fold (lock_delete_command (py_str h n) g) in E.
    set (c := lock_delete_command (py_str h n) g) in E.
    set (r := az h (v2_asked tr c) c) in E.
    destruct (V2.succeeded (v2_reading r));
      apply bind_Ok_inv in E as (u & t4 & E4 & E);
      apply log_Ok_inv in E4 as ->;
      apply IH in E as (kept & ev & -> & -> & Hk & Hs).
    + exists ((s, g, n) :: kept). eexists.
      split; [rewrite <- app_assoc; reflexivity|].
      split; [unfold v2_asked; rewrite <- !app_assoc; reflexivity|]. split.
      * constructor; [reflexivity | exact Hk].
      * cbn [app map]. fold c. rewrite lock_deletes_log, (lock_deletes_ran c) by reflexivity.
        rewrite !lock_deletes_app.
        rewrite (lock_deletes_quiet (v2_run_logs c r))
          by (rewrite v2_run_logs_commands; constructor).
        cbn [app]. unfold ledger_removal at 1. cbn [fst snd].
        apply sublist_skip. exact Hs.
    + exists kept. eexists. split; [reflexivity|].
      split; [unfold v2_asked; rewrite <- !app_assoc; reflexivity|]. split; [exact Hk|].
      cbn [app]. fold c. rewrite lock_deletes_log, (lock_deletes_ran c) by reflexivity.
        rewrite !lock_deletes_app.
      rewrite (lock_deletes_quiet (v2_run_logs c r))
        by (rewrite v2_run_logs_commands; constructor).
      cbn [app]. apply sublist_cons. exact Hs.
Qed.

Lemma account_set_no_removal c : is_account_set c = true -> is_lock_delete c = false.
Proof. destruct c as [l|argv]; [discriminate | reflexivity]. Qed.

Lemma lock_deletes_switch ev :
  Forall (only (fun c => is_account_set c = true)) ev -> lock_deletes ev = [].
Proof.
  intros H. apply lock_deletes_quiet. apply only_commands in H.
  eapply Forall_impl; [exact H|]. intros c. apply account_set_no_removal.
Qed.

Lemma sync_remove_groups_ledger h groups : forall cur removed tr out tr',
  Sync.remove_groups h groups cur removed tr = (Ok out, tr') ->
  exists kept ev,
    out = removed ++ kept /\ tr' = tr ++ ev
    /\ Forall (fun ref : lock_ref => ref.1 ∈ groups) kept
    /\ map (ledger_removal h) kept `sublist_of` lock_deletes ev.
Proof.
  induction groups as [|[s g] rest IH]; intros cur removed tr out tr' E.
  - injection E as <- <-. exists [], []. rewrite !app_nil_r.
    repeat split; constructor.
  - cbn [Sync.remove_groups] in E.
    apply bind_Ok_inv in E as (cur' & t1 & E1 & E).
    destruct (emits_run _ _ _ _ _ (sync_switch_emits h s cur) E1) as (ev1 & -> & Hev1).
    apply bind_Ok_inv in E as (listing & t2 & E2 & E).
    rewrite sync_run_shell_exact in E2. injection E2 as <- <-.
    fold (lock_list_command g) in E.
    set (r := az h (tr ++ ev1) (lock_list_command g)) in E.
    apply bind_Ok_inv in E as (doc & t3 & E3 & E). apply lift_Ok_inv in E3 as [_ ->].
    apply bind_Ok_inv in E as (locks & t4 & E4 & E). apply lift_Ok_inv in E4 as [_ ->].
    apply bind_Ok_inv in E as (removed1 & t5 & E5 & E).
    apply sync_remove_locks_ledger in E5 as (kept1 & ev2 & -> & -> & Hk1 & Hs1).
    apply IH in E as (kept2 & ev3 & -> & -> & Hk2 & Hs2).
    exists (kept1 ++ kept2). eexists.
    split; [rewrite <- app_assoc; reflexivity|].
    split; [rewrite <- !app_assoc; reflexivity|]. split.
    + apply Forall_app. split.
      * eapply Forall_impl; [exact Hk1|]. intros ref ->. left.
      * eapply Forall_impl; [exact Hk2|]. intros ref Hin. right. exact Hin.
    + rewrite map_app, !lock_deletes_app, (lock_deletes_switch ev1 Hev1).
      rewrite (lock_deletes_ran_other (lock_list_command g)) by reflexivity.
      rewrite (lock_deletes_quiet (sync_run_logs r))
        by (rewrite sync_run_logs_commands; constructor).
      cbn [app]. apply sublist_app; assumption.
Qed.

Lemma v2_remove_groups_ledger h groups : forall cur removed tr out tr',
  V2.remove_groups h groups cur removed tr = (Ok out, tr') ->
  exists kept ev,
    out = removed ++ kept /\ tr' = tr ++ ev
    /\ Forall (fun ref : lock_ref => ref.1 ∈ groups) kept
    /\ map (ledger_removal h) kept `sublist_of` lock_deletes ev.
Proof.
  induction groups as [|[s g] rest IH]; intros cur removed tr out tr' E.
  - injection E as <- <-. exists [], []. rewrite !app_nil_r.
    repeat split; constructor.
  - cbn [V2.remove_groups] in E.
    apply bind_Ok_inv in E as (cur' & t1 & E1 & E).
    destruct (v2_switch_returns h s cur tr) as (c1 & ev1 & E1' & Hev1 & _).
    rewrite E1' in E1. injection E1 as <- <-.
    apply bind_Ok_inv in E as (listing & t2 & E2 & E).
    rewrite v2_run_exact in E2. injection E2 as <- <-.
    fold (lock_list_command g) in E.
    set (c := lock_list_command g) in E.
    set (r := az h (v2_asked (tr ++ ev1) c) c) in E.
    apply bind_Ok_inv in E as (doc & t3 & E3 & E). apply lift_Ok_inv in E3 as [_ ->].
    apply bind_Ok_inv in E as (locks & t4 & E4 & E). apply lift_Ok_inv in E4 as [_ ->].
    apply bind_Ok_inv in E as (removed1 & t5 & E5 & E).
    apply v2_remove_locks_ledger in E5 as (kept1 & ev2 & -> & -> & Hk1 & Hs1).
    apply IH in E as (kept2 & ev3 & -> & -> & Hk2 & Hs2).
    exists (kept1 ++ kept2). eexists.
    split; [rewrite <- app_assoc; reflexivity|].
    split; [unfold v2_asked; rewrite <- !app_assoc; reflexivity|]. split.
    + apply Forall_app. split.
      * eapply Forall_impl; [exact Hk1|]. intros ref ->. left.
      * eapply Forall_impl; [exact Hk2|]. intros ref Hin. right. exact Hin.
    + rewrite map_app, !lock_deletes_app, (lock_deletes_switch ev1 Hev1).
      fold c. cbn [app]. rewrite lock_deletes_log.
      rewrite (lock_deletes_ran_other c) by reflexivity.
      rewrite ?lock_deletes_app.
      rewrite (lock_deletes_quiet (v2_run_logs c r))
        by (rewrite v2_run_logs_commands; constructor).
      change (lock_deletes []) with (@nil command).
      cbn [app]. apply sublist_app; assumption.
Qed.

(** X8 (check_and_remove_scope_locks, the loop over the listed locks).
    For a listing whose locks each carry a level, and a name when the
    level is cannot-delete, the loop of the sequential variant returns
    normally and issues a removal for exactly the locks whose level is
    cannot-delete, in listing order, and nothing else: a lock of any other
    level is never removed. The entries it adds to the ledger are a
    sub-sequence of those locks (the ones whose removal was acknowledged).
    The loop of the event-loop variant issues a prefix of the same
    removals and nothing else; whenever it returns it has issued them all,
    and what it adds to the ledger is such a sub-sequence. *)
Theorem X8_only_cannot_delete_locks_are_removed
    (h : host) (s g : string) (locks : list json) (removed : list lock_ref) (tr : list event) :
  Forall listed_lock locks ->
  (exists kept ev,
      Sync.remove_locks h s g locks removed tr = (Ok (removed ++ kept), tr ++ ev)
      /\ commands ev = map (removal_of h g) (filter (fun l => cannot_delete l = true) locks)
      /\ kept `sublist_of`
           map (fun l => (s, g, field "name" l)) (filter (fun l => cannot_delete l = true) locks))
  /\ (exists ev,
      (V2.remove_locks h s g locks removed tr).2 = tr ++ ev
      /\ commands ev `prefix_of`
           map (removal_of h g) (filter (fun l => cannot_delete l = true) locks))
  /\ (forall out tr',
      V2.remove_locks h s g locks removed tr = (Ok out, tr') ->
      exists kept ev,
        out = removed ++ kept /\ tr' = tr ++ ev
        /\ commands ev = map (removal_of h g) (filter (fun l => cannot_delete l = true) locks)
        /\ kept `sublist_of`
             map (fun l => (s, g, field "name" l))
               (filter (fun l => cannot_delete l = true) locks)).
Proof.
  intros Hall. split; [|split].
  - apply sync_remove_locks_exact, Hall.
  - destruct (v2_remove_locks_exact h s g locks removed tr Hall) as (kept & ev & E & Hc & _).
    exists ev. rewrite E, Hc. split; reflexivity.
  - intros out tr' Hrun.
    destruct (v2_remove_locks_exact h s g locks removed tr Hall) as (kept & ev & E & Hc & Hk).
    rewrite E in Hrun. injection Hrun as <- <-. exists kept, ev. auto.
Qed.

Lemma X8_witness :
  (exists kept ev,
      Sync.remove_locks (host_of az_locked) "111" "rg1" locks_listed [] []
        = (Ok ([] ++ kept), [] ++ ev)
      /\ commands ev = map (removal_of (host_of az_locked) "rg1")
                         (filter (fun l => cannot_delete l = true) locks_listed)
      /\ kept `sublist_of`
           map (fun l => ("111", "rg1", field "name" l))
             (filter (fun l => cannot_delete l = true) locks_listed))
  /\ (exists kept ev,
      V2.remove_locks (host_of az_locked) "111" "rg1" locks_listed [] []
        = (Ok ([] ++ kept), [] ++ ev)
      /\ commands ev = map (removal_of (host_of az_locked) "rg1")
                         (filter (fun l => cannot_delete l = true) locks_listed)
      /\ kept `sublist_of`
           map (fun l => ("111", "rg1", field "name" l))
             (filter (fun l => cannot_delete l = true) locks_listed)).
Proof.
  assert (Hall : Forall listed_lock locks_listed).
  { apply Forall_cons_2; [|apply Forall_cons_2; [|apply Forall_nil_2]].
    - exists (JStr "CanNotDelete"). split; [reflexivity|].
      intros _. exists (JStr "keep"). reflexivity.
    - exists (JStr "ReadOnly"). split; [reflexivity|].
      intros _. exists (JStr "ro"). reflexivity. }
  pose proof (X8_only_cannot_delete_locks_are_removed (host_of az_locked) "111" "rg1"
                locks_listed [] [] Hall) as (Hsync & _ & Hv2).
  split; [exact Hsync|].
  run_eq H (V2.remove_locks (host_of az_locked) "111" "rg1" locks_listed [] []).
  destruct (Hv2 _ _ H) as (kept & ev & Ho & Et & Hc & Hk).
  exists kept, ev. rewrite H, Ho, Et. auto.
Defined.

Example removals_of_listing :
  map (removal_of (host_of az_locked) "rg1")
    (filter (fun l => cannot_delete l = true) locks_listed)
  = [lock_delete_command "keep" "rg1"].
Proof. vm_compute. reflexivity. Qed.

(** X9 (check_and_remove_scope_locks). Whenever the suspend phase
    returns its ledger, in either variant, every ledger entry names a pair
    (account, resource group) of the input set, and the removals the
    entries stand for were issued during the phase, in ledger order: the
    ledger never holds a lock the phase did not ask to remove. *)
Theorem X9_ledger_holds_only_removed_locks_of_the_input_groups
    (h : host) (resource_groups : gset (string * string)) (tr : list event) :
  (forall ledger tr',
      Sync.check_and_remove_scope_locks h resource_groups tr = (Ok ledger, tr') ->
      exists ev,
        tr' = tr ++ ev
        /\ Forall (fun ref : lock_ref => ref.1 ∈ resource_groups) ledger
        /\ map (ledger_removal h) ledger `sublist_of` lock_deletes ev)
  /\ (forall ledger tr',
      V2.check_and_remove_scope_locks h resource_groups tr = (Ok ledger, tr') ->
      exists ev,
        tr' = tr ++ ev
        /\ Forall (fun ref : lock_ref => ref.1 ∈ resource_groups) ledger
        /\ map (ledger_removal h) ledger `sublist_of` lock_deletes ev).
Proof.
  split; intros ledger tr' E.
  - apply sync_remove_groups_ledger in E as (kept & ev & -> & -> & Hk & Hs).
    exists ev. split; [reflexivity|]. split; [|exact Hs].
    eapply Forall_impl; [exact Hk|]. intros ref Hin. apply elem_of_elements. exact Hin.
  - apply v2_remove_groups_ledger in E as (kept & ev & -> & -> & Hk & Hs).
    exists ev. split; [reflexivity|]. split; [|exact Hs].
    eapply Forall_impl; [exact Hk|]. intros ref Hin. apply elem_of_elements. exact Hin.
Qed.

Lemma X9_witness :
  exists ev,
    (Sync.check_and_remove_scope_locks (host_of az_locked) {[ ("111", "rg1") ]} []).2 = [] ++ ev
    /\ Forall (fun ref : lock_ref => ref.1 ∈ ({[ ("111", "rg1") ]} : gset (string * string)))
         [("111", "rg1", JStr "keep")]
    /\ map (ledger_removal (host_of az_locked)) [("111", "rg1", JStr "keep")]
         `sublist_of` lock_deletes ev.
Proof.
  apply (proj1 (X9_ledger_holds_only_removed_locks_of_the_input_groups
                  (host_of az_locked) {[ ("111", "rg1") ]} [])
           [("111", "rg1", JStr "keep")]).
  vm_compute. reflexivity.
Defined.

(** ** Account switches *)

Lemma account_sets_app ev1 ev2 : account_sets (ev1 ++ ev2) = account_sets ev1 ++ account_sets ev2.
Proof. unfold account_sets. rewrite commands_app. apply filter_app. Qed.

Lemma account_sets_log lv t a ev : account_sets (Logged lv t a :: ev) = account_sets ev.
Proof. reflexivity. Qed.

Lemma account_sets_shell l ev : account_sets (Ran (Shell l) :: ev) = account_sets ev.
Proof. reflexivity. Qed.

Lemma account_sets_set s ev :
  account_sets (Ran (account_set_command s) :: ev) = account_set_command s :: account_sets ev.
Proof. reflexivity. Qed.

Lemma account_sets_quiet ev :
  Forall (fun c => is_account_set c = false) (commands ev) -> account_sets ev = [].
Proof.
  unfold account_sets. induction (commands ev) as [|c l IH]; intros H; [reflexivity|].
  inversion H as [|? ? Hc Hl]; subst. rewrite filter_cons.
  destruct (decide (is_account_set c = true)) as [Ht|_]; [congruence|]. apply IH, Hl.
Qed.

Lemma account_sets_sync_logs r : account_sets (sync_run_logs r) = [].
Proof. apply account_sets_quiet. rewrite sync_run_logs_commands. constructor. Qed.

Lemma account_sets_v2_logs c r : account_sets (v2_run_logs c r) = [].
Proof. apply account_sets_quiet. rewrite v2_run_logs_commands. constructor. Qed.

Lemma account_sets_nil : account_sets [] = [].
Proof. reflexivity. Qed.

Ltac sets_norm :=
  repeat progress
    (rewrite ?account_sets_app, ?account_sets_log, ?account_sets_shell,
       ?account_sets_sync_logs, ?account_sets_v2_logs, ?account_sets_nil;
     cbn [app]).

Lemma sync_switch_exact h s cur tr c tr1 :
  Sync.switch_subscription h s cur tr = (Ok c, tr1) ->
  c = Some s
  /\ exists ev, tr1 = tr ++ ev
                /\ account_sets ev
                   = if bool_decide (Some s = cur) then [] else [account_set_command s].
Proof.
  unfold Sync.switch_subscription.
  destruct (bool_decide (Some s = cur)) eqn:Eb.
  - apply bool_decide_eq_true in Eb. intros E. injection E as <- <-.
    split; [congruence|]. exists []. rewrite app_nil_r. split; reflexivity.
  - unfold try_except, bind, Sync.run_az_command, log, ret, raise.
    fold (account_set_command s).
    destruct (az h tr (account_set_command s)) as [rc out err|why];
      [destruct (rc =? 0)%Z|]; intros E; [| discriminate |];
      injection E as <- <-; (split; [reflexivity|]); eexists;
      (split; [rewrite <- ?app_assoc; reflexivity|]); reflexivity.
Qed.

Lemma v2_switch_exact h s cur tr :
  exists ev,
    V2.switch_subscription h s cur tr = (Ok (Some s), tr ++ ev)
    /\ account_sets ev = if bool_decide (Some s = cur) then [] else [account_set_command s].
Proof.
  unfold V2.switch_subscription.
  destruct (bool_decide (Some s = cur)) eqn:Eb.
  - apply bool_decide_eq_true in Eb. subst cur. exists []. rewrite app_nil_r.
    split; reflexivity.
  - unfold try_except, bind, V2.run_az_command, log, ret, raise.
    fold (account_set_command s).
    destruct (az h _ (account_set_command s)) as [rc out err|why];
      [destruct (rc =? 0)%Z|]; eexists;
      (split; [rewrite <- ?app_assoc; reflexivity|]); reflexivity.
Qed.

Lemma switches_step s cur rest :
  (if bool_decide (Some s = cur) then [] else [account_set_command s])
    ++ map account_set_command (switches (Some s) rest)
  = map account_set_command (switches cur (s :: rest)).
Proof.
  cbn [switches]. destruct (bool_decide (Some s = cur)) eqn:Eb; [|reflexivity].
  apply bool_decide_eq_true in Eb. subst cur. reflexivity.
Qed.

Lemma sync_restore_loop_switches h ledger : forall cur R0 tr R tr',
  Sync.restore_loop h ledger cur R0 tr = (Ok R, tr') ->
  exists ev, tr' = tr ++ ev
             /\ account_sets ev
                = map account_set_command (switches cur (map (fun ref : lock_ref => ref.1.1) ledger)).
Proof.
  induction ledger as [|[[s g] n] rest IH]; intros cur R0 tr R tr' E.
  - injection E as <- <-. exists []. rewrite app_nil_r. split; reflexivity.
  - cbn [Sync.restore_loop] in E.
    apply bind_Ok_inv in E as (c & t1 & E1 & E).
    apply sync_switch_exact in E1 as (-> & ev1 & -> & Hs1).
    apply bind_Ok_inv in E as (result & t2 & E2 & E).
    rewrite sync_run_shell_exact in E2. injection E2 as <- <-.
    match type of E with
    | context [sync_run_logs ?x] => set (r := x) in E
    end.
    destruct (negb (Py.startswith "Error:" (sync_reading r)));
      apply bind_Ok_inv in E as (u & t3 & E3 & E);
      apply log_Ok_inv in E3 as ->;
      apply IH in E as (ev & -> & Hs);
      (eexists; split; [rewrite <- !app_assoc; reflexivity|]);
      sets_norm; rewrite Hs1, Hs; cbn [map fst];
      apply switches_step.
Qed.

Lemma v2_restore_loop_switches h ledger : forall cur R0 tr R tr',
  V2.restore_loop h ledger cur R0 tr = (Ok R, tr') ->
  exists ev, tr' = tr ++ ev
             /\ account_sets ev
                = map account_set_command (switches cur (map (fun ref : lock_ref => ref.1.1) ledger)).
Proof.
  induction ledger as [|[[s g] n] rest IH]; intros cur R0 tr R tr' E.
  - injection E as <- <-. exists []. rewrite app_nil_r. split; reflexivity.
  - cbn [V2.restore_loop] in E.
    apply bind_Ok_inv in E as (c & t1 & E1 & E).
    destruct (v2_switch_exact h s cur tr) as (ev1 & E1' & Hs1).
    rewrite E1' in E1. injection E1 as <- <-.
    apply bind_Ok_inv in E as (result & t2 & E2 & E).
    rewrite v2_run_exact in E2. injection E2 as <- <-.
    match type of E with
    | context [v2_run_logs ?c0 ?x] => set (r := x) in E; set (c := c0) in *
    end.
    destruct (V2.succeeded (v2_reading r));
      apply bind_Ok_inv in E as (u & t3 & E3 & E);
      apply log_Ok_inv in E3 as ->;
      apply IH in E as (ev & -> & Hs);
      (eexists; split; [unfold v2_asked; rewrite <- !app_assoc; reflexivity|]);
      subst c; sets_norm; rewrite Hs1, Hs; cbn [map fst];
      apply switches_step.
Qed.

Lemma account_sets_removals ev :
  Forall (only (fun c => exists n g, c = lock_delete_command n g)) ev -> account_sets ev = [].
Proof.
  intros H. apply account_sets_quiet. apply only_commands in H.
  eapply Forall_impl; [exact H|]. intros c (n & g & ->). reflexivity.
Qed.

Lemma sync_remove_groups_switches h groups : forall cur removed tr out tr',
  Sync.remove_groups h groups cur removed tr = (Ok out, tr') ->
  exists ev, tr' = tr ++ ev
             /\ account_sets ev = map account_set_command (switches cur groups.*1).
Proof.
  induction groups as [|[s g] rest IH]; intros cur removed tr out tr' E.
  - injection E as <- <-. exists []. rewrite app_nil_r. split; reflexivity.
  - cbn [Sync.remove_groups] in E.
    apply bind_Ok_inv in E as (c & t1 & E1 & E).
    apply sync_switch_exact in E1 as (-> & ev1 & -> & Hs1).
    apply bind_Ok_inv in E as (listing & t2 & E2 & E).
    rewrite sync_run_shell_exact in E2. injection E2 as <- <-.
    match type of E with
    | context [sync_run_logs ?x] => set (r := x) in E
    end.
    apply bind_Ok_inv in E as (doc & t3 & E3 & E). apply lift_Ok_inv in E3 as [_ ->].
    apply bind_Ok_inv in E as (locks & t4 & E4 & E). apply lift_Ok_inv in E4 as [_ ->].
    apply bind_Ok_inv in E as (removed1 & t5 & E5 & E).
    destruct (emits_run _ _ _ _ _ (sync_remove_locks_deletes h s g locks removed) E5)
      as (ev2 & -> & Hev2).
    apply IH in E as (ev3 & -> & Hs3).
    eexists. split; [rewrite <- !app_assoc; reflexivity|].
    sets_norm. rewrite Hs1, Hs3, (account_sets_removals ev2 Hev2). cbn [app fmap list_fmap fst].
    apply switches_step.
Qed.

Lemma v2_remove_groups_switches h groups : forall cur removed tr out tr',
  V2.remove_groups h groups cur removed tr = (Ok out, tr') ->
  exists ev, tr' = tr ++ ev
             /\ account_sets ev = map account_set_command (switches cur groups.*1).
Proof.
  induction groups as [|[s g] rest IH]; intros cur removed tr out tr' E.
  - injection E as <- <-. exists []. rewrite app_nil_r. split; reflexivity.
  - cbn [V2.remove_groups] in E.
    apply bind_Ok_inv in E as (c & t1 & E1 & E).
    destruct (v2_switch_exact h s cur tr) as (ev1 & E1' & Hs1).
    rewrite E1' in E1. injection E1 as <- <-.
    apply bind_Ok_inv in E as (listing & t2 & E2 & E).
    rewrite v2_run_exact in E2. injection E2 as <- <-.
    match type of E with
    | context [v2_run_logs ?c0 ?x] => set (r := x) in E; set (c := c0) in *
    end.
    apply bind_Ok_inv in E as (doc & t3 & E3 & E). apply lift_Ok_inv in E3 as [_ ->].
    apply bind_Ok_inv in E as (locks & t4 & E4 & E). apply lift_Ok_inv in E4 as [_ ->].
    apply bind_Ok_inv in E as (removed1 & t5 & E5 & E).
    destruct (emits_run _ _ _ _ _ (v2_remove_locks_deletes h s g locks removed) E5)
      as (ev2 & -> & Hev2).
    apply IH in E as (ev3 & -> & Hs3).
    eexists. split; [unfold v2_asked; rewrite <- !app_assoc; reflexivity|].
    subst c. sets_norm.
    rewrite Hs1, Hs3, (account_sets_removals ev2 Hev2). cbn [app fmap list_fmap fst].
    apply switches_step.
Qed.

(** X10 (restore_scope_locks, switch_subscription). The restore phase
    switches account only when the entry at hand belongs to another
    account than the one it last switched to: whenever it returns, in
    either variant, its account switches are, in order, the accounts of
    the ledger with every entry left out whose account equals that of the
    entry before it. *)
Theorem X10_restore_switches_account_only_on_change
    (h : host) (ledger : list lock_ref) (tr : list event) :
  (forall restored tr',
      Sync.restore_scope_locks h ledger tr = (Ok restored, tr') ->
      exists ev,
        tr' = tr ++ ev
        /\ account_sets ev
           = map account_set_command
               (switches None (map (fun ref : lock_ref => ref.1.1) ledger)))
  /\ (forall restored tr',
      V2.restore_scope_locks h ledger tr = (Ok restored, tr') ->
      exists ev,
        tr' = tr ++ ev
        /\ account_sets ev
           = map account_set_command
               (switches None (map (fun ref : lock_ref => ref.1.1) ledger))).
Proof.
  split; intros restored tr' E.
  - exact (sync_restore_loop_switches h ledger None [] tr restored tr' E).
  - exact (v2_restore_loop_switches h ledger None [] tr restored tr' E).
Qed.

Lemma X10_witness :
  (exists ev,
     (Sync.restore_scope_locks (host_of az_locked) ledger_three []).2 = [] ++ ev
     /\ account_sets ev
        = map account_set_command
            (switches None (map (fun ref : lock_ref => ref.1.1) ledger_three)))
  /\ (exists ev,
     (V2.restore_scope_locks (host_of az_locked) ledger_three []).2 = [] ++ ev
     /\ account_sets ev
        = map account_set_command
            (switches None (map (fun ref : lock_ref => ref.1.1) ledger_three))).
Proof.
  pose proof (X10_restore_switches_account_only_on_change (host_of az_locked) ledger_three [])
    as (Hsync & Hv2).
  split.
  - apply (Hsync ledger_three). vm_compute. reflexivity.
  - run_eq H (V2.restore_scope_locks (host_of az_locked) ledger_three []).
    rewrite H. exact (Hv2 _ _ H).
Defined.

Example switches_of_ledger_three :
  switches None (map (fun ref : lock_ref => ref.1.1) ledger_three) = ["111"; "222"].
Proof. reflexivity. Qed.

Lemma switches_changes accounts : forall cur,
  changes (switches cur accounts) = true
  /\ forall a, head (switches cur accounts) = Some a -> Some a <> cur.
Proof.
  induction accounts as [|a rest IH]; intros cur; simpl.
  - split; [reflexivity | discriminate].
  - destruct (bool_decide (Some a = cur)) eqn:E; [apply IH|].
    apply bool_decide_eq_false in E. destruct (IH (Some a)) as [Hc Hh].
    split.
    + cbn [changes]. rewrite Hc, andb_true_r.
      destruct (switches (Some a) rest) as [|b l] eqn:Es; [reflexivity|].
      apply negb_true_iff, String.eqb_neq. intros ->. now apply (Hh b).
    + intros b [= <-]. exact E.
Qed.

Lemma switches_elem accounts : forall cur a,
  (a ∈ switches cur accounts -> a ∈ accounts)
  /\ (a ∈ accounts -> a ∈ switches cur accounts \/ Some a = cur).
Proof.
  induction accounts as [|b rest IH]; intros cur a; simpl.
  - split; [auto|]. intros H. inversion H.
  - destruct (bool_decide (Some b = cur)) eqn:E.
    + apply bool_decide_eq_true in E. destruct (IH cur a) as [H1 H2]. split.
      * intros H. right. auto.
      * intros H. apply elem_of_cons in H as [->|H]; [now right | auto].
    + destruct (IH (Some b) a) as [H1 H2]. split.
      * intros H. apply elem_of_cons in H as [->|H]; [left | right; auto].
      * intros H. left. apply elem_of_cons in H as [->|H]; [left|].
        destruct (H2 H) as [H3|[= ->]]; [now right | left].
Qed.

Lemma switches_length accounts : forall cur, length (switches cur accounts) <= length accounts.
Proof.
  induction accounts as [|b rest IH]; intros cur; simpl; [lia|].
  destruct (bool_decide _); simpl; [specialize (IH cur) | specialize (IH (Some b))]; lia.
Qed.

(** What the equation of the switches of a walk over the pairs gives,
    whatever the order of the walk. *)
Lemma switches_of_pairs (resource_groups : gset (string * string)) ev :
  account_sets ev = map account_set_command (switches None (elements resource_groups).*1) ->
  exists accounts,
    account_sets ev = map account_set_command accounts
    /\ changes accounts = true
    /\ length accounts <= size resource_groups
    /\ forall a, a ∈ accounts <-> exists g, (a, g) ∈ resource_groups.
Proof.
  intros Hs. exists (switches None (elements resource_groups).*1).
  split; [exact Hs|]. split; [apply switches_changes|]. split.
  - etransitivity; [apply switches_length|].
    rewrite length_fmap. reflexivity.
  - intros a. destruct (switches_elem (elements resource_groups).*1 None a) as [H1 H2]. split.
    + intros H. apply H1, list_elem_of_fmap in H as ([a' g] & -> & Hin).
      exists g. now apply elem_of_elements.
    + intros (g & Hin). destruct H2 as [H|H]; [|exact H | discriminate].
      apply list_elem_of_fmap. exists (a, g). split; [reflexivity|].
      now apply elem_of_elements.
Qed.

(** X11 (check_and_remove_scope_locks, switch_subscription). Whenever
    the suspend phase returns, in either variant and in whatever order it
    walks the pairs, it has switched to every account of the pairs and to
    no other, never twice in a row to the same account, and not more
    often than there are pairs: a resource group in the account already
    selected costs no switch. *)
Theorem X11_suspend_switches_account_only_on_change
    (h : host) (resource_groups : gset (string * string)) (tr : list event) :
  (forall ledger tr',
      Sync.check_and_remove_scope_locks h resource_groups tr = (Ok ledger, tr') ->
      exists accounts ev,
        tr' = tr ++ ev
        /\ account_sets ev = map account_set_command accounts
        /\ changes accounts = true
        /\ length accounts <= size resource_groups
        /\ forall a, a ∈ accounts <-> exists g, (a, g) ∈ resource_groups)
  /\ (forall ledger tr',
      V2.check_and_remove_scope_locks h resource_groups tr = (Ok ledger, tr') ->
      exists accounts ev,
        tr' = tr ++ ev
        /\ account_sets ev = map account_set_command accounts
        /\ changes accounts = true
        /\ length accounts <= size resource_groups
        /\ forall a, a ∈ accounts <-> exists g, (a, g) ∈ resource_groups).
Proof.
  split; intros ledger tr' E.
  - destruct (sync_remove_groups_switches h _ None [] tr ledger tr' E) as (ev & -> & Hs).
    destruct (switches_of_pairs resource_groups ev Hs) as (accounts & H).
    exists accounts, ev. auto.
  - destruct (v2_remove_groups_switches h _ None [] tr ledger tr' E) as (ev & -> & Hs).
    destruct (switches_of_pairs resource_groups ev Hs) as (accounts & H).
    exists accounts, ev. auto.
Qed.

Lemma X11_witness :
  exists accounts ev,
    (Sync.check_and_remove_scope_locks (host_of az_locked) pairs_three []).2 = [] ++ ev
    /\ account_sets ev = map account_set_command accounts
    /\ changes accounts = true
    /\ length accounts <= size pairs_three
    /\ forall a, a ∈ accounts <-> exists g, (a, g) ∈ pairs_three.
Proof.
  run_eq H (Sync.check_and_remove_scope_locks (host_of az_locked) pairs_three []).
  rewrite H.
  exact (proj1 (X11_suspend_switches_account_only_on_change (host_of az_locked) pairs_three [])
           _ _ H).
Defined.

(** ** The report of the entry point, read backwards *)

Lemma now_sync_inv h tr t tr' : Sync.now h tr = (Ok t, tr') -> t = clock h tr /\ tr' = tr.
Proof. unfold Sync.now. intros E. injection E as <- <-. split; reflexivity. Qed.

Lemma now_v2_inv h tr t tr' : V2.now h tr = (Ok t, tr') -> t = clock h tr /\ tr' = tr.
Proof. unfold V2.now. intros E. injection E as <- <-. split; reflexivity. Qed.

Lemma ret_Ok_inv {A : Type} (a b : A) tr tr' : ret a tr = (Ok b, tr') -> a = b /\ tr' = tr.
Proof. unfold ret. intros E. injection E as <- <-. split; reflexivity. Qed.

Lemma sync_phases_extend h valid names pre tr results tr' :
  match valid with
  | [] => ret pre
  | _ :: _ =>
      let* removed_locks :=
        Sync.check_and_remove_scope_locks h (get_resource_groups_from_snapshots valid) in
      let* deletion_results := Sync.delete_valid_snapshots h valid names in
      let* restored_locks := Sync.restore_scope_locks h removed_locks in
      ret (merge_results pre deletion_results)
  end tr = (Ok results, tr') ->
  exists ev, tr' = tr ++ ev.
Proof.
  destruct valid as [|v valid].
  - intros E. apply ret_Ok_inv in E as [_ ->]. exists []. rewrite app_nil_r. reflexivity.
  - intros E.
    apply bind_Ok_inv in E as (ledger & t1 & E1 & E).
    unfold Sync.check_and_remove_scope_locks in E1.
    destruct (emits_run _ _ _ _ _ (sync_remove_groups_emits h _ None []) E1) as (ev1 & -> & _).
    apply bind_Ok_inv in E as (deletion & t2 & E2 & E).
    unfold Sync.delete_valid_snapshots in E2.
    destruct (emits_run _ _ _ _ _ (sync_delete_loop_emits h names (v :: valid) ∅) E2)
      as (ev2 & -> & _).
    apply bind_Ok_inv in E as (restored & t3 & E3 & E).
    unfold Sync.restore_scope_locks in E3.
    destruct (emits_run _ _ _ _ _ (sync_restore_loop_emits h ledger None []) E3)
      as (ev3 & -> & _).
    apply ret_Ok_inv in E as [_ ->].
    eexists. rewrite <- !app_assoc. reflexivity.
Qed.

Lemma v2_phases_extend h valid names pre tr results tr' :
  match valid with
  | [] => ret pre
  | _ :: _ =>
      let* removed_locks :=
        V2.check_and_remove_scope_locks h (get_resource_groups_from_snapshots valid) in
      let* deletion_results := V2.delete_valid_snapshots h valid names in
      let* restored_locks := V2.restore_scope_locks h removed_locks in
      ret (merge_results pre deletion_results)
  end tr = (Ok results, tr') ->
  exists ev, tr' = tr ++ ev.
Proof.
  destruct valid as [|v valid].
  - intros E. apply ret_Ok_inv in E as [_ ->]. exists []. rewrite app_nil_r. reflexivity.
  - intros E.
    apply bind_Ok_inv in E as (ledger & t1 & E1 & E).
    unfold V2.check_and_remove_scope_locks in E1.
    destruct (emits_run _ _ _ _ _ (v2_remove_groups_emits h _ None []) E1) as (ev1 & -> & _).
    apply bind_Ok_inv in E as (deletion & t2 & E2 & E).
    unfold V2.delete_valid_snapshots in E2.
    destruct (emits_run _ _ _ _ _ (v2_delete_loop_emits h names (v :: valid) ∅) E2)
      as (ev2 & -> & _).
    apply bind_Ok_inv in E as (restored & t3 & E3 & E).
    unfold V2.restore_scope_locks in E3.
    destruct (emits_run _ _ _ _ _ (v2_restore_loop_emits h ledger None []) E3)
      as (ev3 & -> & _).
    apply ret_Ok_inv in E as [_ ->].
    eexists. rewrite <- !app_assoc. reflexivity.
Qed.

Lemma warning_inv names tr (u : unit) tr' :
  (if bool_decide (names = ∅)
   then log WARNING "Failed to fetch subscription names. Using IDs instead." []
   else ret tt) tr = (Ok u, tr') ->
  tr' = tr ++ names_warning names.
Proof. rewrite warning_run. intros E. injection E as _ <-. reflexivity. Qed.

(** A report of the sequential entry point comes from a run of the log
    writer, at a history that extends the one at which the clock was first
    read. *)
Lemma sync_main_report_inv h ids tr results log_file total_runtime tr' :
  Sync.main h ids tr = (Ok (Report results log_file total_runtime), tr') ->
  exists ev1 ev2,
    generate_log_file h results total_runtime (tr ++ ev1 ++ ev2) = (Ok log_file, tr')
    /\ total_runtime = (clock h (tr ++ ev1 ++ ev2) - clock h (tr ++ ev1))%Z.
Proof.
  unfold Sync.main, try_except.
  destruct (Sync.main_body h ids tr) as [[r|e] t] eqn:E; [|discriminate].
  intros Eq. injection Eq as -> ->.
  unfold Sync.main_body in E.
  apply bind_Ok_inv in E as (logged_in & t1 & E1 & E).
  destruct (emits_run _ _ _ _ _ (returns_emits _ _ _ (sync_login_returns h)) E1)
    as (ev1 & -> & _).
  destruct (negb logged_in); [apply ret_Ok_inv in E as [? _]; discriminate|].
  apply bind_Ok_inv in E as (start & t2 & E2 & E).
  apply now_sync_inv in E2 as [-> ->].
  apply bind_Ok_inv in E as (names & t3 & E3 & E).
  destruct (emits_run _ _ _ _ _ (sync_names_emits h) E3) as (ev2 & -> & _).
  apply bind_Ok_inv in E as (u & t4 & E4 & E).
  apply warning_inv in E4 as ->.
  apply bind_Ok_inv in E as ([valid pre] & t5 & E5 & E).
  unfold Sync.pre_validate_snapshots in E5.
  destruct (emits_run _ _ _ _ _ (returns_emits _ _ _ (sync_validate_loop h names ids [] ∅)) E5)
    as (ev3 & -> & _).
  apply bind_Ok_inv in E as (results' & t6 & E6 & E).
  apply sync_phases_extend in E6 as (ev4 & ->).
  apply bind_Ok_inv in E as (finish & t7 & E7 & E).
  apply now_sync_inv in E7 as [-> ->].
  apply bind_Ok_inv in E as (lf & t8 & E8 & E).
  apply ret_Ok_inv in E as [Er ->]. injection Er as -> -> Hrt.
  exists ev1, (ev2 ++ names_warning names ++ ev3 ++ ev4).
  rewrite <- !app_assoc in E8. rewrite <- !app_assoc in Hrt.
  split; [rewrite <- Hrt; exact E8 | symmetry; exact Hrt].
Qed.

Lemma v2_main_report_inv h ids tr results log_file total_runtime tr' :
  V2.delete_snapshots h ids tr = (Ok (Report results log_file total_runtime), tr') ->
  exists ev1 ev2,
    generate_log_file h results total_runtime (tr ++ ev1 ++ ev2) = (Ok log_file, tr')
    /\ total_runtime = (clock h (tr ++ ev1 ++ ev2) - clock h (tr ++ ev1))%Z.
Proof.
  unfold V2.delete_snapshots, try_except.
  destruct (V2.delete_snapshots_body h ids tr) as [[r|e] t] eqn:E; [|discriminate].
  intros Eq. injection Eq as -> ->.
  unfold V2.delete_snapshots_body in E.
  apply bind_Ok_inv in E as (logged_in & t1 & E1 & E).
  destruct (emits_run _ _ _ _ _ (returns_emits _ _ _ (v2_login_returns h)) E1)
    as (ev1 & -> & _).
  destruct (negb logged_in); [apply ret_Ok_inv in E as [? _]; discriminate|].
  apply bind_Ok_inv in E as (start & t2 & E2 & E).
  apply now_v2_inv in E2 as [-> ->].
  apply bind_Ok_inv in E as (subscriptions & t3 & E3 & E).
  destruct (emits_run _ _ _ _ _ (v2_subscriptions_emits h) E3) as (ev2 & -> & _).
  apply bind_Ok_inv in E as (names & t3' & E3' & E).
  destruct (emits_run _ _ _ _ _ (names_of_emits (fun _ => True) subscriptions ∅) E3')
    as (ev2' & -> & _).
  apply bind_Ok_inv in E as (u & t4 & E4 & E).
  apply warning_inv in E4 as ->.
  apply bind_Ok_inv in E as ([valid pre] & t5 & E5 & E).
  unfold V2.pre_validate_snapshots in E5.
  destruct (emits_run _ _ _ _ _ (returns_emits _ _ _ (v2_validate_loop h names ids [] ∅)) E5)
    as (ev3 & -> & _).
  apply bind_Ok_inv in E as (results' & t6 & E6 & E).
  apply v2_phases_extend in E6 as (ev4 & ->).
  apply bind_Ok_inv in E as (finish & t7 & E7 & E).
  apply now_v2_inv in E7 as [-> ->].
  apply bind_Ok_inv in E as (lf & t8 & E8 & E).
  apply ret_Ok_inv in E as [Er ->]. injection Er as -> -> Hrt.
  exists ev1, (ev2 ++ ev2' ++ names_warning names ++ ev3 ++ ev4).
  rewrite <- !app_assoc in E8. rewrite <- !app_assoc in Hrt.
  split; [rewrite <- Hrt; exact E8 | symmetry; exact Hrt].
Qed.

(** A host as [host_of], whose log directory cannot be created. *)
(** The host [h] with a log file that cannot be opened for writing: every
    attempt raises [OSError(why)]. *)
Definition with_unwritable_log (h : host) (why : string) : host :=
  {| az := az h;
     clock := clock h;
     env_user := env_user h;
     timestamp := timestamp h;
     makedirs := makedirs h;
     write_file := fun _ _ => Some why;
     str_compound := str_compound h |}.

(** X12 (main, delete_snapshots). The total runtime of a report is the
    difference of two readings of the clock, the second taken after the
    first; so when the clock never runs backwards as the history grows,
    the total runtime of every report is non-negative. Both variants. *)
Theorem X12_total_runtime_is_not_negative
    (h : host) (ids : list string) (tr : list event) :
  (forall t ev, (clock h t <= clock h (t ++ ev))%Z) ->
  (forall results log_file total_runtime tr',
      Sync.main h ids tr = (Ok (Report results log_file total_runtime), tr') ->
      (0 <= total_runtime)%Z)
  /\ (forall results log_file total_runtime tr',
      V2.delete_snapshots h ids tr = (Ok (Report results log_file total_runtime), tr') ->
      (0 <= total_runtime)%Z).
Proof.
  intros Hmono. split; intros results log_file total_runtime tr' E.
  - apply sync_main_report_inv in E as (ev1 & ev2 & _ & ->).
    specialize (Hmono (tr ++ ev1) ev2). rewrite <- app_assoc in Hmono. lia.
  - apply v2_main_report_inv in E as (ev1 & ev2 & _ & ->).
    specialize (Hmono (tr ++ ev1) ev2). rewrite <- app_assoc in Hmono. lia.
Qed.

Lemma X12_witness :
  exists results log_file total_runtime,
    (Sync.main (host_of az_locked) [snap_a] []).1 = Ok (Report results log_file total_runtime)
    /\ (0 <= total_runtime)%Z.
Proof.
  run_eq H (Sync.main (host_of az_locked) [snap_a] []).
  rewrite H. eexists _, _, _. split; [reflexivity|].
  refine (proj1 (X12_total_runtime_is_not_negative (host_of az_locked) [snap_a] [] _)
            _ _ _ _ H).
  intros t ev. cbn [clock host_of]. rewrite length_app. lia.
Defined.

(** X13 (main, delete_snapshots, generate_log_file). When the log
    directory cannot be created, no run ends in a report: the entry point
    of both variants returns the error dictionary, whatever was validated
    and deleted before the log file was due. *)
Theorem X13_no_report_without_log_directory
    (h : host) (ids : list string) (tr : list event) :
  (forall t, makedirs h t <> None) ->
  (exists error, (Sync.main h ids tr).1 = Ok (Failure error))
  /\ (exists error, (V2.delete_snapshots h ids tr).1 = Ok (Failure error)).
Proof.
  intros Hdir. split.
  - destruct (try_except_total (Sync.main_body h ids)
                (fun e => log ERROR "An unexpected error occurred: {}\n{}" [AExn e] ;;
                          ret (Failure (StrOf e))) tr) as (r & t & E).
    { intros e t. eexists _, _. reflexivity. }
    fold (Sync.main h ids) in E. rewrite E. cbn [fst].
    destruct r as [results log_file total_runtime|error]; [|exists error; reflexivity].
    apply sync_main_report_inv in E as (ev1 & ev2 & E & _).
    unfold generate_log_file in E.
    destruct (makedirs h (tr ++ ev1 ++ ev2)) eqn:Em; [discriminate|].
    destruct (Hdir _ Em).
  - destruct (try_except_total (V2.delete_snapshots_body h ids)
                (fun e => log ERROR "An unexpected error occurred: {}" [AExn e] ;;
                          ret (Failure (StrOf e))) tr) as (r & t & E).
    { intros e t. eexists _, _. reflexivity. }
    fold (V2.delete_snapshots h ids) in E. rewrite E. cbn [fst].
    destruct r as [results log_file total_runtime|error]; [|exists error; reflexivity].
    apply v2_main_report_inv in E as (ev1 & ev2 & E & _).
    unfold generate_log_file in E.
    destruct (makedirs h (tr ++ ev1 ++ ev2)) eqn:Em; [discriminate|].
    destruct (Hdir _ Em).
Qed.

Lemma X13_witness :
  (exists error,
      (Sync.main (host_without_logs_dir az_locked) [snap_a] []).1 = Ok (Failure error))
  /\ (exists error,
      (V2.delete_snapshots (host_without_logs_dir az_locked) [snap_a] []).1 = Ok (Failure error)).
Proof.
  apply (X13_no_report_without_log_directory (host_without_logs_dir az_locked) [snap_a] []).
  intros t. discriminate.
Defined.

Example deleted_yet_no_report :
  snapshot_deletes (Sync.main (host_without_logs_dir az_locked) [snap_a] []).2
    = [snapshot_delete_command snap_a]
  /\ (Sync.main (host_without_logs_dir az_locked) [snap_a] []).1
    = Ok (Failure (StrOf (OSError "[Errno 13] Permission denied: 'logs'"))).
Proof. split; vm_compute; reflexivity. Qed.

Lemma unwritable_log_file h why results total_runtime tr name tr' :
  generate_log_file h results total_runtime tr = (Ok (Some name), tr') ->
  generate_log_file (with_unwritable_log h why) results total_runtime tr =
    (Ok None, tr' ++ [Logged ERROR "Failed to write log file: {}" [AExn (OSError why)]]).
Proof.
  unfold generate_log_file. cbn [makedirs write_file env_user timestamp with_unwritable_log].
  destruct (makedirs h tr); [discriminate|].
  destruct (write_file h tr _); [discriminate|].
  intros [= _ <-]. reflexivity.
Qed.

Lemma bind_carries {A B : Type} (m : M A) (k k' : A -> M B) tr b tr' (x : outcome B * list event) :
  (forall a t1, k a t1 = (Ok b, tr') -> k' a t1 = x) ->
  bind m k tr = (Ok b, tr') -> bind m k' tr = x.
Proof. unfold bind. destruct (m tr) as [[a|e] t1]; [auto | discriminate]. Qed.

Lemma try_report_inv (body : M reply) handler tr results log_file total_runtime tr' :
  (forall e t, exists error t', handler e t = (Ok (Failure error), t')) ->
  try_except body handler tr = (Ok (Report results log_file total_runtime), tr') ->
  body tr = (Ok (Report results log_file total_runtime), tr').
Proof.
  intros Hh. unfold try_except. destruct (body tr) as [[r|e] t]; [auto|].
  destruct (Hh e t) as (error & t' & ->). discriminate.
Qed.

Lemma try_returned {A : Type} (body : M A) handler tr a tr' :
  body tr = (Ok a, tr') -> try_except body handler tr = (Ok a, tr').
Proof. unfold try_except. now intros ->. Qed.

Lemma report_carries h why results0 total results name total_runtime tr tr' :
  (let* log_filename := generate_log_file h results0 total in
   ret (Report results0 log_filename total)) tr
    = (Ok (Report results (Some name) total_runtime), tr') ->
  (let* log_filename := generate_log_file (with_unwritable_log h why) results0 total in
   ret (Report results0 log_filename total)) tr
    = (Ok (Report results None total_runtime),
       tr' ++ [Logged ERROR "Failed to write log file: {}" [AExn (OSError why)]]).
Proof.
  intros E. apply bind_Ok_inv in E as (lf & t & Eg & E).
  apply ret_Ok_inv in E as [E ->]. injection E as -> -> ->.
  unfold bind. now rewrite (unwritable_log_file h why _ _ _ _ _ Eg).
Qed.

(** X14 (main, delete_snapshots, generate_log_file). The report survives
    a log file that cannot be written: whenever a run returns a report
    that names its log file, the same run on a machine where opening the
    log file raises returns the same results and total runtime, with no
    log file named, after logging the failure. Both variants. *)
Theorem X14_report_survives_unwritable_log_file
    (h : host) (ids : list string) (tr : list event) (why : string) :
  (forall results name total_runtime tr',
      Sync.main h ids tr = (Ok (Report results (Some name) total_runtime), tr') ->
      Sync.main (with_unwritable_log h why) ids tr =
        (Ok (Report results None total_runtime),
         tr' ++ [Logged ERROR "Failed to write log file: {}" [AExn (OSError why)]]))
  /\ (forall results name total_runtime tr',
      V2.delete_snapshots h ids tr = (Ok (Report results (Some name) total_runtime), tr') ->
      V2.delete_snapshots (with_unwritable_log h why) ids tr =
        (Ok (Report results None total_runtime),
         tr' ++ [Logged ERROR "Failed to write log file: {}" [AExn (OSError why)]])).
Proof.
  split; intros results name total_runtime tr' E.
  - apply try_report_inv in E; [|intros e t; do 2 eexists; reflexivity].
    apply try_returned. revert E. unfold Sync.main_body.
    change (Sync.check_az_login (with_unwritable_log h why)) with (Sync.check_az_login h).
    change (Sync.now (with_unwritable_log h why)) with (Sync.now h).
    change (Sync.get_subscription_names (with_unwritable_log h why))
      with (Sync.get_subscription_names h).
    change (Sync.pre_validate_snapshots (with_unwritable_log h why))
      with (Sync.pre_validate_snapshots h).
    change (Sync.check_and_remove_scope_locks (with_unwritable_log h why))
      with (Sync.check_and_remove_scope_locks h).
    change (Sync.delete_valid_snapshots (with_unwritable_log h why))
      with (Sync.delete_valid_snapshots h).
    change (Sync.restore_scope_locks (with_unwritable_log h why))
      with (Sync.restore_scope_locks h).
    apply bind_carries. intros logged_in t1.
    destruct (negb logged_in); [discriminate|].
    apply bind_carries. intros start t2.
    apply bind_carries. intros names t3.
    apply bind_carries. intros u t4.
    apply bind_carries. intros [valid pre] t5.
    apply bind_carries. intros results0 t6.
    apply bind_carries. intros finish t7.
    apply report_carries.
  - apply try_report_inv in E; [|intros e t; do 2 eexists; reflexivity].
    apply try_returned. revert E. unfold V2.delete_snapshots_body.
    change (V2.check_az_login (with_unwritable_log h why)) with (V2.check_az_login h).
    change (V2.now (with_unwritable_log h why)) with (V2.now h).
    change (V2.get_subscriptions (with_unwritable_log h why)) with (V2.get_subscriptions h).
    change (V2.pre_validate_snapshots (with_unwritable_log h why))
      with (V2.pre_validate_snapshots h).
    change (V2.check_and_remove_scope_locks (with_unwritable_log h why))
      with (V2.check_and_remove_scope_locks h).
    change (V2.delete_valid_snapshots (with_unwritable_log h why))
      with (V2.delete_valid_snapshots h).
    change (V2.restore_scope_locks (with_unwritable_log h why))
      with (V2.restore_scope_locks h).
    apply bind_carries. intros logged_in t1.
    destruct (negb logged_in); [discriminate|].
    apply bind_carries. intros start t2.
    apply bind_carries. intros subscriptions t3.
    apply bind_carries. intros names t3'.
    apply bind_carries. intros u t4.
    apply bind_carries. intros [valid pre] t5.
    apply bind_carries. intros results0 t6.
    apply bind_carries. intros finish t7.
    apply report_carries.
Qed.

Lemma X14_witness :
  (exists results total_runtime tr',
     Sync.main (with_unwritable_log (host_of az_locked) "[Errno 28] No space left on device")
       [snap_a] []
       = (Ok (Report results None total_runtime), tr')
     /\ status_list results "Prod" "deleted" = Some [Name "snap-a"])
  /\ (exists results total_runtime tr',
     V2.delete_snapshots
       (with_unwritable_log (host_of az_locked) "[Errno 28] No space left on device")
       [snap_a] []
       = (Ok (Report results None total_runtime), tr')
     /\ status_list results "Prod" "deleted" = Some [Name "snap-a"]).
Proof.
  pose proof (X14_report_survives_unwritable_log_file (host_of az_locked) [snap_a] []
                "[Errno 28] No space left on device") as (Hsync & Hv2).
  split.
  - run_eq H (Sync.main (host_of az_locked) [snap_a] []).
    do 3 eexists. split; [exact (Hsync _ _ _ _ H)|]. vm_compute. reflexivity.
  - run_eq H (V2.delete_snapshots (host_of az_locked) [snap_a] []).
    do 3 eexists. split; [exact (Hv2 _ _ _ _ H)|]. vm_compute. reflexivity.
Defined.

(** ** The account listing and the login check *)

Lemma sync_names_undecodable h tr out err :
  az h tr account_list_command = Exited 0 out err ->
  Py.strip out <> EmptyString ->
  Py.startswith "Error:" (Py.strip out) = false ->
  Json.loads (Py.strip out) = None ->
  Sync.get_subscription_names h tr
    = (Raise (JSONDecodeError (Py.strip out)), tr ++ [Ran account_list_command]).
Proof.
  intros Haz Hne Hpre Hloads. unfold Sync.get_subscription_names.
  rewrite (bind_ok _ _ _ _ _ (sync_run_shell_exact h _ tr)).
  fold account_list_command. rewrite Haz. cbn [sync_reading Z.eqb sync_run_logs].
  rewrite Hpre. apply String.eqb_neq in Hne. rewrite Hne. cbn [negb andb].
  unfold Value.loads. rewrite Hloads. reflexivity.
Qed.

Lemma v2_subscriptions_undecodable h tr out err :
  az h (v2_listing_asked tr) v2_account_list_command = Exited 0 out err ->
  Py.strip out <> EmptyString ->
  Json.loads (Py.strip out) = None ->
  exists ev,
    V2.get_subscriptions h tr = (Raise (JSONDecodeError (Py.strip out)), tr ++ ev)
    /\ commands ev = [v2_account_list_command].
Proof.
  intros Haz Hne Hloads. unfold V2.get_subscriptions.
  unfold bind at 1. cbn [log].
  rewrite (bind_ok _ _ _ _ _ (v2_run_exact h _ _)).
  fold v2_account_list_command. fold (v2_listing_asked tr). rewrite Haz.
  cbn [v2_reading Z.eqb v2_run_logs].
  destruct (Py.strip out) as [|c rest] eqn:Es; [congruence|].
  cbn [V2.truthy_text V2.loads]. unfold Value.loads. rewrite Hloads. cbn [lift].
  eexists. split.
  - unfold bind, raise, v2_listing_asked, v2_asked. rewrite <- !app_assoc. reflexivity.
  - reflexivity.
Qed.

(** X15 (main, get_subscription_names; delete_snapshots,
    get_subscriptions). An account listing that succeeds with text that
    is no JSON document is fatal, unlike a listing that fails: the entry
    point returns the error dictionary with the decoding error, and the
    account listing is the last command of the run, so nothing is
    validated and nothing is changed. Both variants. *)
Theorem X15_undecodable_account_listing_is_fatal
    (h : host) (ids : list string) (tr tr1 : list event) (out err : string) :
  Py.strip out <> EmptyString ->
  Json.loads (Py.strip out) = None ->
  (Sync.check_az_login h tr = (Ok true, tr1) ->
   az h tr1 account_list_command = Exited 0 out err ->
   Py.startswith "Error:" (Py.strip out) = false ->
   exists ev,
     Sync.main h ids tr = (Ok (Failure (StrOf (JSONDecodeError (Py.strip out)))), tr1 ++ ev)
     /\ commands ev = [account_list_command])
  /\ (V2.check_az_login h tr = (Ok true, tr1) ->
      az h (v2_listing_asked tr1) v2_account_list_command = Exited 0 out err ->
      exists ev,
        V2.delete_snapshots h ids tr
          = (Ok (Failure (StrOf (JSONDecodeError (Py.strip out)))), tr1 ++ ev)
        /\ commands ev = [v2_account_list_command]).
Proof.
  intros Hne Hloads. split.
  - intros Hlogin Haz Hpre.
    pose proof (sync_names_undecodable h tr1 out err Haz Hne Hpre Hloads) as Hn.
    unfold Sync.main, Sync.main_body.
    rewrite (try_bind_ok _ _ _ _ _ _ Hlogin). cbn [negb].
    rewrite (try_bind_ok _ _ _ _ (clock h tr1) tr1) by reflexivity.
    rewrite (try_bind_raise _ _ _ _ _ _ Hn).
    eexists. split; [unfold bind, log, ret; rewrite <- app_assoc; reflexivity|].
    reflexivity.
  - intros Hlogin Haz.
    destruct (v2_subscriptions_undecodable h tr1 out err Haz Hne Hloads) as (ev & Hn & Hc).
    unfold V2.delete_snapshots, V2.delete_snapshots_body.
    rewrite (try_bind_ok _ _ _ _ _ _ Hlogin). cbn [negb].
    rewrite (try_bind_ok _ _ _ _ (clock h tr1) tr1) by reflexivity.
    rewrite (try_bind_raise _ _ _ _ _ _ Hn).
    eexists. split; [unfold bind, log, ret; rewrite <- app_assoc; reflexivity|].
    rewrite commands_app, Hc. reflexivity.
Qed.

Lemma X15_witness :
  exists ev,
    Sync.main (host_of az_garbled) [snap_a] []
      = (Ok (Failure (StrOf (JSONDecodeError (Py.strip "<html>502 Bad Gateway</html>")))),
         [Ran account_show_command] ++ ev)
    /\ commands ev = [account_list_command].
Proof.
  refine (proj1 (X15_undecodable_account_listing_is_fatal (host_of az_garbled) [snap_a] []
                   [Ran account_show_command] "<html>502 Bad Gateway</html>" "" _ _) _ _ _).
  - vm_compute. discriminate.
  - vm_compute. reflexivity.
  - vm_compute. reflexivity.
  - reflexivity.
  - vm_compute. reflexivity.
Defined.

(** X16 (delete_snapshots, check_az_login of the event-loop variant).
    The account status check gates the run. When it succeeds with blank
    output, the entry point returns the not-logged-in error dictionary;
    when it fails, the entry point returns an error dictionary. Either
    way the account status check is the only command of the run. *)
Theorem X16_v2_login_check_gates_the_run
    (h : host) (ids : list string) (tr : list event) :
  (forall out err,
      az h (v2_login_asked tr) account_show_command = Exited 0 out err ->
      Py.strip out = EmptyString ->
      exists ev,
        V2.delete_snapshots h ids tr = (Ok not_logged_in, tr ++ ev)
        /\ commands ev = [account_show_command])
  /\ (failed (az h (v2_login_asked tr) account_show_command) = true ->
      exists error ev,
        V2.delete_snapshots h ids tr = (Ok (Failure error), tr ++ ev)
        /\ commands ev = [account_show_command]).
Proof.
  assert (V2.truthy_text (v2_reading (az h (v2_login_asked tr) account_show_command)) = false ->
          exists ev,
            V2.delete_snapshots h ids tr = (Ok not_logged_in, tr ++ ev)
            /\ commands ev = [account_show_command]) as Hgate.
  { intros Hfalse.
    assert (exists ev, V2.check_az_login h tr = (Ok false, tr ++ ev)
                       /\ commands ev = [account_show_command]) as (ev & Hlogin & Hc).
    { unfold V2.check_az_login. unfold bind at 1. cbn [log].
      rewrite (bind_ok _ _ _ _ _ (v2_run_exact h _ _)).
      fold account_show_command. fold (v2_login_asked tr). rewrite Hfalse.
      eexists. split.
      - unfold bind, log, ret, v2_login_asked, v2_asked. rewrite <- !app_assoc. reflexivity.
      - rewrite ?commands_app. cbn [commands app].
        rewrite ?commands_app, ?v2_run_logs_commands. reflexivity. }
    exists ev. split; [|exact Hc].
    unfold V2.delete_snapshots, V2.delete_snapshots_body.
    rewrite (try_bind_ok _ _ _ _ _ _ Hlogin). reflexivity. }
  split.
  - intros out err Hr Hs. apply Hgate. rewrite Hr. cbn [v2_reading Z.eqb]. rewrite Hs.
    reflexivity.
  - intros Hf. destruct Hgate as (ev & E & Hc).
    + rewrite (v2_reading_failed _ Hf). reflexivity.
    + eexists. exists ev. split; [exact E | exact Hc].
Qed.

Lemma X16_witness :
  (exists ev,
     V2.delete_snapshots (host_of az_mute) [snap_a] [] = (Ok not_logged_in, [] ++ ev)
     /\ commands ev = [account_show_command])
  /\ (exists error ev,
     V2.delete_snapshots (host_of az_signed_out) [snap_a] [] = (Ok (Failure error), [] ++ ev)
     /\ commands ev = [account_show_command]).
Proof.
  split.
  - apply (proj1 (X16_v2_login_check_gates_the_run (host_of az_mute) [snap_a] []) " " "");
      vm_compute; reflexivity.
  - apply (proj2 (X16_v2_login_check_gates_the_run (host_of az_signed_out) [snap_a] [])).
    vm_compute. reflexivity.
Defined.

Example sync_takes_blank_status_for_login :
  (Sync.check_az_login (host_of az_mute) []).1 = Ok true
  /\ (V2.check_az_login (host_of az_mute) []).1 = Ok false.
Proof. split; vm_compute; reflexivity. Qed.

(** ** The format gate of the validator *)

Lemma split_length sep s : length (Py.split sep s) = S (occurrences sep s).
Proof.
  induction s as [|c rest IH]; [reflexivity|].
  cbn [Py.split occurrences]. destruct (Ascii.eqb c sep).
  - cbn [length]. rewrite IH. reflexivity.
  - destruct (Py.split sep rest) as [|w ws]; [discriminate IH|].
    cbn [length] in *. lia.
Qed.

Lemma wellformed_slashes id : wellformed id <-> 8 <= occurrences "/" id.
Proof. unfold wellformed. rewrite split_length. lia. Qed.

Lemma truthy_Some name account :
  Sync.truthy name = Some account -> name = Some account /\ account <> EmptyString.
Proof.
  destruct name as [[|c r]|]; cbn [Sync.truthy]; intros E; try discriminate.
  injection E as <-. split; [reflexivity | discriminate].
Qed.

Lemma sync_validate_loop_keyed h names ids : forall v0 r0 tr,
  exists v1 results tr',
    Sync.validate_loop h ids names v0 r0 tr = (Ok (v0 ++ v1, results), tr')
    /\ Forall (fun id => wellformed id /\ account_of names id <> EmptyString) v1.
Proof.
  induction ids as [|id rest IH]; intros v0 r0 tr.
  - exists [], r0, tr. rewrite app_nil_r. split; [reflexivity | constructor].
  - destruct (decide (wellformed id)) as [Hw|Hw].
    + destruct (sync_process_wellformed h id names tr Hw) as (logs & E & _).
      cbn [Sync.validate_loop]. rewrite (bind_ok _ _ _ _ _ E).
      destruct (Sync.truthy (Some (account_of names id))) as [account|] eqn:Et.
      * apply truthy_Some in Et as [Et Hne]. injection Et as <-.
        match goal with
        | |- context [Sync.validate_loop h rest names ?v ?r ?t] =>
            destruct (IH v r t) as (v1 & results & tr' & E' & Hv)
        end.
        destruct (String.eqb _ "valid").
        -- exists (id :: v1), results, tr'. rewrite E', <- app_assoc.
           split; [reflexivity|]. constructor; [split; assumption | exact Hv].
        -- exists v1, results, tr'. rewrite E'. split; [reflexivity | exact Hv].
      * apply IH.
    + assert (length (Py.split "/" id) < 9) as Hlt by (unfold wellformed in Hw; lia).
      cbn [Sync.validate_loop].
      rewrite (bind_ok _ _ _ _ _ (sync_process_malformed h id names tr Hlt)).
      unfold malformed_verdict. cbn [Sync.truthy]. apply IH.
Qed.

Lemma v2_validate_loop_keyed h names ids : forall v0 r0 tr,
  exists v1 results tr',
    V2.validate_loop h ids names v0 r0 tr = (Ok (v0 ++ v1, results), tr')
    /\ Forall (fun id => wellformed id /\ account_of names id <> EmptyString) v1.
Proof.
  induction ids as [|id rest IH]; intros v0 r0 tr.
  - exists [], r0, tr. rewrite app_nil_r. split; [reflexivity | constructor].
  - destruct (decide (wellformed id)) as [Hw|Hw].
    + destruct (v2_process_wellformed h id names tr Hw) as (logs & E & _).
      cbn [V2.validate_loop]. rewrite (bind_ok _ _ _ _ _ E).
      destruct (Sync.truthy (Some (account_of names id))) as [account|] eqn:Et.
      * apply truthy_Some in Et as [Et Hne]. injection Et as <-.
        match goal with
        | |- context [V2.validate_loop h rest names ?v ?r ?t] =>
            destruct (IH v r t) as (v1 & results & tr' & E' & Hv)
        end.
        destruct (String.eqb _ "valid").
        -- exists (id :: v1), results, tr'. rewrite E', <- app_assoc.
           split; [reflexivity|]. constructor; [split; assumption | exact Hv].
        -- exists v1, results, tr'. rewrite E'. split; [reflexivity | exact Hv].
      * apply IH.
    + assert (length (Py.split "/" id) < 9) as Hlt by (unfold wellformed in Hw; lia).
      cbn [V2.validate_loop].
      rewrite (bind_ok _ _ _ _ _ (v2_process_malformed h id names tr Hlt)).
      unfold malformed_verdict. cbn [Sync.truthy]. apply IH.
Qed.

(** X17 (pre_validate_snapshots). In both variants every identifier of
    the valid list has nine segments or more and a non-empty report key
    (the display name of its account, or its account segment): an
    identifier whose key is empty is filed under Unknown and is never
    handed to the deletion phase, even when its existence check
    succeeds. *)
Theorem X17_valid_identifiers_have_an_account_key
    (h : host) (ids : list string) (names : gmap string string) (tr : list event) :
  (exists valid results tr',
      Sync.pre_validate_snapshots h ids names tr = (Ok (valid, results), tr')
      /\ Forall (fun id => wellformed id /\ account_of names id <> EmptyString) valid)
  /\ (exists valid results tr',
      V2.pre_validate_snapshots h ids names tr = (Ok (valid, results), tr')
      /\ Forall (fun id => wellformed id /\ account_of names id <> EmptyString) valid).
Proof.
  split.
  - exact (sync_validate_loop_keyed h names ids [] ∅ tr).
  - exact (v2_validate_loop_keyed h names ids [] ∅ tr).
Qed.

Example blank_identifier_is_checked_but_not_deleted :
  (Sync.pre_validate_snapshots (host_of az_locked) [snap_blank] ∅ []).1
    = Ok ([], {[ "Unknown" := {[ "valid" := [Name ""] ]} ]})
  /\ commands (Sync.pre_validate_snapshots (host_of az_locked) [snap_blank] ∅ []).2
    = [show_command snap_blank].
Proof. split; vm_compute; reflexivity. Qed.

(** X18 (process_snapshot). The format gate of the validator counts
    separators and nothing else: in both variants an identifier gets the
    malformed verdict, with no client call, exactly when it holds fewer
    than eight slashes; with eight or more it is sent to the existence
    check, whatever its segments are. *)
Theorem X18_format_gate_counts_slashes
    (h : host) (id : string) (names : gmap string string) (tr : list event) :
  (occurrences "/" id < 8 <->
     Sync.process_snapshot h id names tr
       = (Ok (malformed_verdict id),
          tr ++ [Logged ERROR "Invalid snapshot ID format: {}" [AText id]]))
  /\ (occurrences "/" id < 8 <->
     V2.process_snapshot h id names tr
       = (Ok (malformed_verdict id),
          tr ++ [Logged ERROR "Invalid snapshot ID format: {}" [AText id]]))
  /\ (8 <= occurrences "/" id ->
      (exists verdict ev, Sync.process_snapshot h id names tr = (Ok verdict, tr ++ ev)
                          /\ commands ev = [show_command id])
      /\ (exists verdict ev, V2.process_snapshot h id names tr = (Ok verdict, tr ++ ev)
                             /\ commands ev = [show_command id])).
Proof.
  assert (occurrences "/" id < 8 <-> length (Py.split "/" id) < 9) as Hlen
    by (rewrite split_length; lia).
  split; [|split].
  - rewrite Hlen. split; [apply sync_process_malformed|].
    intros E. destruct (decide (length (Py.split "/" id) < 9)) as [|Hw]; [assumption|].
    destruct (sync_process_wellformed h id names tr) as (logs & E' & _);
      [unfold wellformed; lia|].
    rewrite E' in E. discriminate E.
  - rewrite Hlen. split; [apply v2_process_malformed|].
    intros E. destruct (decide (length (Py.split "/" id) < 9)) as [|Hw]; [assumption|].
    destruct (v2_process_wellformed h id names tr) as (logs & E' & _);
      [unfold wellformed; lia|].
    rewrite E' in E. discriminate E.
  - intros Hw. apply wellformed_slashes in Hw. split.
    + destruct (sync_process_wellformed h id names tr Hw) as (logs & E & Hl).
      eexists _, _. split; [exact E|]. cbn [commands]. rewrite Hl. reflexivity.
    + destruct (v2_process_wellformed h id names tr Hw) as (logs & E & Hl).
      eexists _, _. split.
      * rewrite E. unfold v2_asked. rewrite <- app_assoc. reflexivity.
      * cbn [commands app]. rewrite Hl. reflexivity.
Qed.

(** ** The pairs of lock discovery *)

Lemma resource_groups_size_fold ids : forall acc : gset (string * string),
  size (foldl (fun resource_groups snapshot_id =>
                 let parts := Py.split "/" snapshot_id in
                 if bool_decide (5 ≤ length parts)
                 then resource_groups ∪ {[ (nth 2 parts EmptyString, nth 4 parts EmptyString) ]}
                 else resource_groups) acc ids)
  <= size acc + length ids.
Proof.
  induction ids as [|id rest IH]; intros acc; [simpl; lia|].
  cbn [foldl length]. etransitivity; [apply IH|].
  destruct (bool_decide _); [|lia].
  set (p := (nth 2 (Py.split "/" id) EmptyString, nth 4 (Py.split "/" id) EmptyString)).
  rewrite size_union_alt.
  assert (size (({[ p ]} : gset (string * string)) ∖ acc) <= 1) as H.
  { rewrite <- (size_singleton (C:=gset (string * string)) p).
    apply subseteq_size, subseteq_difference_l. reflexivity. }
  lia.
Qed.

(** X19 (get_resource_groups_from_snapshots). The pairs of lock
    discovery depend only on which identifiers are given, not on their
    order nor on how often each occurs; and there are never more pairs
    than identifiers. *)
Theorem X19_resource_groups_ignore_order_and_repetition (ids ids' : list string) :
  ((forall id, id ∈ ids <-> id ∈ ids') ->
   get_resource_groups_from_snapshots ids = get_resource_groups_from_snapshots ids')
  /\ size (get_resource_groups_from_snapshots ids) <= length ids.
Proof.
  split.
  - intros Hsame. apply set_eq. intros p. rewrite !resource_groups_spec.
    split; intros (id & Hin & Hrest); exists id; (split; [apply Hsame, Hin | exact Hrest]).
  - unfold get_resource_groups_from_snapshots.
    etransitivity; [apply resource_groups_size_fold|]. rewrite size_empty. lia.
Qed.

Lemma X19_witness :
  get_resource_groups_from_snapshots [snap_a; snap_c; snap_b; snap_a]
    = get_resource_groups_from_snapshots [snap_c; snap_b; snap_a].
Proof.
  apply (proj1 (X19_resource_groups_ignore_order_and_repetition
                  [snap_a; snap_c; snap_b; snap_a] [snap_c; snap_b; snap_a])).
  intros id. rewrite !elem_of_cons, !elem_of_nil. tauto.
Defined.

(** ** The merge, account by account *)

(** X20 (main, delete_snapshots: the merge of the two reports). The
    merge does not depend on the order in which the deletion report is
    walked. Account by account: an account of the deletion report alone
    is taken as it is, an account of the validation report alone is kept
    as it is, and for an account of both, every status list of the
    deletion report replaces the validation list of the same status while
    the other validation lists are kept. Merging an empty deletion report
    changes nothing. *)
Theorem X20_merge_is_accountwise_and_deletion_wins
    (pre deletion : gmap string (gmap string (list entry))) (account status : string) :
  merge_results pre deletion !! account
    = match deletion !! account with
      | Some d => Some (match pre !! account with Some old => d ∪ old | None => d end)
      | None => pre !! account
      end
  /\ status_list (merge_results pre deletion) account status
     = match status_list deletion account status with
       | Some l => Some l
       | None => status_list pre account status
       end
  /\ merge_results pre ∅ = pre.
Proof.
  split; [apply merge_results_lookup|]. split; [apply merge_results_status|].
  apply map_eq. intros a. rewrite merge_results_lookup, lookup_empty. reflexivity.
Qed.

(** ** The account names *)

Lemma loads_E rest : Json.loads (String "E" rest) = None.
Proof. reflexivity. Qed.

Lemma loads_empty : Json.loads EmptyString = None.
Proof. reflexivity. Qed.

Lemma names_of_objects accounts : forall names tr,
  names_of (map account_object accounts) names tr
    = (Ok (foldl (fun m account => <[account.1 := account.2]> m) names accounts), tr).
Proof.
  induction accounts as [|[i n] rest IH]; intros names tr; [reflexivity|].
  cbn [map names_of]. unfold account_object at 1 2.
  cbn [Value.getitem Value.find fst snd String.eqb Ascii.eqb Bool.eqb lift as_text].
  unfold bind, ret. cbn. apply IH.
Qed.

Lemma foldl_insert_last_wins (accounts : list (string * string)) : forall names : gmap string string,
  foldl (fun m account => <[account.1 := account.2]> m) names accounts
    = list_to_map (reverse accounts) ∪ names.
Proof.
  induction accounts as [|[i n] rest IH]; intros names.
  - cbn. rewrite (left_id_L ∅ (∪)). reflexivity.
  - cbn [foldl fst snd]. rewrite IH, reverse_cons, list_to_map_app.
    cbn [list_to_map foldr fmap list_fmap fst snd].
    rewrite <- (assoc_L (∪)). f_equal.
    rewrite insert_union_singleton_l. f_equal.
Qed.

(** X21 (get_subscription_names). When the account listing succeeds
    with a JSON array of objects with text members id and name, the name
    table of the sequential variant maps every listed account id to the
    name of its last occurrence in the listing and holds nothing else; the
    listing is the only command. *)
Theorem X21_name_table_maps_each_account_to_its_last_listed_name
    (h : host) (tr : list event) (out err : string) (accounts : list (string * string)) :
  az h tr account_list_command = Exited 0 out err ->
  Json.loads (Py.strip out) = Some (JArr (map account_object accounts)) ->
  Sync.get_subscription_names h tr
    = (Ok (list_to_map (reverse accounts)), tr ++ [Ran account_list_command]).
Proof.
  intros Haz Hloads. unfold Sync.get_subscription_names.
  rewrite (bind_ok _ _ _ _ _ (sync_run_shell_exact h _ tr)).
  fold account_list_command. rewrite Haz. cbn [sync_reading Z.eqb sync_run_logs].
  destruct (Py.strip out) as [|c rest] eqn:Es; [rewrite loads_empty in Hloads; discriminate|].
  assert (Py.startswith "Error:" (String c rest) = false) as Hpre.
  { destruct (Py.startswith "Error:" (String c rest)) eqn:Ep; [|reflexivity].
    unfold Py.startswith in Ep. cbn [String.prefix] in Ep.
    destruct (ascii_dec "E" c) as [<-|]; [|discriminate].
    rewrite loads_E in Hloads. discriminate. }
  rewrite Hpre. cbn [String.eqb negb andb].
  unfold Value.loads. rewrite Hloads. cbn [lift].
  unfold bind at 1. unfold ret at 1. cbn [Value.iter lift].
  unfold bind at 1. unfold ret at 1.
  rewrite names_of_objects, foldl_insert_last_wins, (right_id_L ∅ (∪)). reflexivity.
Qed.

Lemma X21_witness :
  Sync.get_subscription_names (host_of az_locked) []
    = (Ok (list_to_map (reverse [("111", "Prod"); ("222", "Test")])),
       [] ++ [Ran account_list_command]).
Proof.
  apply (X21_name_table_maps_each_account_to_its_last_listed_name (host_of az_locked) []
           accounts_text "" [("111", "Prod"); ("222", "Test")]).
  - reflexivity.
  - vm_compute. reflexivity.
Defined.

(** ** The client call of create_snapshot2.py *)

Lemma spawns_app ev1 ev2 : spawns (ev1 ++ ev2) = spawns ev1 ++ spawns ev2.
Proof. apply omap_app. Qed.

Lemma sleeps_app ev1 ev2 : sleeps (ev1 ++ ev2) = sleeps ev1 ++ sleeps ev2.
Proof. apply omap_app. Qed.

Lemma spawns_spawned l ev : spawns (Create.Spawned l :: ev) = l :: spawns ev.
Proof. reflexivity. Qed.

Lemma spawns_wrote t a ev : spawns (Create.Wrote t a :: ev) = spawns ev.
Proof. reflexivity. Qed.

Lemma sleeps_spawned l ev : sleeps (Create.Spawned l :: ev) = sleeps ev.
Proof. reflexivity. Qed.

Lemma sleeps_wrote t a ev : sleeps (Create.Wrote t a :: ev) = sleeps ev.
Proof. reflexivity. Qed.

Lemma then_Done_inv {A B : Type} (m : Create.T A) (k : A -> Create.T B) tr b tr' :
  Create.then_ m k tr = (Create.Done b, tr') ->
  exists a tr1, m tr = (Create.Done a, tr1) /\ k a tr1 = (Create.Done b, tr').
Proof.
  unfold Create.then_. destruct (m tr) as [[a|e] tr1]; intros E; [|discriminate].
  exists a, tr1. split; [reflexivity | exact E].
Qed.

Lemma write_log_Done_inv log_raises t a tr (u : unit) tr' :
  Create.write_log log_raises t a tr = (Create.Done u, tr') ->
  tr' = tr ++ [Create.Wrote t a].
Proof.
  unfold Create.write_log. destruct (log_raises tr); intros E; [discriminate|].
  injection E as _ <-. reflexivity.
Qed.

Lemma communicate_Done_inv shell command tr rc out err tr' :
  Create.communicate shell command tr = (Create.Done (rc, out, err), tr') ->
  shell tr command = Exited rc out err /\ tr' = tr ++ [Create.Spawned command].
Proof.
  unfold Create.communicate. destruct (shell tr command) as [rc0 out0 err0|why];
    intros E; [|discriminate].
  injection E as <- <- <- <-. split; reflexivity.
Qed.

Section Retry.

Variable shell : list Create.effect -> string -> completed.
Variable log_raises : list Create.effect -> option string.
Variables (command : string) (max_retries delay : Z).

(** The pause after a failed attempt: taken unless the attempt was the
    last one. *)
Lemma pause_Done_inv attempt tr (u : unit) tr' :
  (if (attempt <? max_retries - 1)%Z
   then Create.then_ (Create.write_log log_raises "Retrying in {} seconds..." [Create.VInt delay])
          (fun _ => Create.sleep delay)
   else Create.unit_ tt) tr = (Create.Done u, tr') ->
  exists ev, tr' = tr ++ ev /\ spawns ev = []
             /\ sleeps ev = if (attempt <? max_retries - 1)%Z then [delay] else [].
Proof.
  destruct (attempt <? max_retries - 1)%Z.
  - intros E. apply then_Done_inv in E as (u1 & t1 & E1 & E).
    apply write_log_Done_inv in E1 as ->.
    unfold Create.sleep in E. injection E as _ <-.
    eexists. split; [rewrite <- app_assoc; reflexivity|]. split; reflexivity.
  - intros E. unfold Create.unit_ in E. injection E as _ <-.
    exists []. rewrite app_nil_r. repeat split.
Qed.

Lemma retry_loop_returns (remaining : nat) : forall attempt last tr out err rc tr',
  (0 < remaining -> (attempt + Z.of_nat remaining)%Z = max_retries) ->
  match last with Some (_, rcl) => rcl <> 0%Z | None => True end ->
  Create.retry_loop shell log_raises command max_retries delay remaining attempt last tr
    = (Create.Done (out, err, rc), tr') ->
  exists k ev,
    tr' = tr ++ ev
    /\ spawns ev = repeat command k
    /\ sleeps ev = repeat delay (k - 1)
    /\ k <= remaining
    /\ (rc <> 0%Z -> k = remaining /\ out = EmptyString)
    /\ (rc = 0%Z -> 1 <= k).
Proof.
  induction remaining as [|remaining IH]; intros attempt last tr out err rc tr' Hinv Hlast E.
  - cbn [Create.retry_loop] in E. destruct last as [[e rcl]|]; [|discriminate].
    unfold Create.unit_ in E. injection E as <- _ <- <-.
    exists 0, []. rewrite app_nil_r. repeat split; try reflexivity; try lia.
    all: try (intros Hz; contradiction).
  - cbn [Create.retry_loop] in E.
    apply then_Done_inv in E as ([[rc1 out1] err1] & t1 & E1 & E).
    apply communicate_Done_inv in E1 as [_ ->].
    destruct (rc1 =? 0)%Z eqn:Erc.
    + apply Z.eqb_eq in Erc. subst rc1.
      unfold Create.unit_ in E. injection E as <- <- <- <-.
      exists 1, [Create.Spawned command]. repeat split; try reflexivity; try lia.
      all: try (intros Hz; contradiction).
    + apply Z.eqb_neq in Erc.
      apply then_Done_inv in E as (u1 & t2 & E2 & E). apply write_log_Done_inv in E2 as ->.
      apply then_Done_inv in E as (u2 & t3 & E3 & E). apply write_log_Done_inv in E3 as ->.
      apply then_Done_inv in E as (u3 & t4 & E4 & E).
      apply pause_Done_inv in E4 as (evp & -> & Hsp & Hsl).
      apply IH in E as (k & ev & -> & Hs & Hz & Hk & Hfail & Hok);
        [|lia|exact Erc].
      exists (S k). eexists. split; [rewrite <- !app_assoc; reflexivity|].
      assert ((attempt <? max_retries - 1)%Z = negb (Nat.eqb remaining 0)) as Hpause.
      { destruct remaining; cbn [Nat.eqb negb]; [apply Z.ltb_ge | apply Z.ltb_lt]; lia. }
      rewrite Hpause in Hsl.
      assert (k = 0 -> remaining = 0) as Hk0.
      { intros ->. destruct (Z.eq_dec rc 0%Z) as [Hrc|Hrc]; [specialize (Hok Hrc); lia|].
        destruct (Hfail Hrc) as [<- _]. reflexivity. }
      split; [|split; [|split; [|split]]].
      * cbn [app]. rewrite spawns_spawned, !spawns_wrote, spawns_app, Hsp, Hs. reflexivity.
      * cbn [app]. rewrite sleeps_spawned, !sleeps_wrote, sleeps_app, Hsl, Hz.
        destruct k as [|k].
        -- rewrite (Hk0 eq_refl). reflexivity.
        -- destruct remaining; [lia|]. cbn [Nat.eqb negb app]. cbn. rewrite Nat.sub_0_r.
           reflexivity.
      * lia.
      * intros Hrc. destruct (Hfail Hrc) as [-> ->]. split; reflexivity.
      * intros _. lia.
Qed.

End Retry.

Section Exhausted.

Variable shell : list Create.effect -> string -> completed.
Variable log_raises : list Create.effect -> option string.
Variables (command : string) (max_retries delay : Z).

Hypothesis every_attempt_fails :
  forall t, exists rc out err, shell t command = Exited rc out err /\ rc <> 0%Z.
Hypothesis log_goes_through : forall t, log_raises t = None.

Lemma retry_loop_exhausts (remaining : nat) : forall attempt last tr,
  (0 < remaining -> (attempt + Z.of_nat remaining)%Z = max_retries) ->
  (remaining = 0 -> exists e rcl, last = Some (e, rcl)) ->
  exists err rc ev,
    Create.retry_loop shell log_raises command max_retries delay remaining attempt last tr
      = (Create.Done (EmptyString, err, rc), tr ++ ev)
    /\ spawns ev = repeat command remaining
    /\ sleeps ev = repeat delay (remaining - 1)
    /\ (0 < remaining -> rc <> 0%Z).
Proof.
  induction remaining as [|remaining IH]; intros attempt last tr Hinv Hlast.
  - destruct (Hlast eq_refl) as (e & rcl & ->).
    exists (Py.strip e), rcl, []. rewrite app_nil_r. repeat split. lia.
  - destruct (every_attempt_fails tr) as (rc1 & out1 & err1 & Hsh & Hrc).
    cbn [Create.retry_loop]. unfold Create.then_ at 1, Create.communicate. rewrite Hsh.
    apply Z.eqb_neq in Hrc. rewrite Hrc.
    unfold Create.then_ at 1, Create.write_log at 1. rewrite log_goes_through.
    unfold Create.then_ at 1, Create.write_log at 1. rewrite log_goes_through.
    assert ((attempt <? max_retries - 1)%Z = negb (Nat.eqb remaining 0)) as Hpause.
    { destruct remaining; cbn [Nat.eqb negb]; [apply Z.ltb_ge | apply Z.ltb_lt]; lia. }
    rewrite Hpause. unfold Create.then_ at 1.
    destruct remaining as [|remaining].
    + cbn [Nat.eqb negb Create.unit_ Create.retry_loop].
      eexists _, _, _. split; [unfold Create.unit_; rewrite <- !app_assoc; reflexivity|].
      repeat split. intros _. apply Z.eqb_neq, Hrc.
    + cbn [Nat.eqb negb]. unfold Create.then_ at 1, Create.write_log at 1.
      rewrite log_goes_through. unfold Create.sleep.
      edestruct (IH (attempt + 1)%Z (Some (err1, rc1))) as (err & rc & ev & E & Hs & Hz & Hne);
        [lia | discriminate |].
      rewrite E. eexists _, _, _. split; [rewrite <- !app_assoc; reflexivity|].
      split; [|split].
      * cbn [app]. rewrite spawns_spawned, !spawns_wrote.
        change (spawns (Create.Slept delay :: ev)) with (spawns ev). rewrite Hs. reflexivity.
      * cbn [app]. rewrite sleeps_spawned, !sleeps_wrote.
        change (sleeps (Create.Slept delay :: ev)) with (delay :: sleeps ev). rewrite Hz.
        cbn. rewrite Nat.sub_0_r. reflexivity.
      * intros _. apply Hne. lia.
Qed.

End Exhausted.

(** X22 (create_snapshot2.run_az_command). Whenever the client call with
    retries returns, it has spawned the same command between one and
    [max_retries] times and has paused exactly once between two
    consecutive attempts, never after the last; and when it returns a
    non-zero exit status it has used every attempt and its output is
    empty. *)
Theorem X22_retrying_call_makes_at_most_max_retries_attempts
    (shell : list Create.effect -> string -> completed)
    (append_log : list Create.effect -> option string)
    (command : string) (max_retries delay : Z) (tr tr' : list Create.effect)
    (out err : string) (rc : Z) :
  Create.run_az_command shell append_log command max_retries delay tr
    = (Create.Done (out, err, rc), tr') ->
  exists k ev,
    tr' = tr ++ ev
    /\ spawns ev = repeat command k
    /\ sleeps ev = repeat delay (k - 1)
    /\ 1 <= k <= Z.to_nat max_retries
    /\ (rc <> 0%Z -> k = Z.to_nat max_retries /\ out = EmptyString).
Proof.
  intros E. unfold Create.run_az_command in E.
  destruct (Z.to_nat max_retries) as [|n] eqn:En; [discriminate E|].
  apply retry_loop_returns in E as (k & ev & -> & Hs & Hz & Hk & Hfail & Hok);
    [|lia|exact I].
  exists k, ev. repeat split; try assumption.
  - destruct (Z.eq_dec rc 0%Z) as [Hrc|Hrc]; [exact (Hok Hrc)|].
    destruct (Hfail Hrc) as [-> _]. lia.
  - apply Hfail; assumption.
  - apply Hfail; assumption.
Qed.

Lemma X22_witness :
  exists k ev,
    (Create.run_az_command shell_third_time log_open "az vm show --ids vm1" 3 5 []).2 = [] ++ ev
    /\ spawns ev = repeat "az vm show --ids vm1" k
    /\ sleeps ev = repeat 5%Z (k - 1)
    /\ 1 <= k <= Z.to_nat 3
    /\ (0%Z <> 0%Z -> k = Z.to_nat 3 /\ "{}" = EmptyString).
Proof.
  apply (X22_retrying_call_makes_at_most_max_retries_attempts shell_third_time log_open
           "az vm show --ids vm1" 3 5 [] _ "{}" "" 0).
  vm_compute. reflexivity.
Defined.

Example third_attempt_succeeds :
  spawns (Create.run_az_command shell_third_time log_open "az vm show --ids vm1" 3 5 []).2
    = ["az vm show --ids vm1"; "az vm show --ids vm1"; "az vm show --ids vm1"]
  /\ sleeps (Create.run_az_command shell_third_time log_open "az vm show --ids vm1" 3 5 []).2
    = [5%Z; 5%Z]
  /\ (Create.run_az_command shell_third_time log_open "az vm show --ids vm1" 3 5 []).1
    = Create.Done ("{}", "", 0%Z).
Proof. repeat split; vm_compute; reflexivity. Qed.

(** X23 (create_snapshot2.run_az_command). When every attempt exits with
    a non-zero status and no call of [write_log] raises (the console
    accepts each message and the log file can be appended to), the call
    with at least one attempt allowed returns normally with empty output
    and a non-zero exit status, after exactly [max_retries] attempts and
    [max_retries] - 1 pauses: failure of the command is reported through
    the exit status, not as an exception. *)
Theorem X23_retrying_call_gives_up_after_max_retries_failures
    (shell : list Create.effect -> string -> completed)
    (log_raises : list Create.effect -> option string)
    (command : string) (max_retries delay : Z) (tr : list Create.effect) :
  (forall t, exists rc out err, shell t command = Exited rc out err /\ rc <> 0%Z) ->
  (forall t, log_raises t = None) ->
  (1 <= max_retries)%Z ->
  exists err rc ev,
    Create.run_az_command shell log_raises command max_retries delay tr
      = (Create.Done (EmptyString, err, rc), tr ++ ev)
    /\ rc <> 0%Z
    /\ spawns ev = repeat command (Z.to_nat max_retries)
    /\ sleeps ev = repeat delay (Z.to_nat max_retries - 1).
Proof.
  intros Hfail Hlog Hmax. unfold Create.run_az_command.
  destruct (retry_loop_exhausts shell log_raises command max_retries delay Hfail Hlog
              (Z.to_nat max_retries) 0%Z None tr) as (err & rc & ev & E & Hs & Hz & Hrc).
  - intros _. lia.
  - intros H0. lia.
  - exists err, rc, ev. repeat split; try assumption. apply Hrc. lia.
Qed.

Lemma X23_witness :
  exists err rc ev,
    Create.run_az_command shell_refuses log_open "az account set --subscription 111" 3 5 []
      = (Create.Done (EmptyString, err, rc), [] ++ ev)
    /\ rc <> 0%Z
    /\ spawns ev = repeat "az account set --subscription 111" (Z.to_nat 3)
    /\ sleeps ev = repeat 5%Z (Z.to_nat 3 - 1).
Proof.
  apply (X23_retrying_call_gives_up_after_max_retries_failures shell_refuses log_open
           "az account set --subscription 111" 3 5 []).
  - intros t. exists 1%Z, "", "ERROR: Please run 'az login' to setup account.".
    split; [reflexivity | discriminate].
  - intros t. reflexivity.
  - lia.
Defined.

(** The error output of a failed attempt holds a closing tag, which the
    console refuses when the second message is printed: the call ends with
    that exception after one attempt, without a pause. *)
Example refused_message_ends_the_call :
  Create.run_az_command
    (fun _ _ => Exited 1 "" "see [/docs]")
    (fun t => if (length t =? 2)%nat
              then Some "closing tag '[/docs]' at position 11 doesn't match any open tag"
              else None)
    "az account set --subscription 111" 3 5 []
  = (Create.Fault
       (Create.LogFault "closing tag '[/docs]' at position 11 doesn't match any open tag"),
     [Create.Spawned "az account set --subscription 111";
      Create.Wrote "Command failed (attempt {}): {}"
        [Create.VInt 1; Create.VText "az account set --subscription 111"];
      Create.Refused "Error: {}" [Create.VText "see [/docs]"]]).
Proof. vm_compute. reflexivity. Qed.

(** X24 (create_snapshot2.run_az_command). With no attempt allowed
    ([max_retries] zero or negative) the call spawns nothing and raises
    UnboundLocalError at the statement after the loop, which reads the
    error output of an attempt that was never made. *)
Theorem X24_retrying_call_without_attempts_raises
    (shell : list Create.effect -> string -> completed)
    (append_log : list Create.effect -> option string)
    (command : string) (max_retries delay : Z) (tr : list Create.effect) :
  (max_retries <= 0)%Z ->
  Create.run_az_command shell append_log command max_retries delay tr
    = (Create.Fault (Create.UnboundLocalError "stderr"), tr).
Proof.
  intros Hmax. unfold Create.run_az_command.
  replace (Z.to_nat max_retries) with 0 by lia. reflexivity.
Qed.

Lemma X24_witness :
  Create.run_az_command shell_refuses log_open "az vm show --ids vm1" 0 5 []
    = (Create.Fault (Create.UnboundLocalError "stderr"), []).
Proof.
  apply (X24_retrying_call_without_attempts_raises shell_refuses log_open
           "az vm show --ids vm1" 0 5 []).
  lia.
Defined.

(** ** The grouping of the virtual machines *)

Lemma add_vm_lookup s vm grouped k :
  Create.add_vm s vm grouped !! k
    = if decide (k = s) then Some (default [] (grouped !! s) ++ [vm]) else grouped !! k.
Proof.
  unfold Create.add_vm. destruct (decide (k = s)) as [->|Hne].
  - apply lookup_insert_eq.
  - apply lookup_insert_ne. congruence.
Qed.

Lemma group_loop_spec vm_list : forall grouped,
  Forall (fun vm : string * string => 3 <= length (Py.split "/" vm.1)) vm_list ->
  (forall k, grouped !! k <> Some []) ->
  exists out,
    Create.group_loop vm_list grouped = inr out
    /\ forall k,
         out !! k = match grouped !! k with
                    | Some l0 => Some (l0 ++ filter (fun vm => account_segment vm = k) vm_list)
                    | None =>
                        match filter (fun vm => account_segment vm = k) vm_list with
                        | [] => None
                        | l => Some l
                        end
                    end.
Proof.
  induction vm_list as [|[rid name] rest IH]; intros grouped Hall Hne.
  - exists grouped. split; [reflexivity|]. intros k. cbn.
    destruct (grouped !! k); [rewrite app_nil_r|]; reflexivity.
  - inversion Hall as [|? ? Hlen Hrest]; subst. cbn [fst] in Hlen.
    cbn [Create.group_loop]. rewrite (item_nth _ 2) by lia.
    destruct (IH (Create.add_vm (nth 2 (Py.split "/" rid) EmptyString) (rid, name) grouped) Hrest)
      as (out & E & Hout).
    { intros k. rewrite add_vm_lookup. destruct (decide _); [|apply Hne].
      intros H. injection H as H. destruct (default [] _); discriminate. }
    exists out. split; [exact E|]. intros k. rewrite Hout, add_vm_lookup, filter_cons.
    change (account_segment (rid, name)) with (nth 2 (Py.split "/" rid) EmptyString).
    destruct (decide (k = nth 2 (Py.split "/" rid) EmptyString)) as [->|Hk].
    + destruct (decide (nth 2 (Py.split "/" rid) EmptyString
                        = nth 2 (Py.split "/" rid) EmptyString)); [|congruence].
      destruct (grouped !! nth 2 (Py.split "/" rid) EmptyString); cbn [default].
      * rewrite <- app_assoc. reflexivity.
      * reflexivity.
    + destruct (decide (nth 2 (Py.split "/" rid) EmptyString = k)); [congruence|].
      reflexivity.
Qed.

Lemma group_loop_short vm_list : forall grouped,
  Exists (fun vm : string * string => length (Py.split "/" vm.1) < 3) vm_list ->
  Create.group_loop vm_list grouped = inl (IndexError "list index out of range").
Proof.
  induction vm_list as [|[rid name] rest IH]; intros grouped Hex.
  - inversion Hex.
  - cbn [Create.group_loop].
    destruct (decide (length (Py.split "/" rid) < 3)) as [Hs|Hs].
    + rewrite (item_short _ 2) by lia. reflexivity.
    + rewrite (item_nth _ 2) by lia. apply IH.
      inversion Hex as [? ? H|? ? H]; subst; [cbn [fst] in H; lia | exact H].
Qed.

(** X25 (create_snapshot2.group_vms_by_subscription). When every
    resource id has three segments or more, the grouping returns a table
    whose entry for an account is the list of the machines of that
    account, in input order, and which has no entry for an account
    without machines: every machine is filed exactly once, under its own
    account. A resource id of fewer segments makes the grouping raise
    IndexError. *)
Theorem X25_grouping_files_each_machine_under_its_account (vm_list : list (string * string)) :
  (Forall (fun vm : string * string => 3 <= length (Py.split "/" vm.1)) vm_list ->
   exists grouped,
     Create.group_vms_by_subscription vm_list = inr grouped
     /\ forall account,
          grouped !! account
            = match filter (fun vm => account_segment vm = account) vm_list with
              | [] => None
              | machines => Some machines
              end)
  /\ (Exists (fun vm : string * string => length (Py.split "/" vm.1) < 3) vm_list ->
      Create.group_vms_by_subscription vm_list = inl (IndexError "list index out of range")).
Proof.
  split.
  - intros Hall.
    destruct (group_loop_spec vm_list ∅ Hall) as (out & E & Hout).
    { intros k. rewrite lookup_empty. discriminate. }
    exists out. split; [exact E|]. intros account.
    rewrite Hout, lookup_empty. reflexivity.
  - apply group_loop_short.
Qed.

Lemma X25_witness :
  exists grouped,
    Create.group_vms_by_subscription [vm_a; vm_b; vm_c] = inr grouped
    /\ forall account,
         grouped !! account
           = match filter (fun vm => account_segment vm = account) [vm_a; vm_b; vm_c] with
             | [] => None
             | machines => Some machines
             end.
Proof.
  apply (proj1 (X25_grouping_files_each_machine_under_its_account [vm_a; vm_b; vm_c])).
  repeat (apply Forall_cons_2; [vm_compute; lia|]). apply Forall_nil_2.
Defined.

Example machines_of_account_111 :
  filter (fun vm => account_segment vm = "111") [vm_a; vm_b; vm_c] = [vm_a; vm_c].
Proof. vm_compute. reflexivity. Qed.

(** ** Failures of the account switch *)

(** X26 (switch_subscription, run_az_command). How a failed account
    switch shows, when a switch is due. In the sequential variant a
    non-zero exit status raises CalledProcessError, after the failure was
    logged, but a switch whose process could not be run at all is taken
    for done: the function logs the switch and returns the target
    account. In the event-loop variant the exit status is not looked at:
    the switch is issued once, and whenever the function returns it has
    logged the switch and returns the target account. *)
Theorem X26_which_switch_failures_are_noticed
    (h : host) (s : string) (cur : option string) (tr : list event) :
  Some s <> cur ->
  (forall rc out err,
      az h tr (account_set_command s) = Exited rc out err -> rc <> 0%Z ->
      exists ev,
        Sync.switch_subscription h s cur tr
          = (Raise (CalledProcessError ["az"; "account"; "set"; "--subscription"; s] rc err),
             tr ++ ev)
        /\ commands ev = [account_set_command s])
  /\ (forall why,
      az h tr (account_set_command s) = Broken why ->
      exists ev,
        Sync.switch_subscription h s cur tr = (Ok (Some s), tr ++ ev)
        /\ commands ev = [account_set_command s]
        /\ In (Logged INFO "Switched to subscription: {}" [AText s]) ev)
  /\ (exists ev,
      (V2.switch_subscription h s cur tr).2 = tr ++ ev
      /\ commands ev = [account_set_command s])
  /\ (forall c tr',
      V2.switch_subscription h s cur tr = (Ok c, tr') ->
      exists ev,
        c = Some s /\ tr' = tr ++ ev
        /\ In (Logged INFO "Switched to subscription: {}" [AText s]) ev).
Proof.
  intros Hne. apply (bool_decide_eq_false_2 (Some s = cur)) in Hne. split; [|split].
  - intros rc out err Haz Hrc. apply Z.eqb_neq in Hrc.
    unfold Sync.switch_subscription. rewrite Hne.
    unfold try_except, bind, Sync.run_az_command. fold (account_set_command s).
    rewrite Haz, Hrc. unfold log, raise. eexists. split.
    + rewrite <- !app_assoc. reflexivity.
    + reflexivity.
  - intros why Haz.
    unfold Sync.switch_subscription. rewrite Hne.
    unfold try_except, bind, Sync.run_az_command. fold (account_set_command s).
    rewrite Haz. unfold log, ret. eexists. split; [|split].
    + rewrite <- !app_assoc. reflexivity.
    + reflexivity.
    + cbn. tauto.
  - assert (exists ev,
              V2.switch_subscription h s cur tr = (Ok (Some s), tr ++ ev)
              /\ commands ev = [account_set_command s]
              /\ In (Logged INFO "Switched to subscription: {}" [AText s]) ev)
      as (ev & E & Hc & Hl).
    { unfold V2.switch_subscription. rewrite Hne.
      unfold try_except, bind, V2.run_az_command. fold (account_set_command s).
      destruct (az h _ (account_set_command s)) as [rc out err|why];
        [destruct (rc =? 0)%Z|]; unfold log, ret; eexists;
        (split; [rewrite <- !app_assoc; reflexivity|]); (split; [reflexivity|]);
        cbn; tauto. }
    split.
    + exists ev. rewrite E. auto.
    + intros c tr' Hrun. rewrite E in Hrun. injection Hrun as <- <-. exists ev. auto.
Qed.

Lemma X26_witness :
  (exists ev,
     Sync.switch_subscription (host_of az_switch_fails) "222" None []
       = (Raise (CalledProcessError ["az"; "account"; "set"; "--subscription"; "222"] 1
                   "ERROR: The subscription of '222' doesn't exist in cloud 'AzureCloud'."),
          [] ++ ev)
     /\ commands ev = [account_set_command "222"])
  /\ (exists ev,
     (V2.switch_subscription (host_of az_switch_fails) "222" None []).2 = [] ++ ev
     /\ commands ev = [account_set_command "222"]).
Proof.
  assert (Hne : Some "222" <> (None : option string)) by discriminate.
  pose proof (X26_which_switch_failures_are_noticed (host_of az_switch_fails) "222" None [] Hne)
    as (Hsync & _ & Hv2 & _).
  split; [|exact Hv2].
  apply (Hsync 1%Z ""); [vm_compute; reflexivity | discriminate].
Defined.

(** ** The size of the merged report *)

Lemma status_count_insert (m : gmap string (list entry)) k x :
  m !! k = None -> status_count (<[k := x]> m) = status_count m + length x.
Proof.
  intros E. unfold status_count.
  pose proof (sum_insert (@length entry) m k x) as H. rewrite E in H. simpl in H. lia.
Qed.

Lemma status_count_union (d old : gmap string (list entry)) :
  d ##ₘ old -> status_count (d ∪ old) = status_count d + status_count old.
Proof.
  induction d as [|k x m Hk IH] using map_ind; intros Hd.
  - rewrite (left_id_L ∅ (∪)), status_count_empty. reflexivity.
  - apply map_disjoint_insert_l in Hd as [Hold Hm].
    rewrite <- insert_union_l.
    rewrite status_count_insert by (apply lookup_union_None; split; assumption).
    rewrite status_count_insert by exact Hk. rewrite IH by exact Hm. lia.
Qed.

Lemma entry_count_insert (results : gmap string (gmap string (list entry))) k x :
  entry_count (<[k := x]> results) + from_option status_count 0 (results !! k)
    = entry_count results + status_count x.
Proof. apply (sum_insert status_count). Qed.

Lemma separate_statuses (pre deletion : gmap string (gmap string (list entry))) a d old :
  statuses_within validation_statuses pre ->
  statuses_within deletion_statuses deletion ->
  deletion !! a = Some d -> pre !! a = Some old -> d ##ₘ old.
Proof.
  intros Hpre Hdel Ed Eo. apply map_disjoint_spec. intros s l1 l2 H1 H2.
  apply (statuses_disjoint s).
  - apply (Hpre a s l2). unfold status_list. rewrite Eo. exact H2.
  - apply (Hdel a s l1). unfold status_list. rewrite Ed. exact H1.
Qed.

Lemma foldl_merge_count (items : list (string * gmap string (list entry))) :
  forall results,
    NoDup items.*1 ->
    (forall k d old, (k, d) ∈ items -> results !! k = Some old -> d ##ₘ old) ->
    entry_count (foldl merge_step results items)
      = entry_count results + sum_list (map (fun kv => status_count kv.2) items).
Proof.
  induction items as [|[k d] rest IH]; intros results Hnd Hsep; [simpl; lia|].
  cbn [fmap list_fmap fst] in Hnd. apply NoDup_cons in Hnd as [Hk Hnd].
  cbn [foldl map sum_list_with sum_list snd]. rewrite IH; [|exact Hnd|].
  - unfold merge_step, id. cbn [fst snd].
    pose proof (entry_count_insert results k) as Hins.
    destruct (results !! k) as [old|] eqn:Ek.
    + specialize (Hins (d ∪ old)). cbn [from_option] in Hins.
      rewrite status_count_union in Hins
        by (apply (Hsep k d old); [left | exact Ek]).
      lia.
    + specialize (Hins d). cbn [from_option] in Hins. lia.
  - intros k' d' old' Hin Hl. apply (Hsep k' d' old'); [right; exact Hin|].
    assert (k' <> k) as Hneq.
    { intros ->. apply Hk. apply list_elem_of_fmap. exists (k, d'). split; [reflexivity|exact Hin]. }
    rewrite merge_step_lookup in Hl. cbn [fst] in Hl.
    destruct (decide (k' = k)); [contradiction | exact Hl].
Qed.

Lemma merge_results_count pre deletion :
  statuses_within validation_statuses pre ->
  statuses_within deletion_statuses deletion ->
  entry_count (merge_results pre deletion) = entry_count pre + entry_count deletion.
Proof.
  intros Hpre Hdel. unfold merge_results. rewrite foldl_merge_count.
  - reflexivity.
  - apply NoDup_fst_map_to_list.
  - intros k d old Hin Eo. apply elem_of_map_to_list in Hin.
    exact (separate_statuses pre deletion k d old Hpre Hdel Hin Eo).
Qed.

Lemma sync_validation_counted h ids names tr valid pre tr1 :
  Sync.pre_validate_snapshots h ids names tr = (Ok (valid, pre), tr1) ->
  statuses_within validation_statuses pre /\ entry_count pre = length ids
  /\ Forall has_account valid.
Proof.
  intros E. split; [|split].
  - destruct (sync_validate_loop h names ids [] ∅ tr) as (a & ev & E' & _ & Hv).
    unfold Sync.pre_validate_snapshots in E. rewrite E' in E. injection E as -> _.
    destruct Hv as (_ & Hs & _). apply Hs, statuses_within_empty.
  - destruct (sync_validate_loop_exact h names ids [] ∅ tr) as (v1 & r & ev & E' & _ & _ & Hn).
    unfold Sync.pre_validate_snapshots in E. rewrite E' in E. injection E as _ -> _.
    rewrite Hn, entry_count_empty. reflexivity.
  - eapply Forall_impl; [exact (validated_ids _ _ _ _ _ _ _ E)|].
    intros id H. unfold has_account. cbn beta in H. lia.
Qed.

Lemma v2_validation_counted h ids names tr valid pre tr1 :
  V2.pre_validate_snapshots h ids names tr = (Ok (valid, pre), tr1) ->
  statuses_within validation_statuses pre /\ entry_count pre = length ids
  /\ Forall has_account valid.
Proof.
  intros E. split; [|split].
  - destruct (v2_validate_loop h names ids [] ∅ tr) as (a & ev & E' & _ & Hv).
    unfold V2.pre_validate_snapshots in E. rewrite E' in E. injection E as -> _.
    destruct Hv as (_ & Hs & _). apply Hs, statuses_within_empty.
  - destruct (v2_validate_loop_exact h names ids [] ∅ tr) as (v1 & r & ev & E' & _ & _ & Hn).
    unfold V2.pre_validate_snapshots in E. rewrite E' in E. injection E as _ -> _.
    rewrite Hn, entry_count_empty. reflexivity.
  - eapply Forall_impl; [exact (v2_validated_ids _ _ _ _ _ _ _ E)|].
    intros id H. unfold has_account. cbn beta in H. lia.
Qed.

Lemma sync_deletion_counted h valid names tr deletion tr1 :
  Forall (fun id => 9 <= length (Py.split "/" id)) valid ->
  Sync.delete_valid_snapshots h valid names tr = (Ok deletion, tr1) ->
  statuses_within deletion_statuses deletion /\ entry_count deletion = length valid.
Proof.
  intros Hall E. unfold Sync.delete_valid_snapshots in E. split.
  - destruct (sync_delete_loop h names valid ∅ Hall tr) as (a & ev & E' & _ & Hd).
    rewrite E' in E. injection E as -> _. apply Hd, statuses_within_empty.
  - destruct (sync_delete_loop_exact h names valid ∅ tr) as (out & ev & E' & _ & Hn).
    { eapply Forall_impl; [exact Hall|]. intros id H. unfold has_account. cbn beta in H. lia. }
    rewrite E' in E. injection E as -> _. rewrite Hn, entry_count_empty. reflexivity.
Qed.

Lemma v2_deletion_counted h valid names tr deletion tr1 :
  Forall (fun id => 9 <= length (Py.split "/" id)) valid ->
  V2.delete_valid_snapshots h valid names tr = (Ok deletion, tr1) ->
  statuses_within deletion_statuses deletion /\ entry_count deletion = length valid.
Proof.
  intros Hall E. unfold V2.delete_valid_snapshots in E. split.
  - destruct (v2_delete_loop h names valid ∅ Hall tr) as (a & ev & E' & _ & Hd).
    rewrite E' in E. injection E as -> _. apply Hd, statuses_within_empty.
  - destruct (v2_delete_loop_exact h names valid ∅ tr) as (out & ev & E' & _ & Hn).
    { eapply Forall_impl; [exact Hall|]. intros id H. unfold has_account. cbn beta in H. lia. }
    rewrite E' in E. injection E as -> _. rewrite Hn, entry_count_empty. reflexivity.
Qed.

(** X27 (main, delete_snapshots: the merged report). The report merged
    from a validation of [ids] and the deletion of its valid list holds
    one entry per input identifier and one more per valid identifier,
    counted over all accounts and status lists: the merge loses no entry
    and every valid identifier is accounted for twice, once as valid and
    once as deleted or failed. Both variants. *)
Theorem X27_merged_report_keeps_every_entry
    (h : host) (ids : list string) (names names' : gmap string string)
    (tr tr1 tr2 tr3 : list event) (valid : list string)
    (pre deletion : gmap string (gmap string (list entry))) :
  (Sync.pre_validate_snapshots h ids names tr = (Ok (valid, pre), tr1)
   /\ Sync.delete_valid_snapshots h valid names' tr2 = (Ok deletion, tr3))
  \/ (V2.pre_validate_snapshots h ids names tr = (Ok (valid, pre), tr1)
      /\ V2.delete_valid_snapshots h valid names' tr2 = (Ok deletion, tr3)) ->
  entry_count (merge_results pre deletion) = length ids + length valid.
Proof.
  intros [[Hv Hd]|[Hv Hd]].
  - pose proof (validated_ids _ _ _ _ _ _ _ Hv) as Hall.
    destruct (sync_validation_counted _ _ _ _ _ _ _ Hv) as (Hs1 & Hn1 & _).
    destruct (sync_deletion_counted _ _ _ _ _ _ Hall Hd) as (Hs2 & Hn2).
    rewrite merge_results_count by assumption. lia.
  - pose proof (v2_validated_ids _ _ _ _ _ _ _ Hv) as Hall.
    destruct (v2_validation_counted _ _ _ _ _ _ _ Hv) as (Hs1 & Hn1 & _).
    destruct (v2_deletion_counted _ _ _ _ _ _ Hall Hd) as (Hs2 & Hn2).
    rewrite merge_results_count by assumption. lia.
Qed.

Lemma X27_witness :
  exists pre deletion,
    entry_count (merge_results pre deletion)
      = length [snap_a; "not-a-valid-id"; snap_b] + length [snap_a; snap_b].
Proof.
  run_eq H1 (Sync.pre_validate_snapshots (host_of az_b_locked)
               [snap_a; "not-a-valid-id"; snap_b] ∅ []).
  run_eq H2 (Sync.delete_valid_snapshots (host_of az_b_locked) [snap_a; snap_b] ∅ []).
  eexists _, _.
  exact (X27_merged_report_keeps_every_entry (host_of az_b_locked)
           [snap_a; "not-a-valid-id"; snap_b] ∅ ∅ [] _ [] _ [snap_a; snap_b] _ _
           (or_introl (conj H1 H2))).
Defined.

(** ** The input file of create_snapshot2.py *)

Lemma catch_Done_inv {A : Type} (m : Create.T A) handler tr (a : A) tr' :
  Create.catch m handler tr = (Create.Done a, tr') ->
  m tr = (Create.Done a, tr')
  \/ exists e tr1, m tr = (Create.Fault e, tr1) /\ handler e tr1 = (Create.Done a, tr').
Proof.
  unfold Create.catch. destruct (m tr) as [[x|e] tr1]; intros E.
  - left. exact E.
  - right. exists e, tr1. split; [reflexivity | exact E].
Qed.

Lemma scan_lines_spec log_raises lines : forall vm_list tr out tr',
  Create.scan_lines log_raises lines vm_list tr = (Create.Done out, tr') ->
  out = vm_list ++ omap machine_of_line lines.
Proof.
  induction lines as [|line rest IH]; intros vm_list tr out tr' E.
  - unfold Create.scan_lines, Create.unit_ in E. injection E as <- _.
    rewrite app_nil_r. reflexivity.
  - cbn [Create.scan_lines] in E. cbn [omap list_omap]. unfold machine_of_line at 1.
    destruct (Create.words (Py.strip line)) as [|rid [|name more]].
    + apply then_Done_inv in E as (u & t1 & _ & E). exact (IH _ _ _ _ E).
    + apply then_Done_inv in E as (u & t1 & _ & E). exact (IH _ _ _ _ E).
    + apply IH in E. rewrite E, <- app_assoc. reflexivity.
Qed.

Lemma scan_lines_returns log_raises lines :
  (forall t, log_raises t = None) ->
  forall vm_list tr, exists ev,
    Create.scan_lines log_raises lines vm_list tr
      = (Create.Done (vm_list ++ omap machine_of_line lines), tr ++ ev).
Proof.
  intros Hlog. induction lines as [|line rest IH]; intros vm_list tr.
  - exists []. cbn. unfold Create.unit_. now rewrite !app_nil_r.
  - cbn [Create.scan_lines omap list_omap]. unfold machine_of_line at 1.
    destruct (Create.words (Py.strip line)) as [|rid [|name more]].
    + unfold Create.then_, Create.write_log. rewrite Hlog.
      destruct (IH vm_list (tr ++ [Create.Wrote
                  "[bold yellow]Warning: Invalid line in input file: {}[/bold yellow]"
                  [Create.VText (Py.strip line)]])) as (ev & E).
      rewrite E. eexists. rewrite <- app_assoc. reflexivity.
    + unfold Create.then_, Create.write_log. rewrite Hlog.
      destruct (IH vm_list (tr ++ [Create.Wrote
                  "[bold yellow]Warning: Invalid line in input file: {}[/bold yellow]"
                  [Create.VText (Py.strip line)]])) as (ev & E).
      rewrite E. eexists. rewrite <- app_assoc. reflexivity.
    + destruct (IH (vm_list ++ [(rid, name)]) tr) as (ev & E).
      rewrite E. exists ev. rewrite <- app_assoc. reflexivity.
Qed.

(** X28 (create_snapshot2.extract_vm_info). Whenever the reader of the
    input file returns a list, the file was read to its end without
    error, the list holds, in file order, the first two fields of every
    line that has at least two fields, and it is not empty. When no call
    of [write_log] raises, the reader returns, and what it returns is that
    list for a file read to its end that has such a line, and None for a
    missing file, for a file whose reading raises and for a file without
    any such line: never an empty list. *)
Theorem X28_machine_list_is_the_two_field_lines_and_never_empty
    (log_raises : list Create.effect -> option string)
    (read_input : list Create.effect -> string -> Create.input_file)
    (file_path : string) (tr : list Create.effect) :
  (forall vm_list tr',
      Create.extract_vm_info log_raises read_input file_path tr
        = (Create.Done (Some vm_list), tr') ->
      exists lines,
        read_input tr file_path = Create.Opened lines None
        /\ vm_list = omap machine_of_line lines
        /\ vm_list <> [])
  /\ ((forall t, log_raises t = None) ->
      exists ev,
        Create.extract_vm_info log_raises read_input file_path tr
          = (Create.Done (machines_of (read_input tr file_path)), tr ++ ev)).
Proof.
  split.
  - intros vm_list tr'. unfold Create.extract_vm_info. intros E.
    destruct (read_input tr file_path) as [|lines failure].
    + apply then_Done_inv in E as (u & t1 & _ & E). discriminate E.
    + apply then_Done_inv in E as (read & t1 & E1 & E).
      destruct read as [[|vm rest]|].
      * apply then_Done_inv in E as (u & t2 & _ & E). discriminate E.
      * unfold Create.unit_ in E. injection E as <- _.
        apply catch_Done_inv in E1 as [E1|(e & t2 & _ & E1)].
        -- apply then_Done_inv in E1 as (scanned & t2 & E2 & E1).
           destruct failure as [why|]; [discriminate E1|].
           unfold Create.unit_ in E1. injection E1 as -> _.
           apply scan_lines_spec in E2. cbn [app] in E2.
           exists lines. split; [reflexivity|]. split; [exact E2 | discriminate].
        -- apply then_Done_inv in E1 as (u & t3 & _ & E1). discriminate E1.
      * discriminate E.
  - intros Hlog. unfold Create.extract_vm_info.
    destruct (read_input tr file_path) as [|lines failure]; cbn [machines_of].
    + unfold Create.then_, Create.write_log, Create.unit_. rewrite Hlog. eexists. reflexivity.
    + destruct (scan_lines_returns log_raises lines Hlog [] tr) as (ev & E).
      cbn [app] in E.
      unfold Create.then_ at 1, Create.catch, Create.then_ at 1. rewrite E.
      destruct failure as [why|].
      * unfold Create.fail, Create.then_, Create.write_log, Create.unit_. rewrite Hlog.
        eexists. rewrite <- app_assoc. reflexivity.
      * unfold Create.unit_ at 1.
        destruct (omap machine_of_line lines) as [|vm rest].
        -- unfold Create.then_, Create.write_log, Create.unit_. rewrite Hlog.
           eexists. rewrite <- app_assoc. reflexivity.
        -- unfold Create.unit_. exists ev. reflexivity.
Qed.

Lemma X28_witness :
  (exists lines,
     input_ready [] "snap_rid_list.txt" = Create.Opened lines None
     /\ [("/subscriptions/111/resourceGroups/rg1/providers/Microsoft.Compute/virtualMachines/vm-a",
          "vm-a");
         ("/subscriptions/222/resourceGroups/rg2/providers/Microsoft.Compute/virtualMachines/vm-b",
          "vm-b")]
        = omap machine_of_line lines
     /\ [("/subscriptions/111/resourceGroups/rg1/providers/Microsoft.Compute/virtualMachines/vm-a",
          "vm-a");
         ("/subscriptions/222/resourceGroups/rg2/providers/Microsoft.Compute/virtualMachines/vm-b",
          "vm-b")] <> [])
  /\ (exists ev,
     Create.extract_vm_info log_open (fun _ _ => Create.Missing) "snap_rid_list.txt" []
       = (Create.Done None, [] ++ ev)).
Proof.
  split.
  - apply (proj1 (X28_machine_list_is_the_two_field_lines_and_never_empty log_open input_ready
                    "snap_rid_list.txt" []) _
             (Create.extract_vm_info log_open input_ready "snap_rid_list.txt" []).2).
    vm_compute. reflexivity.
  - apply (proj2 (X28_machine_list_is_the_two_field_lines_and_never_empty log_open
                    (fun _ _ => Create.Missing) "snap_rid_list.txt" [])).
    intros t. reflexivity.
Defined.

Example words_of_padded_line :
  Create.words (String "009" " a  b" +:+ String "010" "c ") = ["a"; "b"; "c"].
Proof. vm_compute. reflexivity. Qed.

Example words_of_blank_line : Create.words (String "010" EmptyString) = [].
Proof. vm_compute. reflexivity. Qed.

Example invalid_lines_are_reported :
  (Create.extract_vm_info log_open input_ready "snap_rid_list.txt" []).2
  = [Create.Wrote "[bold yellow]Warning: Invalid line in input file: {}[/bold yellow]"
       [Create.VText ""];
     Create.Wrote "[bold yellow]Warning: Invalid line in input file: {}[/bold yellow]"
       [Create.VText "vm-without-id"]].
Proof. vm_compute. reflexivity. Qed.

(** A line that holds a closing tag: the console refuses the warning about
    it, the handler's own message quotes the tag and is refused as well,
    and the reader raises. *)
Example refused_line_ends_the_reader :
  Create.extract_vm_info
    (fun _ => Some "closing tag '[/foo]' at position 50 doesn't match any open tag")
    (fun _ _ => Create.Opened ["[/foo]"] None) "snap_rid_list.txt" []
  = (Create.Fault
       (Create.LogFault "closing tag '[/foo]' at position 50 doesn't match any open tag"),
     [Create.Refused "[bold yellow]Warning: Invalid line in input file: {}[/bold yellow]"
        [Create.VText "[/foo]"];
      Create.Refused "[bold red]Error reading input file: {}[/bold red]"
        [Create.VFault
           (Create.LogFault
              "closing tag '[/foo]' at position 50 doesn't match any open tag")]]).
Proof. vm_compute. reflexivity. Qed.

(** ** The suspend phase, pair by pair *)










